(** * Order-book replica of [examples/websocket/public/order_book.py]

    A shallow embedding of the recording script: the number formatter
    [_format_float], the class [OrderBook] (update, verify, is_verifiable,
    clear) and the event handlers with their module-level globals
    (snapshot, update, checksum, [_reset_connection], the journal flush);
    and of the dispatcher of public channels that feeds them.

    Conventions.
    - Python [str] values are lists of characters ([str]); every string the
      script builds is ASCII.
    - A Python exception is a value of [exn]; a call that may raise returns
      [res A].
    - A finite Python [float] is identified with the decimal expansion that
      [repr] prints for it (sign, significant digits without trailing zero,
      decimal exponent); [repr] is injective on floats, and the exact value
      of the float is the double nearest to that expansion.  The feed
      carries JSON numbers, hence no infinity and no NaN; the sign of a
      zero is not kept.
    - A number is an [int] or a [float]; numbers are compared, and looked
      up as dictionary keys, by their exact values.
    - The [log10] of the C library is a parameter of the script: nothing
      is assumed of its rounding. *)

From Stdlib Require Import ZArith Bool Ascii String List Lia.
From Stdlib Require Import Permutation Sorted.
From Stdlib Require DecimalFacts DecimalPos.
Import ListNotations.

Open Scope Z_scope.
Open Scope list_scope.

(** ** Exceptions and results *)

Inductive exn : Type :=
| ValueError
| KeyError
| IndexError
| AssertionError
| InvalidOperation.

Inductive res (A : Type) : Type :=
| Ok (x : A)
| Raise (e : exn).

Arguments Ok {A} x.
Arguments Raise {A} e.

Definition bind {A B : Type} (m : res A) (k : A -> res B) : res B :=
  match m with
  | Ok x => k x
  | Raise e => Raise e
  end.

Notation "x <- m ;; k" := (bind m (fun x => k))
  (at level 61, m at next level, right associativity).

(** [[f(x) for x in l]] evaluated left to right; the first exception wins. *)
Fixpoint mapM {A B : Type} (f : A -> res B) (l : list A) : res (list B) :=
  match l with
  | [] => Ok []
  | x :: r => y <- f x ;; ys <- mapM f r ;; Ok (y :: ys)
  end.

(** ** Strings *)

Definition str : Type := list ascii.

Definition lit (s : string) : str := list_ascii_of_string s.

Definition is_digit (ch : ascii) : bool :=
  let n := N_of_ascii ch in ((48 <=? n) && (n <=? 57))%N.

(** [s.startswith(pre)], returning the remainder on success. *)
Fixpoint strip_prefix (pre s : str) : option str :=
  match pre, s with
  | [], _ => Some s
  | a :: pre', b :: s' => if Ascii.eqb a b then strip_prefix pre' s' else None
  | _ :: _, [] => None
  end.

(** [s.replace(old, new)] for a non-empty [old]: non-overlapping
    occurrences, leftmost first.  The extra argument bounds the scan by the
    length of the string. *)
Fixpoint replace_from (fuel : nat) (old new s : str) : str :=
  match fuel with
  | O => s
  | S fuel' =>
      match strip_prefix old s with
      | Some rest => new ++ replace_from fuel' old new rest
      | None =>
          match s with
          | [] => []
          | ch :: s' => ch :: replace_from fuel' old new s'
          end
      end
  end.

Definition str_replace (s old new : str) : str :=
  replace_from (length s) old new s.

(** [sep.join(parts)]. *)
Fixpoint join (sep : str) (parts : list str) : str :=
  match parts with
  | [] => []
  | [x] => x
  | x :: r => x ++ sep ++ join sep r
  end.

(** [s.encode("UTF-8")] for code points below 256, as integers 0..255. *)
Definition encode_char (ch : ascii) : list Z :=
  let n := Z.of_N (N_of_ascii ch) in
  if n <? 128 then [n]
  else [Z.lor 192 (Z.shiftr n 6); Z.lor 128 (Z.land n 63)].

Definition encode_utf8 (s : str) : list Z := flat_map encode_char s.

(** Decimal digits of a non-negative integer, as [str(n)] prints them. *)
Fixpoint uint_chars (d : Decimal.uint) : str :=
  match d with
  | Decimal.Nil => []
  | Decimal.D0 d' => "0"%char :: uint_chars d'
  | Decimal.D1 d' => "1"%char :: uint_chars d'
  | Decimal.D2 d' => "2"%char :: uint_chars d'
  | Decimal.D3 d' => "3"%char :: uint_chars d'
  | Decimal.D4 d' => "4"%char :: uint_chars d'
  | Decimal.D5 d' => "5"%char :: uint_chars d'
  | Decimal.D6 d' => "6"%char :: uint_chars d'
  | Decimal.D7 d' => "7"%char :: uint_chars d'
  | Decimal.D8 d' => "8"%char :: uint_chars d'
  | Decimal.D9 d' => "9"%char :: uint_chars d'
  end.

Definition str_of_N (n : N) : str := uint_chars (N.to_uint n).

(** [str(z)] for a Python [int]. *)
Definition str_of_int (z : Z) : str :=
  match z with
  | Z0 => lit "0"
  | Zpos q => uint_chars (Pos.to_uint q)
  | Zneg q => "-"%char :: uint_chars (Pos.to_uint q)
  end.

(** Value of a string of decimal digits read left to right ([int(s)] on
    digits only); [None] on any other character. *)
Fixpoint digits_value (acc : N) (s : str) : option N :=
  match s with
  | [] => Some acc
  | ch :: s' =>
      if is_digit ch
      then digits_value (10 * acc + (N_of_ascii ch - 48))%N s'
      else None
  end.

(** The longest prefix of decimal digits and what follows it. *)
Fixpoint span_digits (s : str) : str * str :=
  match s with
  | [] => ([], [])
  | ch :: s' =>
      if is_digit ch
      then let '(ds, rest) := span_digits s' in (ch :: ds, rest)
      else ([], s)
  end.

Definition len {A : Type} (l : list A) : Z := Z.of_nat (length l).

(** ["0" * n]; empty when [n <= 0]. *)
Definition zeros (n : Z) : str := repeat "0"%char (Z.to_nat n).

(** ** Floats *)

Inductive digit19 : Type :=
| N1 | N2 | N3 | N4 | N5 | N6 | N7 | N8 | N9.

Definition digit19_val (d : digit19) : Z :=
  match d with
  | N1 => 1 | N2 => 2 | N3 => 3 | N4 => 4 | N5 => 5
  | N6 => 6 | N7 => 7 | N8 => 8 | N9 => 9
  end.

Definition digit19_char (d : digit19) : ascii :=
  match d with
  | N1 => "1" | N2 => "2" | N3 => "3" | N4 => "4" | N5 => "5"
  | N6 => "6" | N7 => "7" | N8 => "8" | N9 => "9"
  end%char.

(** A finite float: zero, or [(-1)^neg * (10 * high + last) * 10^dexp].
    The last significant digit is not zero, so each value has one
    representation and Leibniz equality is Python's [==]. *)
Inductive pyfloat : Type :=
| FZero
| FNum (neg : bool) (high : N) (last : digit19) (dexp : Z).

(** Significant digits, most significant first (what [repr] starts from). *)
Definition mant_digits (high : N) (last : digit19) : str :=
  match high with
  | N0 => []
  | Npos q => uint_chars (Pos.to_uint q)
  end ++ [digit19_char last].

Definition mantissa (high : N) (last : digit19) : Z :=
  10 * Z.of_N high + digit19_val last.

(** Position of the decimal point relative to the first significant digit:
    the value is [0.d1d2...dn * 10^decpt]. *)
Definition decpt_of (high : N) (last : digit19) (dexp : Z) : Z :=
  len (mant_digits high last) + dexp.

Definition float_neg (x : pyfloat) : pyfloat :=
  match x with
  | FZero => FZero
  | FNum neg high last dexp => FNum (negb neg) high last dexp
  end.

Definition float_abs (x : pyfloat) : pyfloat :=
  match x with
  | FZero => FZero
  | FNum _ high last dexp => FNum false high last dexp
  end.

Definition digit19_eq_dec (x y : digit19) : {x = y} + {x <> y}.
Proof. decide equality. Defined.

Definition float_eq_dec (x y : pyfloat) : {x = y} + {x <> y}.
Proof.
  decide equality.
  - apply Z.eq_dec.
  - apply digit19_eq_dec.
  - apply N.eq_dec.
  - apply Bool.bool_dec.
Defined.

(** The exponent as C's [printf("%+.02d")] writes it. *)
Definition exp_str (e : Z) : str :=
  (if e <? 0 then "-"%char else "+"%char) ::
  (if Z.abs e <? 10 then "0"%char :: str_of_int (Z.abs e)
   else str_of_int (Z.abs e)).

(** [repr(x)], which is also [str(x)]: the shortest digits, in exponent
    form when [decpt <= -4] or [decpt > 16], with [.0] added to an
    integral value otherwise. *)
Definition float_repr (x : pyfloat) : str :=
  match x with
  | FZero => lit "0.0"
  | FNum neg high last dexp =>
      let digits := mant_digits high last in
      let decpt := decpt_of high last dexp in
      (if neg then lit "-" else []) ++
      (if (decpt <=? -4) || (16 <? decpt) then
         firstn 1 digits
         ++ (if 1 <? len digits then "."%char :: skipn 1 digits else [])
         ++ "e"%char :: exp_str (decpt - 1)
       else if decpt <=? 0 then
         lit "0." ++ zeros (- decpt) ++ digits
       else if len digits <=? decpt then
         digits ++ zeros (decpt - len digits) ++ lit ".0"
       else
         firstn (Z.to_nat decpt) digits
         ++ "."%char :: skipn (Z.to_nat decpt) digits)
  end.

(** ** Numbers

    A JSON number is decoded to an [int] when it is written without
    fraction and exponent, and to a [float] otherwise; the decoded values
    reach the script as they are, so a price or an amount is either. *)
Inductive number : Type :=
| NInt (z : Z)
| NFloat (x : pyfloat).

(** [-v]. *)
Definition num_neg (v : number) : number :=
  match v with
  | NInt z => NInt (- z)
  | NFloat x => NFloat (float_neg x)
  end.

(** [abs(v)]. *)
Definition num_abs (v : number) : number :=
  match v with
  | NInt z => NInt (Z.abs z)
  | NFloat x => NFloat (float_abs x)
  end.

(** [repr(v)], which is also [str(v)]. *)
Definition num_repr (v : number) : str :=
  match v with
  | NInt z => str_of_int z
  | NFloat x => float_repr x
  end.

(** The double nearest to [p / q] for positive [p] and [q], ties to even,
    counted in units of [2^-1074], the smallest positive double: the
    quotient is cut to 53 significant bits, or to the bits above [2^-1074]
    when it is smaller than the normal range.  This is the value of the
    float whose [repr] denotes [p / q], since [float(repr(x)) == x]. *)
Definition binary64_units (p q : Z) : Z :=
  let quot := fun e => if 0 <=? e then p / (q * 2 ^ e) else (p * 2 ^ (- e)) / q in
  let e_hi := Z.log2 p - Z.log2 q - 52 in
  let e := Z.max (if quot e_hi <? 2 ^ 52 then e_hi - 1 else e_hi) (-1074) in
  let '(num, den) := if 0 <=? e then (p, q * 2 ^ e) else (p * 2 ^ (- e), q) in
  let t := num / den in
  let r := num mod den in
  let t' := if 2 * r <? den then t
            else if den <? 2 * r then t + 1
            else if Z.even t then t else t + 1 in
  t' * 2 ^ (e + 1074).

(** The exact value of a float in units of [2^-1074].  No float other than
    zero has the value zero: an expansion below every double, which is the
    [repr] of no float, counts as the smallest double. *)
Definition float_units (x : pyfloat) : Z :=
  match x with
  | FZero => 0
  | FNum neg high last dexp =>
      let m := mantissa high last in
      let u := if 0 <=? dexp then binary64_units (m * 10 ^ dexp) 1
               else binary64_units m (10 ^ (- dexp)) in
      (if neg then -1 else 1) * Z.max 1 u
  end.

(** The exact value of a number in units of [2^-1074], an integer for
    every [int] and every [float].  Python compares an [int] and a [float]
    by their exact values, and equal numbers hash alike: [==], [<] and the
    lookup of a number in a dictionary are those of this integer. *)
Definition num_units (v : number) : Z :=
  match v with
  | NInt z => z * 2 ^ 1074
  | NFloat x => float_units x
  end.

(** [x == y]. *)
Definition num_eq (x y : number) : Prop := num_units x = num_units y.

Definition num_eq_dec (x y : number) : {num_eq x y} + {~ num_eq x y} :=
  Z.eq_dec (num_units x) (num_units y).

Definition num_eqb (x y : number) : bool := num_units x =? num_units y.

(** [x < y]. *)
Definition num_ltb (x y : number) : bool := num_units x <? num_units y.

(** [x > y]. *)
Definition num_gtb (x y : number) : bool := num_ltb y x.

(** [math.floor(x)] for a float below [2^53] in magnitude, where the
    integers are floats and the floor of the expansion is that of the
    float. *)
Definition float_floor (x : pyfloat) : Z :=
  match x with
  | FZero => 0
  | FNum neg high last dexp =>
      let m := (if neg then -1 else 1) * mantissa high last in
      if 0 <=? dexp then m * 10 ^ dexp else m / 10 ^ (- dexp)
  end.

(** The sign test of [math.log10]: it raises [ValueError] (math domain
    error) unless its argument is positive. *)
Definition is_positive (v : number) : bool :=
  match v with
  | NInt z => 0 <? z
  | NFloat FZero => false
  | NFloat (FNum neg _ _ _) => negb neg
  end.

(** ** [decimal.Decimal] *)

Record Decimal : Type := mkDecimal {
  _sign : bool;
  _int : str;
  _exp : Z
}.

(** An optional sign and what follows it. *)
Definition split_sign (s : str) : bool * str :=
  match s with
  | "-"%char :: r => (true, r)
  | "+"%char :: r => (false, r)
  | _ => (false, s)
  end.

(** The exponent of a numeric string: an optional sign and at least one
    digit, up to the end. *)
Definition parse_exponent (s : str) : res Z :=
  let '(negative, s1) := split_sign s in
  match s1, digits_value 0 s1 with
  | _ :: _, Some n => Ok (if negative then - Z.of_N n else Z.of_N n)
  | _, _ => Raise InvalidOperation
  end.

(** The optional fraction, a point and digits: the digits and what
    follows them. *)
Definition split_fraction (s : str) : str * str :=
  match s with
  | "."%char :: r => span_digits r
  | _ => ([], s)
  end.

(** The optional exponent, [e] or [E] with a signed integer, up to the
    end. *)
Definition parse_exponent_part (s : str) : res Z :=
  match s with
  | [] => Ok 0
  | ch :: r =>
      if Ascii.eqb ch "e" || Ascii.eqb ch "E"
      then parse_exponent r
      else Raise InvalidOperation
  end.

(** [Decimal(s)] on a numeric string: optional sign, integer part, optional
    fraction, optional exponent, with at least one digit before the
    exponent.  The coefficient is [str(int(intpart + fracpart))] and the
    exponent is lowered by the length of the fraction.  The spellings of
    infinity and NaN, which [repr] of a finite float never yields, are
    rejected like any other malformed string. *)
Definition Decimal_of_str (s : str) : res Decimal :=
  let '(sign, s1) := split_sign s in
  let '(intpart, s2) := span_digits s1 in
  let '(fracpart, s3) := split_fraction s2 in
  if (length intpart + length fracpart =? 0)%nat then Raise InvalidOperation
  else
    exp <- parse_exponent_part s3 ;;
    match digits_value 0 (intpart ++ fracpart) with
    | Some n =>
        Ok {| _sign := sign; _int := str_of_N n; _exp := exp - len fracpart |}
    | None => Raise InvalidOperation
    end.

(** [format(d, "f")]: no precision, so no rounding; the decimal point is
    placed [leftdigits] digits from the left of the coefficient. *)
Definition Decimal_format_f (d : Decimal) : str :=
  let leftdigits := _exp d + len (_int d) in
  let dotplace := leftdigits in
  let '(intpart, fracpart) :=
    if dotplace <? 0 then
      (lit "0", zeros (- dotplace) ++ _int d)
    else if len (_int d) <? dotplace then
      (_int d ++ zeros (dotplace - len (_int d)), [])
    else
      (match firstn (Z.to_nat dotplace) (_int d) with
       | [] => lit "0"
       | i => i
       end,
       skipn (Z.to_nat dotplace) (_int d)) in
  (if _sign d then lit "-" else [])
  ++ intpart
  ++ match fracpart with
     | [] => []
     | _ => "."%char :: fracpart
     end.

(** ** [zlib.crc32] *)

(** One bit of the reflected CRC-32 with polynomial [0xEDB88320], the one
    of zip and gzip. *)
Definition crc32_bit (crc : Z) : Z :=
  if Z.testbit crc 0
  then Z.lxor (Z.shiftr crc 1) 0xEDB88320
  else Z.shiftr crc 1.

Definition crc32_byte (crc byte : Z) : Z :=
  Nat.iter 8 crc32_bit (Z.lxor crc byte).

Definition zlib_crc32 (data : list Z) : Z :=
  Z.lxor (fold_left crc32_byte data 0xFFFFFFFF) 0xFFFFFFFF.

(** ** Dictionaries

    A Python [dict] (or [OrderedDict]) as an association list in insertion
    order.  Keys are looked up by [==]: by [same], which is equality for
    strings and integers and [num_eq] for numbers. *)

Section Dict.
Context {K V : Type} {same : K -> K -> Prop}.
Variable K_eq_dec : forall x y : K, {same x y} + {~ same x y}.

Definition dict : Type := list (K * V).

Definition keys (d : dict) : list K := map fst d.

Fixpoint dict_get (k : K) (d : dict) : option V :=
  match d with
  | [] => None
  | (k', v) :: r => if K_eq_dec k k' then Some v else dict_get k r
  end.

(** [k in d]. *)
Definition dict_mem (k : K) (d : dict) : bool :=
  match dict_get k d with
  | Some _ => true
  | None => false
  end.

(** [d[k] = v]: an existing key stays as it is, in its place, and takes the
    new value; a new key goes last. *)
Fixpoint dict_set (k : K) (v : V) (d : dict) : dict :=
  match d with
  | [] => [(k, v)]
  | (k', v') :: r =>
      if K_eq_dec k k' then (k', v) :: r else (k', v') :: dict_set k v r
  end.

Fixpoint dict_remove (k : K) (d : dict) : dict :=
  match d with
  | [] => []
  | (k', v') :: r =>
      if K_eq_dec k k' then r else (k', v') :: dict_remove k r
  end.

(** [del d[k]]: [KeyError] when the key is absent. *)
Definition dict_del (k : K) (d : dict) : res dict :=
  if dict_mem k d then Ok (dict_remove k d) else Raise KeyError.
End Dict.

Arguments dict : clear implicits.

(** A subscription is a dictionary of strings ([channel], [sub_id],
    [symbol], [prec], ...). *)
Definition Subscription : Type := dict str str.

Definition str_eq_dec : forall x y : str, {x = y} + {x <> y} :=
  list_eq_dec ascii_dec.

(** * The dispatcher of [bfxapi/websocket/_handlers/public_channels_handler.py]

    [PublicChannelsHandler.handle] receives a subscription and a decoded
    frame and emits at most one event.  The serializers of
    [bfxapi.types.serializers] are not part of the sources: their [parse]
    is a parameter of the model, and so is the type of the records they
    build. *)

Module PublicChannelsHandler.

(** A decoded JSON value, the [Any] of [stream: List[Any]]. *)
#[warnings="-register-all"]
Inductive value : Type :=
| VNone
| VBool (b : bool)
| VInt (z : Z)
| VFloat (x : pyfloat)
| VStr (s : str)
| VList (l : list value)
| VDict (d : list (str * value)).

(** The exceptions of the dispatcher: those of [exn] and [TypeError]. *)
Inductive error : Type :=
| Builtin (e : exn)
| TypeError.

Inductive outcome (A : Type) : Type :=
| Done (x : A)
| Fails (e : error).

Arguments Done {A} x.
Arguments Fails {A} e.

Definition bindO {A B : Type} (m : outcome A) (k : A -> outcome B) : outcome B :=
  match m with
  | Done x => k x
  | Fails e => Fails e
  end.

Notation "x <-- m ;; k" := (bindO m (fun x => k))
  (at level 61, m at next level, right associativity).

Fixpoint mapO {A B : Type} (f : A -> outcome B) (l : list A) : outcome (list B) :=
  match l with
  | [] => Done []
  | x :: r => y <-- f x ;; ys <-- mapO f r ;; Done (y :: ys)
  end.

Definition _CHECKSUM : str := lit "cs".

(** [stream[i]]. *)
Definition getitem (stream : list value) (i : nat) : outcome value :=
  match nth_error stream i with
  | Some v => Done v
  | None => Fails (Builtin IndexError)
  end.

(** [subscription[k]]. *)
Definition sub_get (subscription : Subscription) (k : str) : outcome str :=
  match dict_get str_eq_dec k subscription with
  | Some v => Done v
  | None => Fails (Builtin KeyError)
  end.

(** [s.startswith(pre)]. *)
Definition startswith (s pre : str) : bool :=
  match strip_prefix pre s with
  | Some _ => true
  | None => false
  end.

Definition str_eqb (s t : str) : bool :=
  if str_eq_dec s t then true else false.

(** [v == s] for a string [s]. *)
Definition eq_str (v : value) (s : str) : bool :=
  match v with
  | VStr t => str_eqb t s
  | _ => false
  end.

(** The truth value of [v]. *)
Definition truthy (v : value) : bool :=
  match v with
  | VNone => false
  | VBool b => b
  | VInt z => negb (z =? 0)
  | VFloat x => if float_eq_dec x FZero then false else true
  | VStr s => match s with [] => false | _ => true end
  | VList l => match l with [] => false | _ => true end
  | VDict d => match d with [] => false | _ => true end
  end.

(** [isinstance(v, list)]. *)
Definition is_list (v : value) : bool :=
  match v with
  | VList _ => true
  | _ => false
  end.

(** The items of [v] as [for x in v] and [*v] take them: the elements of a
    list, the characters of a string, the keys of a dictionary;
    [TypeError] for a value that is not iterable. *)
Definition iterate (v : value) : outcome (list value) :=
  match v with
  | VList l => Done l
  | VStr s => Done (map (fun ch => VStr [ch]) s)
  | VDict d => Done (map (fun kv => VStr (fst kv)) d)
  | _ => Fails TypeError
  end.

(** [v[0]]. *)
Definition first_item (v : value) : outcome value :=
  match v with
  | VList l => getitem l 0
  | VStr s =>
      match s with
      | ch :: _ => Done (VStr [ch])
      | [] => Fails (Builtin IndexError)
      end
  | VDict _ => Fails (Builtin KeyError)
  | _ => Fails TypeError
  end.

(** [v & mask] for an [int] mask: defined on integers (and booleans, which
    are integers). *)
Definition int_and (v : value) (mask : Z) : outcome Z :=
  match v with
  | VInt z => Done (Z.land z mask)
  | VBool b => Done (Z.land (if b then 1 else 0) mask)
  | _ => Fails TypeError
  end.

(** The serializers the dispatcher names. *)
Inductive serializer : Type :=
| TradingPairTicker
| FundingCurrencyTicker
| TradingPairTrade
| FundingCurrencyTrade
| TradingPairBook
| FundingCurrencyBook
| TradingPairRawBook
| FundingCurrencyRawBook
| Candle
| DerivativesStatus
| Liquidation.

Section Dispatch.
Variable record : Type.
Variable parse : serializer -> list value -> outcome record.

(** What an event carries after the subscription: one record, a list of
    records, or the masked checksum. *)
Inductive payload : Type :=
| One (r : record)
| Many (rs : list record)
| Masked (v : Z).

(** A call [emit(name, subscription, payload)] or
    [emit(name, subscription, payload, timestamp)]. *)
Record emission : Type := mkEmission {
  em_name : str;
  em_subscription : Subscription;
  em_payload : payload;
  em_timestamp : option value
}.

(** [serializer.parse] called on the items of [v] (the splat of [v]). *)
Definition parse_splat (sr : serializer) (v : value) : outcome record :=
  args <-- iterate v ;;
  parse sr args.

(** The list comprehension over [v]: [serializer.parse] called on the
    items of each [sub_stream] in [v]. *)
Definition parse_each (sr : serializer) (v : value) : outcome (list record) :=
  items <-- iterate v ;;
  mapO (parse_splat sr) items.

(** [all(isinstance(sub_stream, list) for sub_stream in v)]. *)
Definition all_lists (v : value) : outcome bool :=
  items <-- iterate v ;;
  Done (forallb is_list items).

Definition __ticker_channel_handler (subscription : Subscription)
    (stream : list value) : outcome (option emission) :=
  symbol <-- sub_get subscription (lit "symbol") ;;
  if startswith symbol (lit "t") then
    s0 <-- getitem stream 0 ;;
    r <-- parse_splat TradingPairTicker s0 ;;
    Done (Some (mkEmission (lit "t_ticker_update") subscription (One r) None))
  else if startswith symbol (lit "f") then
    s0 <-- getitem stream 0 ;;
    r <-- parse_splat FundingCurrencyTicker s0 ;;
    Done (Some (mkEmission (lit "f_ticker_update") subscription (One r) None))
  else Done None.

(** The dictionary [events] of the trades handler. *)
Definition trade_events : dict str str :=
  [(lit "te", lit "t_trade_execution");
   (lit "tu", lit "t_trade_execution_update");
   (lit "fte", lit "f_trade_execution");
   (lit "ftu", lit "f_trade_execution_update")].

(** [events[event]]. *)
Definition trade_event_name (event : value) : outcome str :=
  match event with
  | VStr tag =>
      match dict_get str_eq_dec tag trade_events with
      | Some n => Done n
      | None => Fails (Builtin KeyError)
      end
  | VList _ | VDict _ => Fails TypeError
  | _ => Fails (Builtin KeyError)
  end.

Definition __trades_channel_handler (subscription : Subscription)
    (stream : list value) : outcome (option emission) :=
  event <-- getitem stream 0 ;;
  returned <--
    (if truthy event
        && existsb (eq_str event) [lit "te"; lit "tu"; lit "fte"; lit "ftu"]
     then
       symbol <-- sub_get subscription (lit "symbol") ;;
       if startswith symbol (lit "t") then
         n <-- trade_event_name event ;;
         s1 <-- getitem stream 1 ;;
         r <-- parse_splat TradingPairTrade s1 ;;
         Done (Some (mkEmission n subscription (One r) None))
       else if startswith symbol (lit "f") then
         n <-- trade_event_name event ;;
         s1 <-- getitem stream 1 ;;
         r <-- parse_splat FundingCurrencyTrade s1 ;;
         Done (Some (mkEmission n subscription (One r) None))
       else Done None
     else Done None) ;;
  match returned with
  | Some e => Done (Some e)
  | None =>
      symbol <-- sub_get subscription (lit "symbol") ;;
      if startswith symbol (lit "t") then
        s0 <-- getitem stream 0 ;;
        rs <-- parse_each TradingPairTrade s0 ;;
        Done (Some (mkEmission (lit "t_trades_snapshot") subscription
                      (Many rs) None))
      else if startswith symbol (lit "f") then
        s0 <-- getitem stream 0 ;;
        rs <-- parse_each FundingCurrencyTrade s0 ;;
        Done (Some (mkEmission (lit "f_trades_snapshot") subscription
                      (Many rs) None))
      else Done None
  end.

Definition __book_channel_handler (subscription : Subscription)
    (stream : list value) (timestamp : value) : outcome (option emission) :=
  symbol <-- sub_get subscription (lit "symbol") ;;
  if startswith symbol (lit "t") then
    s0 <-- getitem stream 0 ;;
    snapshot <-- all_lists s0 ;;
    if snapshot then
      rs <-- parse_each TradingPairBook s0 ;;
      Done (Some (mkEmission (lit "t_book_snapshot") subscription (Many rs)
                    (Some timestamp)))
    else
      r <-- parse_splat TradingPairBook s0 ;;
      Done (Some (mkEmission (lit "t_book_update") subscription (One r)
                    (Some timestamp)))
  else if startswith symbol (lit "f") then
    s0 <-- getitem stream 0 ;;
    snapshot <-- all_lists s0 ;;
    if snapshot then
      rs <-- parse_each FundingCurrencyBook s0 ;;
      Done (Some (mkEmission (lit "f_book_snapshot") subscription (Many rs)
                    None))
    else
      r <-- parse_splat FundingCurrencyBook s0 ;;
      Done (Some (mkEmission (lit "f_book_update") subscription (One r) None))
  else Done None.

Definition __raw_book_channel_handler (subscription : Subscription)
    (stream : list value) : outcome (option emission) :=
  symbol <-- sub_get subscription (lit "symbol") ;;
  if startswith symbol (lit "t") then
    s0 <-- getitem stream 0 ;;
    snapshot <-- all_lists s0 ;;
    if snapshot then
      rs <-- parse_each TradingPairRawBook s0 ;;
      Done (Some (mkEmission (lit "t_raw_book_snapshot") subscription
                    (Many rs) None))
    else
      r <-- parse_splat TradingPairRawBook s0 ;;
      Done (Some (mkEmission (lit "t_raw_book_update") subscription (One r)
                    None))
  else if startswith symbol (lit "f") then
    s0 <-- getitem stream 0 ;;
    snapshot <-- all_lists s0 ;;
    if snapshot then
      rs <-- parse_each FundingCurrencyRawBook s0 ;;
      Done (Some (mkEmission (lit "f_raw_book_snapshot") subscription
                    (Many rs) None))
    else
      r <-- parse_splat FundingCurrencyRawBook s0 ;;
      Done (Some (mkEmission (lit "f_raw_book_update") subscription (One r)
                    None))
  else Done None.

Definition __candles_channel_handler (subscription : Subscription)
    (stream : list value) : outcome (option emission) :=
  s0 <-- getitem stream 0 ;;
  snapshot <-- all_lists s0 ;;
  if snapshot then
    rs <-- parse_each Candle s0 ;;
    Done (Some (mkEmission (lit "candles_snapshot") subscription (Many rs) None))
  else
    r <-- parse_splat Candle s0 ;;
    Done (Some (mkEmission (lit "candles_update") subscription (One r) None)).

Definition __status_channel_handler (subscription : Subscription)
    (stream : list value) : outcome (option emission) :=
  key <-- sub_get subscription (lit "key") ;;
  if startswith key (lit "deriv:") then
    s0 <-- getitem stream 0 ;;
    r <-- parse_splat DerivativesStatus s0 ;;
    Done (Some (mkEmission (lit "derivatives_status_update") subscription
                  (One r) None))
  else if startswith key (lit "liq:") then
    s0 <-- getitem stream 0 ;;
    s00 <-- first_item s0 ;;
    r <-- parse_splat Liquidation s00 ;;
    Done (Some (mkEmission (lit "liquidation_feed_update") subscription
                  (One r) None))
  else Done None.

Definition __checksum_handler (subscription : Subscription)
    (value timestamp : value) : outcome (option emission) :=
  v <-- int_and value 0xFFFFFFFF ;;
  Done (Some (mkEmission (lit "checksum") subscription (Masked v)
                (Some timestamp))).

Definition handle (subscription : Subscription) (stream : list value)
    : outcome (option emission) :=
  channel <-- sub_get subscription (lit "channel") ;;
  if str_eqb channel (lit "ticker") then
    __ticker_channel_handler subscription stream
  else if str_eqb channel (lit "trades") then
    __trades_channel_handler subscription stream
  else if str_eqb channel (lit "book") then
    s0 <-- getitem stream 0 ;;
    if eq_str s0 _CHECKSUM then
      s1 <-- getitem stream 1 ;;
      s2 <-- getitem stream 2 ;;
      __checksum_handler subscription s1 s2
    else
      prec <-- sub_get subscription (lit "prec") ;;
      if negb (str_eqb prec (lit "R0")) then
        s1 <-- getitem stream 1 ;;
        __book_channel_handler subscription [s0] s1
      else
        __raw_book_channel_handler subscription stream
  else if str_eqb channel (lit "candles") then
    __candles_channel_handler subscription stream
  else if str_eqb channel (lit "status") then
    __status_channel_handler subscription stream
  else Done None.

End Dispatch.

Arguments One {record} r.
Arguments Many {record} rs.
Arguments Masked {record} v.
Arguments mkEmission {record} em_name em_subscription em_payload em_timestamp.
Arguments em_name {record} e.
Arguments em_subscription {record} e.
Arguments em_payload {record} e.
Arguments em_timestamp {record} e.

End PublicChannelsHandler.

(** * The script, over the C library's logarithm

    [math.log10] hands a positive argument to the [log10] of the C
    library, whose rounding differs between platforms and is not part of
    the sources: it is the parameter [log10] of everything below. *)

Section Script.
Variable log10 : number -> pyfloat.

(** [math.log10(v)]. *)
Definition math_log10 (v : number) : res pyfloat :=
  if is_positive v then Ok (log10 v) else Raise ValueError.

(** ** [_format_float] *)

Definition _find_exp (number : number) : res Z :=
  base10 <- math_log10 (num_abs number) ;;
  Ok (float_floor base10).

Definition _format_float (value : number) : res str :=
  e <- _find_exp value ;;
  if -6 <=? e then
    d <- Decimal_of_str (num_repr value) ;;
    Ok (Decimal_format_f d)
  else
    Ok (str_replace (num_repr value) (lit "e-0") (lit "e-")).

(** ** [sorted]

    [sorted(l, key=key)] compares keys with [<] only and is stable; the
    result is that of the stable insertion sort below. *)

Section Sorted.
Context {A : Type}.
Variable key : A -> number.

Fixpoint insert_by (x : A) (l : list A) : list A :=
  match l with
  | [] => [x]
  | y :: r =>
      if num_ltb (key y) (key x) then y :: insert_by x r
      else x :: y :: r
  end.

Definition sorted (l : list A) : list A := fold_right insert_by [] l.
End Sorted.

(** ** [class OrderBook] *)

(** A decoded book message ([TradingPairBook]). *)
Record TradingPairBook : Type := mkTradingPairBook {
  price : number;
  count : Z;
  amount : number
}.

(** The stored entry [{"p": price, "c": count, "a": amount}]. *)
Record level : Type := mkLevel {
  level_p : number;
  level_c : Z;
  level_a : number
}.

Inductive kind : Type := bids | asks.

Definition side : Type := dict number level.

(** The attribute [__order_book]: [{"bids": ..., "asks": ...}]. *)
Record OrderBook : Type := mkOrderBook {
  book_bids : side;
  book_asks : side
}.

Definition get_side (k : kind) (b : OrderBook) : side :=
  match k with
  | bids => book_bids b
  | asks => book_asks b
  end.

Definition set_side (k : kind) (s : side) (b : OrderBook) : OrderBook :=
  match k with
  | bids => {| book_bids := s; book_asks := book_asks b |}
  | asks => {| book_bids := book_bids b; book_asks := s |}
  end.

(** [OrderBook()] and [clear]. *)
Definition empty_book : OrderBook := {| book_bids := []; book_asks := [] |}.

Definition clear (b : OrderBook) : OrderBook := empty_book.

(** [kind = "bids" if amount > 0 else "asks"]. *)
Definition kind_of (amount : number) : kind :=
  if num_gtb amount (NInt 0) then bids else asks.

Definition update (b : OrderBook) (data : TradingPairBook) : res OrderBook :=
  let '(price, count, amount) := (price data, count data, amount data) in
  let kind := kind_of amount in
  let b1 :=
    if count >? 0 then
      set_side kind
        (dict_set num_eq_dec price
           {| level_p := price; level_c := count; level_a := amount |}
           (get_side kind b)) b
    else b in
  if count =? 0 then
    if dict_mem num_eq_dec price (get_side kind b1) then
      s <- dict_del num_eq_dec price (get_side kind b1) ;;
      Ok (set_side kind s b1)
    else Ok b1
  else Ok b1.

(** [l[i]] for [i >= 0]. *)
Definition index {A : Type} (l : list A) (i : nat) : res A :=
  match nth_error l i with
  | Some x => Ok x
  | None => Raise IndexError
  end.

(** [for i in range(n): acc = body(i, acc)]. *)
Definition for_range {S : Type} (n : nat) (body : nat -> S -> res S)
    (init : S) : res S :=
  fold_left (fun acc i => s <- acc ;; body i s) (seq 0 n) (Ok init).

Definition triple_of (data : level) : number * Z * number :=
  (level_p data, level_c data, level_a data).

Definition sorted_bids (b : OrderBook) : list (number * Z * number) :=
  sorted (fun data => num_neg (fst (fst data)))
    (map (fun item => triple_of (snd item)) (book_bids b)).

Definition sorted_asks (b : OrderBook) : list (number * Z * number) :=
  sorted (fun data => fst (fst data))
    (map (fun item => triple_of (snd item)) (book_asks b)).

(** The loop of [verify] that fills [values]. *)
Definition verify_values (bids asks : list (number * Z * number))
    : res (list number) :=
  for_range 25
    (fun _i values =>
       bid <- index bids _i ;;
       ask <- index asks _i ;;
       let values := values ++ [fst (fst bid); snd bid] in
       Ok (values ++ [fst (fst ask); snd ask]))
    [].

Definition verify (b : OrderBook) (checksum : Z) : res bool :=
  let bids := sorted_bids b in
  let asks := sorted_asks b in
  if (len bids <? 25) || (len asks <? 25) then Raise AssertionError
  else
    values <- verify_values bids asks ;;
    parts <- mapM _format_float values ;;
    let local := join (lit ":") parts in
    let crc32 := zlib_crc32 (encode_utf8 local) in
    Ok (crc32 =? checksum).

Definition is_verifiable (b : OrderBook) : bool :=
  (25 <=? len (book_bids b)) && (25 <=? len (book_asks b)).

(** A value of [timestamp_orderbook_update_map]: a deep copy of the book,
    [{"bids": ..., "asks": ...}], or the three parallel lists
    [{"p": [...], "a": [...], "c": [...]}]. *)
Inductive journal_entry : Type :=
| BookCopy (b : OrderBook)
| Updates (ps : list number) (amounts : list number) (cs : list Z).

Definition journal : Type := dict Z journal_entry.

Record state : Type := mkState {
  order_book : OrderBook;
  timestamp_orderbook_update_map : journal;
  last_checksum_timestamp : Z;
  starting_timestamp : Z;
  ending_timestamp : Z;
  are_new_messages_to_drop : bool
}.

Definition SYMBOL : str := lit "tBTCUSD".
Definition SECONDS_RECORDING_DURATION : Z := 3300.

Definition initial_state : state := {|
  order_book := empty_book;
  timestamp_orderbook_update_map := [];
  last_checksum_timestamp := 0;
  starting_timestamp := 0;
  ending_timestamp := 0;
  are_new_messages_to_drop := false
|}.

(** What the script does to the outside: the two requests to the
    connection, [print], and the file written by [json.dump]. *)
Inductive effect : Type :=
| Unsubscribe (sub_id : str)
| Subscribe (kwargs : Subscription)
| Print (msg : str)
| WriteFile (path : str) (content : journal).

(** Each outgoing call is logged with the globals as they stand when it is
    made. *)
Definition log : Type := list (effect * state).

(** A handler: reads and writes the globals, logs its calls, may raise.
    Handlers run one at a time; the suspension points of [await] are not
    modelled. *)
Definition M (A : Type) : Type := state -> res (A * state * log).

Definition ret {A : Type} (x : A) : M A := fun s => Ok (x, s, []).

Definition bindM {A B : Type} (m : M A) (k : A -> M B) : M B :=
  fun s =>
    match m s with
    | Raise e => Raise e
    | Ok (x, s1, l1) =>
        match k x s1 with
        | Raise e => Raise e
        | Ok (y, s2, l2) => Ok (y, s2, l1 ++ l2)
        end
    end.

Notation "x <~ m ;; k" := (bindM m (fun x => k))
  (at level 61, m at next level, right associativity).
Notation "m ;;; k" := (bindM m (fun _ => k))
  (at level 61, right associativity).

Definition get : M state := fun s => Ok (s, s, []).
Definition modify (f : state -> state) : M unit := fun s => Ok (tt, f s, []).
Definition call (e : effect) : M unit := fun s => Ok (tt, s, [(e, s)]).
Definition lift {A : Type} (r : res A) : M A :=
  fun s => match r with Ok x => Ok (x, s, []) | Raise e => Raise e end.

Definition set_order_book (b : OrderBook) (s : state) : state :=
  {| order_book := b;
     timestamp_orderbook_update_map := timestamp_orderbook_update_map s;
     last_checksum_timestamp := last_checksum_timestamp s;
     starting_timestamp := starting_timestamp s;
     ending_timestamp := ending_timestamp s;
     are_new_messages_to_drop := are_new_messages_to_drop s |}.

Definition set_journal (j : journal) (s : state) : state :=
  {| order_book := order_book s;
     timestamp_orderbook_update_map := j;
     last_checksum_timestamp := last_checksum_timestamp s;
     starting_timestamp := starting_timestamp s;
     ending_timestamp := ending_timestamp s;
     are_new_messages_to_drop := are_new_messages_to_drop s |}.

Definition set_last_checksum_timestamp (t : Z) (s : state) : state :=
  {| order_book := order_book s;
     timestamp_orderbook_update_map := timestamp_orderbook_update_map s;
     last_checksum_timestamp := t;
     starting_timestamp := starting_timestamp s;
     ending_timestamp := ending_timestamp s;
     are_new_messages_to_drop := are_new_messages_to_drop s |}.

Definition set_window (start stop : Z) (s : state) : state :=
  {| order_book := order_book s;
     timestamp_orderbook_update_map := timestamp_orderbook_update_map s;
     last_checksum_timestamp := last_checksum_timestamp s;
     starting_timestamp := start;
     ending_timestamp := stop;
     are_new_messages_to_drop := are_new_messages_to_drop s |}.

Definition set_are_new_messages_to_drop (f : bool) (s : state) : state :=
  {| order_book := order_book s;
     timestamp_orderbook_update_map := timestamp_orderbook_update_map s;
     last_checksum_timestamp := last_checksum_timestamp s;
     starting_timestamp := starting_timestamp s;
     ending_timestamp := ending_timestamp s;
     are_new_messages_to_drop := f |}.

(** [order_book.update(data)] on the global book. *)
Definition order_book_update (data : TradingPairBook) : M unit :=
  s <~ get ;;
  b <~ lift (update (order_book s) data) ;;
  modify (set_order_book b).

(** [for x in l: body(x)]. *)
Fixpoint for_each {A : Type} (l : list A) (body : A -> M unit) : M unit :=
  match l with
  | [] => ret tt
  | x :: r => body x ;;; for_each r body
  end.

Definition on_open : M unit :=
  call (Subscribe [(lit "channel", lit "book"); (lit "symbol", SYMBOL);
                   (lit "prec", lit "P0"); (lit "len", lit "25")]).

(** [subscription["symbol"]] and the like. *)
Definition subscript (subscription : Subscription) (k : str) : res str :=
  match dict_get str_eq_dec k subscription with
  | Some v => Ok v
  | None => Raise KeyError
  end.

Definition on_subscribed (subscription : Subscription) : M unit :=
  symbol <~ lift (subscript subscription (lit "symbol")) ;;
  call (Print (lit "Subscription successful for symbol <" ++ symbol ++ lit ">")).

Definition on_t_book_snapshot (subscription : Subscription)
    (snapshot : list TradingPairBook) (timestamp : Z) : M unit :=
  modify (set_window timestamp (timestamp + SECONDS_RECORDING_DURATION * 1000)) ;;;
  modify (set_are_new_messages_to_drop false) ;;;
  for_each snapshot order_book_update ;;;
  s <~ get ;;
  modify (set_journal
            (dict_set Z.eq_dec timestamp (BookCopy (order_book s))
               (timestamp_orderbook_update_map s))).

(** [data/data_{timestamp}.json] or [data/data_{timestamp}_interrupted.json]. *)
Definition journal_path (timestamp : Z) (is_interrupted : bool) : str :=
  if is_interrupted
  then lit "data/data_" ++ str_of_int timestamp ++ lit "_interrupted.json"
  else lit "data/data_" ++ str_of_int timestamp ++ lit ".json".

Definition save_orderbook_messages_to_file (timestamp : Z)
    (is_interrupted : bool) : M unit :=
  let path := journal_path timestamp is_interrupted in
  s <~ get ;;
  call (WriteFile path (timestamp_orderbook_update_map s)).

Definition _get_orderbook_updates_until (timestamp_orderbook_update_map : journal)
    (timestamp : Z) : journal :=
  filter (fun kv => fst kv <=? timestamp) timestamp_orderbook_update_map.

(** [subscription.copy()] followed by [pop("sub_id")]: the identifier and
    the remaining keys. *)
Definition pop_sub_id (subscription : Subscription) : res (str * Subscription) :=
  match dict_get str_eq_dec (lit "sub_id") subscription with
  | Some sub_id => Ok (sub_id, dict_remove str_eq_dec (lit "sub_id") subscription)
  | None => Raise KeyError
  end.

Definition _reset_connection (subscription : Subscription) : M unit :=
  modify (set_are_new_messages_to_drop true) ;;;
  let _subscription := subscription in
  modify (set_journal []) ;;;
  popped <~ lift (pop_sub_id _subscription) ;;
  call (Unsubscribe (fst popped)) ;;;
  call (Print (lit "ME STO A ISCRIVERE")) ;;;
  call (Subscribe (snd popped)) ;;;
  s <~ get ;;
  modify (set_order_book (clear (order_book s))).

(** The journal part of [on_t_book_update]: append to the lists stored
    under [timestamp], or start them.  Subscripting a stored book copy with
    ["p"] raises [KeyError]. *)
Definition journal_record (data : TradingPairBook) (timestamp : Z)
    (j : journal) : res journal :=
  if dict_mem Z.eq_dec timestamp j then
    match dict_get Z.eq_dec timestamp j with
    | Some (Updates ps amounts cs) =>
        Ok (dict_set Z.eq_dec timestamp
              (Updates (ps ++ [price data]) (amounts ++ [amount data])
                 (cs ++ [count data])) j)
    | _ => Raise KeyError
    end
  else
    Ok (dict_set Z.eq_dec timestamp
          (Updates [price data] [amount data] [count data]) j).

Definition on_t_book_update (subscription : Subscription)
    (data : TradingPairBook) (timestamp : Z) : M unit :=
  s <~ get ;;
  if are_new_messages_to_drop s then ret tt
  else
    order_book_update data ;;;
    s <~ get ;;
    j <~ lift (journal_record data timestamp (timestamp_orderbook_update_map s)) ;;
    modify (set_journal j) ;;;
    s <~ get ;;
    if ending_timestamp s <=? timestamp then
      modify (set_journal
                (dict_set Z.eq_dec (-1) (BookCopy (order_book s))
                   (timestamp_orderbook_update_map s))) ;;;
      save_orderbook_messages_to_file timestamp false ;;;
      _reset_connection subscription
    else ret tt.

Definition on_checksum (subscription : Subscription) (value : Z)
    (timestamp : Z) : M unit :=
  s <~ get ;;
  if is_verifiable (order_book s) then
    ok <~ lift (verify (order_book s) value) ;;
    if negb ok then
      call (Print (lit "Mismatch between local and remote checksums: restarting book...")) ;;;
      s <~ get ;;
      modify (set_journal
                (_get_orderbook_updates_until (timestamp_orderbook_update_map s)
                   (last_checksum_timestamp s))) ;;;
      s <~ get ;;
      save_orderbook_messages_to_file (last_checksum_timestamp s) true ;;;
      _reset_connection subscription
    else
      modify (set_last_checksum_timestamp timestamp)
  else ret tt.

(** The events the script registers a handler for. *)
Inductive event : Type :=
| ev_open
| ev_subscribed (subscription : Subscription)
| ev_t_book_snapshot (subscription : Subscription)
    (snapshot : list TradingPairBook) (timestamp : Z)
| ev_t_book_update (subscription : Subscription) (data : TradingPairBook)
    (timestamp : Z)
| ev_checksum (subscription : Subscription) (value : Z) (timestamp : Z).

Definition handle (ev : event) : M unit :=
  match ev with
  | ev_open => on_open
  | ev_subscribed subscription => on_subscribed subscription
  | ev_t_book_snapshot subscription snapshot timestamp =>
      on_t_book_snapshot subscription snapshot timestamp
  | ev_t_book_update subscription data timestamp =>
      on_t_book_update subscription data timestamp
  | ev_checksum subscription value timestamp =>
      on_checksum subscription value timestamp
  end.

(** * Vocabulary of the properties *)

(** ** Notations of numbers *)

Definition all_digits (s : str) : bool := forallb is_digit s.

Definition strip_minus (s : str) : str :=
  match s with
  | "-"%char :: r => r
  | _ => s
  end.

(** Plain fixed-point notation: an optional minus sign, at least one digit,
    and optionally a point followed by at least one digit. *)
Definition is_fixed_point (s : str) : bool :=
  match span_digits (strip_minus s) with
  | ([], _) => false
  | (_ :: _, []) => true
  | (_ :: _, "."%char :: frac) =>
      match frac with
      | [] => false
      | _ :: _ => all_digits frac
      end
  | (_ :: _, _ :: _) => false
  end.

(** The string is empty or starts with a character that is not a digit. *)
Definition not_digit_start (s : str) : Prop :=
  match s with
  | [] => True
  | ch :: _ => is_digit ch = false
  end.

(** A numeric string as [repr] lays it out: sign, integer digits, optional
    fraction, optional exponent. *)
Definition numeric (neg : bool) (ip : str) (frac : option str)
    (ex : option Z) : str :=
  (if neg then lit "-" else [])
  ++ ip
  ++ match frac with Some fp => "."%char :: fp | None => [] end
  ++ match ex with Some e => "e"%char :: exp_str e | None => [] end.

(** A fraction, when present, has at least one digit. *)
Definition good_frac (frac : option str) : Prop :=
  match frac with
  | Some fp => all_digits fp = true /\ fp <> []
  | None => True
  end.

(** No character of the string is [e]. *)
Definition no_e (s : str) : bool :=
  forallb (fun ch => negb (Ascii.eqb "e" ch)) s.




(** Zero, as an [int] or as a [float]. *)
Definition num_is_zero (v : number) : bool :=
  match v with
  | NInt 0 | NFloat FZero => true
  | _ => false
  end.

(** The base-10 exponent of a non-zero number: the exponent of its first
    significant digit, [10^e <= |v| < 10^(e+1)] on the decimal expansion. *)
Definition decimal_exponent (v : number) : Z :=
  match v with
  | NInt z => len (str_of_int (Z.abs z)) - 1
  | NFloat FZero => 0
  | NFloat (FNum _ high last dexp) => decpt_of high last dexp - 1
  end.

(** ** A stand-in for the C library *)

Definition digit19_of (z : Z) : digit19 :=
  match z with
  | 2 => N2 | 3 => N3 | 4 => N4 | 5 => N5 | 6 => N6 | 7 => N7 | 8 => N8
  | 9 => N9 | _ => N1
  end.

(** [m * 10^e] with the trailing zeros of [m] moved to the exponent. *)
Fixpoint strip_zeros (fuel : nat) (m e : Z) : Z * Z :=
  match fuel with
  | O => (m, e)
  | S fuel' =>
      if m mod 10 =? 0 then strip_zeros fuel' (m / 10) (e + 1) else (m, e)
  end.

(** The float of the whole number [z]. *)
Definition float_of_Z (z : Z) : pyfloat :=
  if z =? 0 then FZero
  else
    let '(m, e) := strip_zeros (Z.to_nat (Z.log2 (Z.abs z))) (Z.abs z) 0 in
    FNum (z <? 0) (Z.to_N (m / 10)) (digit19_of (m mod 10)) e.

(** A logarithm for the samples: it returns the base-10 exponent of its
    argument, the floor of the true logarithm of the expansion.  The
    library's result has that floor except next to a power of ten. *)
Definition sample_log10 (v : number) : pyfloat :=
  float_of_Z (decimal_exponent v).

(** ** Books *)

(** Successive calls of [update] on one book. *)
Fixpoint apply_all (b : OrderBook) (history : list TradingPairBook)
    : res OrderBook :=
  match history with
  | [] => Ok b
  | data :: r => b' <- update b data ;; apply_all b' r
  end.

(** The exact values of the keys of a side. *)
Definition key_units (s : side) : list Z := map num_units (keys s).

(** No price occurs twice on a side: no two keys are equal numbers. *)
Definition unique_prices (b : OrderBook) : Prop :=
  NoDup (key_units (book_bids b)) /\ NoDup (key_units (book_asks b)).

(** A side with each key replaced by its exact value. *)
Definition by_units (s : side) : dict Z level :=
  map (fun item => (num_units (fst item), snd item)) s.

(** The number of keys of a side equal to [price]. *)
Definition count_price (price : number) (s : side) : nat :=
  length (filter (fun k => num_eqb k price) (keys s)).

Definition other_kind (k : kind) : kind :=
  match k with
  | bids => asks
  | asks => bids
  end.

(** [x] may stand before [y] in a list sorted by [key]: the key of [y] is
    not below that of [x]. *)
Definition key_le {A : Type} (key : A -> number) (x y : A) : Prop :=
  num_ltb (key y) (key x) = false.

(** ** The checksum as the specification describes it *)

(** The stored levels of one side, as [verify] lists them before sorting. *)
Definition side_levels (s : side) : list (number * Z * number) :=
  map (fun item => triple_of (snd item)) s.

(** The four values of one pair: bid price, bid amount, ask price, ask
    amount. *)
Definition pair_values (pair : (number * Z * number) * (number * Z * number))
    : list number :=
  let '(bid, ask) := pair in
  [fst (fst bid); snd bid; fst (fst ask); snd ask].

(** The first 25 of each list taken pairwise and flattened. *)
Definition canonical_values (bids_desc asks_asc : list (number * Z * number))
    : list number :=
  flat_map pair_values (combine (firstn 25 bids_desc) (firstn 25 asks_asc)).

(** The checksum of a list of values: formatted, joined with [:], encoded,
    CRC-32. *)
Definition canonical_crc (values : list number) : res Z :=
  parts <- mapM _format_float values ;;
  Ok (zlib_crc32 (encode_utf8 (join (lit ":") parts))).

(** ** The checksum in the words of the specification *)

(** The parts written one after the other, a colon before each part but
    the first. *)
Definition colon_joined (parts : list str) : str :=
  match parts with
  | [] => []
  | first :: others => first ++ flat_map (fun part => ":"%char :: part) others
  end.

(** Entry [n] of the table of the CRC-32 of zip and gzip: [n] after eight
    steps, each a shift to the right, the polynomial [0xEDB88320] being
    added when the bit shifted out is set. *)
Definition crc_table_entry (n : Z) : Z :=
  Nat.iter 8
    (fun c => if Z.odd c then Z.lxor 0xEDB88320 (Z.shiftr c 1) else Z.shiftr c 1)
    n.

Definition crc_table : list Z :=
  map (fun n => crc_table_entry (Z.of_nat n)) (seq 0 256).

(** The table-driven CRC-32 of zip and gzip: the register starts from
    [0xFFFFFFFF]; each byte replaces it by the table entry at the low byte
    of register and byte added together, added to the register shifted by
    eight bits; the result is the complement of the register. *)
Definition crc32_reference (bytes : list Z) : Z :=
  Z.lxor
    (fold_left
       (fun c b =>
          Z.lxor (nth (Z.to_nat (Z.land (Z.lxor c b) 0xFF)) crc_table 0)
            (Z.shiftr c 8))
       bytes 0xFFFFFFFF)
    0xFFFFFFFF.

(** A character of the ASCII range, which UTF-8 encodes as the one byte of
    its code. *)
Definition is_ascii7 (ch : ascii) : bool := (N_of_ascii ch <? 128)%N.

(** The UTF-8 bytes of a string of ASCII characters: their codes. *)
Definition ascii_codes (s : str) : list Z :=
  map (fun ch => Z.of_N (N_of_ascii ch)) s.

(** The checksum of the specification: the values formatted, joined with
    colons, encoded, and the CRC-32 of the bytes. *)
Definition reference_crc (values : list number) : res Z :=
  parts <- mapM _format_float values ;;
  Ok (crc32_reference (ascii_codes (colon_joined parts))).

(** ** Logs and runs *)

Definition is_request (e : effect) : bool :=
  match e with
  | Unsubscribe _ | Subscribe _ => true
  | _ => false
  end.

(** The requests made to the connection, in order, each with the globals
    at that moment. *)
Definition requests (l : log) : log := filter (fun x => is_request (fst x)) l.

(** The files written, in order: path and content. *)
Fixpoint written (l : log) : list (str * journal) :=
  match l with
  | [] => []
  | (WriteFile path content, _) :: r => (path, content) :: written r
  | _ :: r => written r
  end.

Definition log_of {A : Type} (r : res (A * state * log)) : log :=
  match r with
  | Ok (_, _, l) => l
  | Raise _ => []
  end.

(** The globals while [_reset_connection] makes its requests: flag set,
    journal cleared, book not yet cleared. *)
Definition resetting (s : state) : state :=
  set_journal [] (set_are_new_messages_to_drop true s).

(** The globals when [_reset_connection] returns. *)
Definition after_reset (s : state) : state :=
  set_order_book empty_book (resetting s).

(** The calls of [_reset_connection]. *)
Definition reset_log (subscription : Subscription) (sub_id : str) (s : state)
    : log :=
  [(Unsubscribe sub_id, resetting s);
   (Print (lit "ME STO A ISCRIVERE"), resetting s);
   (Subscribe (dict_remove str_eq_dec (lit "sub_id") subscription), resetting s)].

(** The handlers run one after the other on a stream of events. *)
Fixpoint run (events : list event) (s : state) : res (state * log) :=
  match events with
  | [] => Ok (s, [])
  | ev :: r =>
      match handle ev s with
      | Raise e => Raise e
      | Ok (_, s1, l1) =>
          match run r s1 with
          | Raise e => Raise e
          | Ok (s2, l2) => Ok (s2, l1 ++ l2)
          end
      end
  end.

Definition is_snapshot (ev : event) : bool :=
  match ev with
  | ev_t_book_snapshot _ _ _ => true
  | _ => false
  end.

(** A state in which the book is empty and updates are dropped. *)
Definition awaiting_snapshot (s : state) : Prop :=
  order_book s = empty_book /\ are_new_messages_to_drop s = true.

(** The order the specification gives for the resync: when the subscribe
    request is made, the book and the journal have already been cleared. *)
Definition cleared_before_subscribe (l : log) : Prop :=
  forall kwargs s,
    In (Subscribe kwargs, s) l ->
    order_book s = empty_book /\ timestamp_orderbook_update_map s = [].

(** The flush of the specification, first part: every file written holds a
    final copy of the book under the key -1. *)
Definition flush_has_final_copy (l : log) : Prop :=
  forall path content,
    In (path, content) (written l) ->
    exists b, dict_get Z.eq_dec (-1) content = Some (BookCopy b).

(** The flush of the specification, second part: every file is named after
    the start of the recording window. *)
Definition named_after_window_start (s : state) (l : log) : Prop :=
  forall path content,
    In (path, content) (written l) ->
    path = journal_path (starting_timestamp s) false
    \/ path = journal_path (starting_timestamp s) true.

(** ** Sample data *)

Definition sample_price (base i : nat) : number :=
  NInt (10 * Z.of_nat (base + i) + 1).

Definition sample_side (base : nat) (amount : number) : side :=
  map (fun i =>
         (sample_price base i,
          {| level_p := sample_price base i; level_c := 1;
             level_a := amount |}))
      (seq 0 25).

(** 25 bids at 1, 11, ..., 241 with amount 0.75 and 25 asks at 1001, ...,
    1241 with amount -0.75; the prices are integers, as whole numbers are
    decoded. *)
Definition sample_book : OrderBook := {|
  book_bids := sample_side 0 (NFloat (FNum false 7 N5 (-2)));
  book_asks := sample_side 100 (NFloat (FNum true 7 N5 (-2)))
|}.

(** The same book after a message [price 1001, count 1, amount 0]. *)
Definition sample_book_zero : OrderBook :=
  set_side asks
    (dict_set num_eq_dec (sample_price 100 0)
       {| level_p := sample_price 100 0; level_c := 1; level_a := NInt 0 |}
       (book_asks sample_book))
    sample_book.

(** The snapshot message that builds [sample_book]: its 25 bids, then its
    25 asks. *)
Definition sample_snapshot : list TradingPairBook :=
  map (fun item =>
         {| price := level_p (snd item); count := level_c (snd item);
            amount := level_a (snd item) |})
      (book_bids sample_book ++ book_asks sample_book).

Definition sample_subscription : Subscription :=
  [(lit "channel", lit "book"); (lit "sub_id", lit "7f3a");
   (lit "symbol", lit "tBTCUSD"); (lit "prec", lit "P0");
   (lit "len", lit "25")].

(** A recording window opened at 1000, one update journalled at 1500, the
    last good checksum at 1200. *)
Definition sample_state : state := {|
  order_book := sample_book;
  timestamp_orderbook_update_map :=
    [(1000, BookCopy sample_book);
     (1500, Updates [sample_price 0 0] [NFloat (FNum false 7 N5 (-2))] [1])];
  last_checksum_timestamp := 1200;
  starting_timestamp := 1000;
  ending_timestamp := 3301000;
  are_new_messages_to_drop := false
|}.

Definition sample_update : TradingPairBook :=
  {| price := sample_price 0 3; count := 2; amount := NFloat (FNum false 0 N2 0) |}.

(** The journal of the sample state once [sample_update] is recorded at
    3400000, past the end of the window. *)
Definition sample_journal_closing : journal :=
  timestamp_orderbook_update_map sample_state
  ++ [(3400000, Updates [price sample_update] [amount sample_update]
                  [count sample_update])].

(** ** Invariants *)

(** What every stored level satisfies on the side [k]: it is filed under
    a key equal to its own price, its count is positive and its amount
    selects [k]. *)
Definition level_ok (k : kind) (item : number * level) : Prop :=
  num_eq (level_p (snd item)) (fst item)
  /\ 0 < level_c (snd item)
  /\ kind_of (level_a (snd item)) = k.

Definition book_ok (b : OrderBook) : Prop :=
  unique_prices b
  /\ Forall (level_ok bids) (book_bids b)
  /\ Forall (level_ok asks) (book_asks b).

(** A journal entry is a copy of a well-formed book, or three lists of one
    length, not empty. *)
Definition entry_ok (e : journal_entry) : Prop :=
  match e with
  | BookCopy b => book_ok b
  | Updates ps amounts cs =>
      length ps = length amounts /\ length amounts = length cs /\ ps <> []
  end.

Definition journal_ok (j : journal) : Prop :=
  NoDup (keys j) /\ Forall (fun kv => entry_ok (snd kv)) j.

Definition state_ok (s : state) : Prop :=
  book_ok (order_book s) /\ journal_ok (timestamp_orderbook_update_map s).

(** A stream of events for the samples: the snapshot, a good checksum, an
    update that repeats a level, and an update past the end of the
    window. *)
Definition sample_events : list event :=
  [ev_t_book_snapshot sample_subscription sample_snapshot 1000;
   ev_checksum sample_subscription 3308996829 1200;
   ev_t_book_update sample_subscription
     {| price := sample_price 0 0; count := 1;
        amount := NFloat (FNum false 7 N5 (-2)) |}
     1500;
   ev_t_book_update sample_subscription sample_update 3400000].

(** The sample book with the levels of each side stored in the opposite
    order. *)
Definition sample_book_reversed : OrderBook := {|
  book_bids := rev (book_bids sample_book);
  book_asks := rev (book_asks sample_book)
|}.

(** The digits of an optional fraction. *)
Definition frac_digits (frac : option str) : str :=
  match frac with
  | Some fp => fp
  | None => []
  end.

(** The fraction shown for the digits [fp]: none when there is no digit. *)
Definition frac_of (fp : str) : option str :=
  match fp with
  | [] => None
  | _ :: _ => Some fp
  end.

(** No character of the string is a colon. *)
Definition no_colon (s : str) : bool :=
  forallb (fun ch => negb (Ascii.eqb ":" ch)) s.

(** ** The value of a decimal *)

(** Numerator of the decimal [d] over [10^e], for [e] at most its
    exponent; [None] if its coefficient is not a string of digits. *)
Definition Decimal_scaled (e : Z) (d : Decimal) : option Z :=
  match digits_value 0 (_int d) with
  | Some n =>
      Some ((if _sign d then -1 else 1) * Z.of_N n * 10 ^ (_exp d - e))
  | None => None
  end.

(** Numerator of the float [x] over [10^e], for [e] at most the exponent
    of [x]. *)
Definition scaled (e : Z) (x : pyfloat) : Z :=
  match x with
  | FZero => 0
  | FNum neg high last dexp =>
      (if neg then -1 else 1) * mantissa high last * 10 ^ (dexp - e)
  end.

Definition exponent_of (x : pyfloat) : Z :=
  match x with
  | FZero => 0
  | FNum _ _ _ dexp => dexp
  end.

(** The exponent of the decimal expansion of a number, and its numerator
    over [10^e] for [e] at most that exponent. *)
Definition num_exponent (v : number) : Z :=
  match v with
  | NInt _ => 0
  | NFloat x => exponent_of x
  end.

Definition num_scaled (e : Z) (v : number) : Z :=
  match v with
  | NInt z => z * 10 ^ (- e)
  | NFloat x => scaled e x
  end.

(** [d] and [v] denote the same number: their numerators over some common
    power of ten agree.  For a float the number is the one [repr]
    writes. *)
Definition same_value (d : Decimal) (v : number) : Prop :=
  exists e,
    e <= _exp d /\ e <= num_exponent v
    /\ Decimal_scaled e d = Some (num_scaled e v).

(** [x] and [y] are written with the same decimal expansion. *)
Definition same_decimal (x y : number) : Prop :=
  exists e,
    e <= num_exponent x /\ e <= num_exponent y
    /\ num_scaled e x = num_scaled e y.

(** Both are [int] or both are [float]. *)
Definition same_type (x y : number) : bool :=
  match x, y with
  | NInt _, NInt _ | NFloat _, NFloat _ => true
  | _, _ => false
  end.

(** ** Events of the dispatcher *)

(** The event names the dispatcher can emit for a channel. *)
Definition channel_events (channel : str) : list str :=
  if PublicChannelsHandler.str_eqb channel (lit "ticker") then
    [lit "t_ticker_update"; lit "f_ticker_update"]
  else if PublicChannelsHandler.str_eqb channel (lit "trades") then
    [lit "t_trade_execution"; lit "t_trade_execution_update";
     lit "f_trade_execution"; lit "f_trade_execution_update";
     lit "t_trades_snapshot"; lit "f_trades_snapshot"]
  else if PublicChannelsHandler.str_eqb channel (lit "book") then
    [lit "checksum"; lit "t_book_snapshot"; lit "t_book_update";
     lit "f_book_snapshot"; lit "f_book_update";
     lit "t_raw_book_snapshot"; lit "t_raw_book_update";
     lit "f_raw_book_snapshot"; lit "f_raw_book_update"]
  else if PublicChannelsHandler.str_eqb channel (lit "candles") then
    [lit "candles_snapshot"; lit "candles_update"]
  else if PublicChannelsHandler.str_eqb channel (lit "status") then
    [lit "derivatives_status_update"; lit "liquidation_feed_update"]
  else [].

(** The events that carry a timestamp. *)
Definition timestamped_events : list str :=
  [lit "checksum"; lit "t_book_snapshot"; lit "t_book_update"].

(** The event [e] was emitted for [subscription], under a name of
    [allowed], and carries a timestamp exactly when its name is one that
    has one. *)
Definition event_fits {record : Type} (subscription : Subscription)
    (allowed : list str) (e : PublicChannelsHandler.emission record) : Prop :=
  PublicChannelsHandler.em_subscription e = subscription
  /\ In (PublicChannelsHandler.em_name e) allowed
  /\ (PublicChannelsHandler.em_timestamp e <> None
      <-> In (PublicChannelsHandler.em_name e) timestamped_events).

(** A stand-in for the serializers: the record is the list of
    arguments. *)
Definition sample_parse (sr : PublicChannelsHandler.serializer)
    (args : list PublicChannelsHandler.value)
    : PublicChannelsHandler.outcome (list PublicChannelsHandler.value) :=
  PublicChannelsHandler.Done args.

(** A trades subscription of a trading pair. *)
Definition sample_trades_subscription : Subscription :=
  [(lit "channel", lit "trades"); (lit "sub_id", lit "19c2");
   (lit "symbol", lit "tBTCUSD")].

(** A value on which [&] with an integer is defined. *)
Definition is_int (v : PublicChannelsHandler.value) : bool :=
  match v with
  | PublicChannelsHandler.VInt _ | PublicChannelsHandler.VBool _ => true
  | _ => false
  end.

(** The channels [handle] has a branch for. *)
Definition known_channels : list str :=
  [lit "ticker"; lit "trades"; lit "book"; lit "candles"; lit "status"].

(** * Properties *)

(** ** Digit strings *)

Lemma all_digits_app s t :
  all_digits (s ++ t) = all_digits s && all_digits t.
Proof. apply forallb_app. Qed.

Lemma all_digits_uint_chars d : all_digits (uint_chars d) = true.
Proof. induction d; simpl; auto. Qed.

Lemma all_digits_zeros n : all_digits (zeros n) = true.
Proof.
  unfold zeros. induction (Z.to_nat n) as [|k IH]; simpl; auto.
Qed.

Lemma all_digits_firstn n s : all_digits s = true -> all_digits (firstn n s) = true.
Proof.
  revert n; induction s as [|ch s IH]; intros [|n] H; simpl in *; auto.
  apply andb_true_iff in H as [H1 H2]. rewrite H1. simpl. auto.
Qed.

Lemma all_digits_skipn n s : all_digits s = true -> all_digits (skipn n s) = true.
Proof.
  revert n; induction s as [|ch s IH]; intros [|n] H; simpl in *; auto.
  apply andb_true_iff in H as [H1 H2]. auto.
Qed.

Lemma uint_chars_nil d : uint_chars d = [] -> d = Decimal.Nil.
Proof. destruct d; simpl; congruence. Qed.

Lemma pos_chars_nonempty q : uint_chars (Pos.to_uint q) <> [].
Proof.
  intro H. apply uint_chars_nil in H.
  now apply DecimalPos.Unsigned.to_uint_nonnil in H.
Qed.

Lemma str_of_N_digits n : all_digits (str_of_N n) = true.
Proof. apply all_digits_uint_chars. Qed.

Lemma str_of_N_nonempty n : str_of_N n <> [].
Proof.
  unfold str_of_N. destruct n as [|q]; simpl.
  - discriminate.
  - apply pos_chars_nonempty.
Qed.

Lemma span_digits_app ds rest :
  all_digits ds = true -> not_digit_start rest ->
  span_digits (ds ++ rest) = (ds, rest).
Proof.
  intros Hd Hr. induction ds as [|ch ds IH]; simpl in *.
  - destruct rest as [|ch r]; simpl in *; auto. now rewrite Hr.
  - apply andb_true_iff in Hd as [H1 H2]. rewrite H1, (IH H2). reflexivity.
Qed.

Lemma span_digits_all ds : all_digits ds = true -> span_digits ds = (ds, []).
Proof.
  intro H. rewrite <- (app_nil_r ds) at 1. now apply span_digits_app.
Qed.

Lemma digits_value_total ds acc :
  all_digits ds = true -> exists n, digits_value acc ds = Some n.
Proof.
  revert acc; induction ds as [|ch ds IH]; intros acc H; simpl in *.
  - eauto.
  - apply andb_true_iff in H as [H1 H2]. rewrite H1. apply IH, H2.
Qed.

(** The digits of a positive integer do not start with a zero. *)
Lemma to_uint_no_leading_zero q u : Pos.to_uint q <> Decimal.D0 u.
Proof.
  intro H.
  assert (Hn : Decimal.unorm (Pos.to_uint q) = Pos.to_uint q).
  { rewrite <- DecimalPos.Unsigned.to_of.
    rewrite DecimalPos.Unsigned.of_to. reflexivity. }
  rewrite H in Hn. rewrite DecimalFacts.unorm_D0 in Hn.
  destruct u;
    [ now apply (DecimalPos.Unsigned.to_uint_nonzero q) | .. ];
    match type of Hn with
    | Decimal.unorm ?d = _ => assert (Hl := DecimalFacts.nb_digits_unorm d)
    end;
    rewrite Hn in Hl; simpl in Hl; specialize (Hl ltac:(discriminate)); lia.
Qed.

Lemma digit_not_sign ch r :
  is_digit ch = true -> split_sign (ch :: r) = (false, ch :: r).
Proof.
  destruct ch as [[] [] [] [] [] [] [] []]; simpl; try reflexivity; discriminate.
Qed.

Lemma digit_not_minus ch (r : str) :
  is_digit ch = true -> strip_minus (ch :: r) = ch :: r.
Proof.
  destruct ch as [[] [] [] [] [] [] [] []]; simpl; try reflexivity; discriminate.
Qed.

Lemma str_of_int_digits z :
  0 <= z -> all_digits (str_of_int z) = true /\ str_of_int z <> [].
Proof.
  intros Hz. destruct z as [|q|q]; simpl.
  - split; [reflexivity | discriminate].
  - split; [apply all_digits_uint_chars | apply pos_chars_nonempty].
  - lia.
Qed.

Lemma parse_exponent_exp_str e : exists e', parse_exponent (exp_str e) = Ok e'.
Proof.
  unfold exp_str, parse_exponent.
  destruct (str_of_int_digits (Z.abs e) (Z.abs_nonneg e)) as [Hd Hne].
  set (body := if Z.abs e <? 10 then "0"%char :: str_of_int (Z.abs e)
               else str_of_int (Z.abs e)).
  assert (Hb : all_digits body = true /\ body <> []).
  { unfold body. destruct (Z.abs e <? 10); simpl; [|now split].
    split; [exact Hd | discriminate]. }
  destruct Hb as [Hb1 Hb2].
  assert (Hs : exists sg, split_sign ((if e <? 0 then "-"%char else "+"%char) :: body)
                          = (sg, body)).
  { destruct (e <? 0); simpl; eauto. }
  destruct Hs as [sg ->]. cbv beta iota.
  clearbody body. destruct body as [|ch body']; [congruence|].
  destruct (digits_value_total (ch :: body') 0%N Hb1) as [n ->]. eauto.
Qed.

Lemma Decimal_of_str_numeric neg ip frac ex :
  ip <> [] -> all_digits ip = true ->
  match frac with Some fp => all_digits fp = true | None => True end ->
  exists d, Decimal_of_str (numeric neg ip frac ex) = Ok d
            /\ _sign d = neg
            /\ all_digits (_int d) = true /\ _int d <> [].
Proof.
  intros Hne Hip Hfp. unfold numeric, Decimal_of_str.
  set (tail := match ex with Some e => "e"%char :: exp_str e | None => [] end).
  set (rest := match frac with Some fp => "."%char :: fp | None => [] end ++ tail).
  assert (Htail : not_digit_start tail).
  { unfold tail. destruct ex; simpl; auto. }
  assert (Hrest : not_digit_start rest).
  { unfold rest. destruct frac; simpl; auto. }
  assert (Hsign : split_sign ((if neg then lit "-" else []) ++ ip ++ rest)
                  = (neg, ip ++ rest)).
  { destruct neg; simpl; [reflexivity|].
    destruct ip as [|ch ip']; [congruence|]. simpl in Hip.
    apply andb_true_iff in Hip as [Hch _]. now apply digit_not_sign. }
  rewrite Hsign. cbv beta iota.
  rewrite (span_digits_app ip rest Hip Hrest). cbv beta iota.
  set (fp := match frac with Some fp => fp | None => [] end).
  assert (Hfp' : all_digits fp = true) by (unfold fp; destruct frac; auto).
  assert (Hfrac : split_fraction rest = (fp, tail)).
  { unfold rest, fp. destruct frac as [f|]; simpl.
    - now apply span_digits_app.
    - unfold tail. destruct ex; reflexivity. }
  rewrite Hfrac. cbv beta iota.
  assert (Hlen : (length ip + length fp =? 0)%nat = false).
  { apply Nat.eqb_neq. destruct ip; simpl; [congruence | lia]. }
  rewrite Hlen.
  assert (Hex : exists e', parse_exponent_part tail = Ok e').
  { unfold tail. destruct ex as [e|]; simpl; eauto.
    apply parse_exponent_exp_str. }
  destruct Hex as [e' ->]. simpl.
  destruct (digits_value_total (ip ++ fp) 0%N) as [n ->].
  { rewrite all_digits_app, Hip, Hfp'. reflexivity. }
  eexists; repeat split; simpl.
  - apply str_of_N_digits.
  - apply str_of_N_nonempty.
Qed.

Lemma mant_digits_digits high last : all_digits (mant_digits high last) = true.
Proof.
  unfold mant_digits. rewrite all_digits_app.
  apply andb_true_iff; split.
  - destruct high; [reflexivity | apply all_digits_uint_chars].
  - destruct last; reflexivity.
Qed.

Lemma mant_digits_nonempty high last : mant_digits high last <> [].
Proof.
  unfold mant_digits. intro H. apply app_eq_nil in H as [_ H]. discriminate.
Qed.

Lemma len_pos {A : Type} (l : list A) : l <> [] -> 0 < len l.
Proof. destruct l; [congruence | unfold len; simpl; lia]. Qed.

Lemma firstn_nonempty {A : Type} n (l : list A) :
  (0 < n)%nat -> l <> [] -> firstn n l <> [].
Proof. destruct n, l; simpl; try congruence; lia. Qed.

Lemma skipn_nonempty {A : Type} n (l : list A) :
  (n < length l)%nat -> skipn n l <> [].
Proof.
  intros H E. assert (Hl := length_skipn n l). rewrite E in Hl. simpl in Hl. lia.
Qed.

(** The layout of [repr]: exponent form exactly when [decpt <= -4] or
    [decpt > 16], with exponent [decpt - 1]. *)
Lemma float_repr_numeric neg high last dexp :
  let decpt := decpt_of high last dexp in
  exists ip frac,
    float_repr (FNum neg high last dexp)
    = numeric neg ip frac
        (if (decpt <=? -4) || (16 <? decpt) then Some (decpt - 1) else None)
    /\ ip <> [] /\ all_digits ip = true /\ good_frac frac.
Proof.
  intros decpt. unfold float_repr. fold decpt.
  set (digits := mant_digits high last).
  assert (Hd : all_digits digits = true) by apply mant_digits_digits.
  assert (Hn : digits <> []) by apply mant_digits_nonempty.
  assert (Hl := len_pos digits Hn).
  destruct ((decpt <=? -4) || (16 <? decpt)) eqn:Hsci.
  - exists (firstn 1 digits),
      (if 1 <? len digits then Some (skipn 1 digits) else None).
    split; [|split; [|split]].
    + unfold numeric. destruct (1 <? len digits); reflexivity.
    + apply firstn_nonempty; [lia | exact Hn].
    + now apply all_digits_firstn.
    + destruct (1 <? len digits) eqn:H1; cbv [good_frac]; auto.
      split; [now apply all_digits_skipn|].
      apply skipn_nonempty. apply Z.ltb_lt in H1. unfold len in H1. lia.
  - destruct (decpt <=? 0) eqn:H0.
    + exists (lit "0"), (Some (zeros (- decpt) ++ digits)).
      split; [|split; [|split]].
      * unfold numeric. rewrite app_nil_r. reflexivity.
      * discriminate.
      * reflexivity.
      * split.
        -- rewrite all_digits_app, all_digits_zeros, Hd. reflexivity.
        -- intro E. apply app_eq_nil in E as [_ E]. contradiction.
    + destruct (len digits <=? decpt) eqn:H2.
      * exists (digits ++ zeros (decpt - len digits)), (Some (lit "0")).
        split; [|split; [|split]].
        -- unfold numeric. rewrite app_nil_r, <- app_assoc. reflexivity.
        -- intro E. apply app_eq_nil in E as [E _]. contradiction.
        -- rewrite all_digits_app, all_digits_zeros, Hd. reflexivity.
        -- split; [reflexivity | discriminate].
      * exists (firstn (Z.to_nat decpt) digits),
          (Some (skipn (Z.to_nat decpt) digits)).
        apply Z.leb_gt in H0, H2.
        split; [|split; [|split]].
        -- unfold numeric. rewrite app_nil_r. reflexivity.
        -- apply firstn_nonempty; [lia | exact Hn].
        -- now apply all_digits_firstn.
        -- split; [now apply all_digits_skipn|].
           apply skipn_nonempty. unfold len in H2. lia.
Qed.

Lemma is_fixed_point_numeric neg ip frac :
  ip <> [] -> all_digits ip = true -> good_frac frac ->
  is_fixed_point (numeric neg ip frac None) = true.
Proof.
  intros Hne Hip Hfrac. unfold numeric, is_fixed_point.
  rewrite app_nil_r.
  set (rest := match frac with Some fp => "."%char :: fp | None => [] end).
  assert (Hbody : strip_minus ((if neg then lit "-" else []) ++ ip ++ rest)
                  = ip ++ rest).
  { destruct neg; simpl; [reflexivity|].
    destruct ip as [|ch ip']; [congruence|]. simpl in Hip.
    apply andb_true_iff in Hip as [Hch _]. now apply digit_not_minus. }
  rewrite Hbody.
  assert (Hrest : not_digit_start rest).
  { unfold rest. destruct frac; simpl; auto. }
  rewrite (span_digits_app ip rest Hip Hrest).
  destruct ip as [|ch ip']; [congruence|].
  unfold rest. destruct frac as [fp|]; simpl in *; auto.
  destruct Hfrac as [Hfp Hfn]. destruct fp; [congruence | exact Hfp].
Qed.

(** [format(d, "f")] is a fixed-point numeral whatever the exponent. *)
Lemma Decimal_format_f_fixed d :
  all_digits (_int d) = true -> _int d <> [] ->
  is_fixed_point (Decimal_format_f d) = true.
Proof.
  intros Hd Hn. unfold Decimal_format_f.
  set (dotplace := _exp d + len (_int d)).
  assert (Hl := len_pos (_int d) Hn).
  assert (Hshape : forall ip fp, ip <> [] -> all_digits ip = true ->
            all_digits fp = true ->
            is_fixed_point ((if _sign d then lit "-" else []) ++ ip
                            ++ match fp with [] => [] | _ => "."%char :: fp end)
            = true).
  { intros ip fp H1 H2 H3.
    replace ((if _sign d then lit "-" else []) ++ ip
             ++ match fp with [] => [] | _ => "."%char :: fp end)
      with (numeric (_sign d) ip
              (match fp with [] => None | _ => Some fp end) None).
    - apply is_fixed_point_numeric; auto.
      destruct fp; simpl; auto. split; [exact H3 | discriminate].
    - unfold numeric. rewrite app_nil_r. destruct fp; reflexivity. }
  destruct (dotplace <? 0) eqn:H0.
  - apply Hshape; [discriminate | reflexivity |].
    rewrite all_digits_app, all_digits_zeros, Hd. reflexivity.
  - destruct (len (_int d) <? dotplace) eqn:H1.
    + apply (Hshape (_int d ++ zeros (dotplace - len (_int d))) []);
        [| | reflexivity].
      * intro E. apply app_eq_nil in E as [E _]. contradiction.
      * rewrite all_digits_app, all_digits_zeros, Hd. reflexivity.
    + apply Hshape.
      * destruct (firstn (Z.to_nat dotplace) (_int d)); discriminate.
      * assert (Hf := all_digits_firstn (Z.to_nat dotplace) (_int d) Hd).
        destruct (firstn (Z.to_nat dotplace) (_int d)); [reflexivity | exact Hf].
      * now apply all_digits_skipn.
Qed.

(** ** The exponent of a float *)

Lemma uint_chars_length d : length (uint_chars d) = Decimal.nb_digits d.
Proof. induction d; simpl; auto. Qed.

Lemma of_uint_acc_bounds d acc :
  Z.pos acc * 10 ^ Z.of_nat (Decimal.nb_digits d)
  <= Z.pos (Pos.of_uint_acc d acc)
  < (Z.pos acc + 1) * 10 ^ Z.of_nat (Decimal.nb_digits d).
Proof.
  revert acc. induction d; intro acc; cbn [Pos.of_uint_acc Decimal.nb_digits];
    [rewrite Z.pow_0_r; lia | ..];
    rewrite Nat2Z.inj_succ, Z.pow_succ_r by lia;
    match goal with
    | |- context [Pos.of_uint_acc d ?a] => specialize (IHd a)
    end;
    assert (0 < 10 ^ Z.of_nat (Decimal.nb_digits d))
      by (apply Z.pow_pos_nonneg; lia);
    nia.
Qed.

(** A positive integer written with [n] digits lies between [10^(n-1)] and
    [10^n]. *)
Lemma pos_digits_bounds q :
  10 ^ (len (uint_chars (Pos.to_uint q)) - 1) <= Z.pos q
  < 10 ^ len (uint_chars (Pos.to_uint q)).
Proof.
  unfold len. rewrite uint_chars_length.
  assert (Hof := DecimalPos.Unsigned.of_to q).
  destruct (Pos.to_uint q) as [|u|u|u|u|u|u|u|u|u|u] eqn:E;
    [ now apply DecimalPos.Unsigned.to_uint_nonnil in E
    | now apply to_uint_no_leading_zero in E
    | .. ];
    cbn [Pos.of_uint Decimal.nb_digits] in *; injection Hof as Hof;
    rewrite <- Hof; rewrite Nat2Z.inj_succ;
    replace (Z.succ (Z.of_nat (Decimal.nb_digits u)) - 1)
      with (Z.of_nat (Decimal.nb_digits u)) by lia;
    rewrite Z.pow_succ_r by lia;
    match goal with
    | |- context [Pos.of_uint_acc u ?a] => pose proof (of_uint_acc_bounds u a)
    end;
    assert (0 < 10 ^ Z.of_nat (Decimal.nb_digits u))
      by (apply Z.pow_pos_nonneg; lia);
    nia.
Qed.

Lemma mantissa_bounds high last :
  10 ^ (len (mant_digits high last) - 1) <= mantissa high last
  < 10 ^ len (mant_digits high last).
Proof.
  unfold mant_digits, mantissa.
  assert (Hd : 1 <= digit19_val last <= 9) by (destruct last; simpl; lia).
  destruct high as [|q].
  - cbn. lia.
  - pose proof (pos_digits_bounds q) as Hq.
    assert (Hl : len (uint_chars (Pos.to_uint q) ++ [digit19_char last])
                 = len (uint_chars (Pos.to_uint q)) + 1).
    { unfold len. rewrite length_app. simpl. lia. }
    rewrite Hl.
    assert (Hpos : 0 < len (uint_chars (Pos.to_uint q))).
    { apply len_pos, pos_chars_nonempty. }
    replace (len (uint_chars (Pos.to_uint q)) + 1 - 1)
      with (Z.succ (len (uint_chars (Pos.to_uint q)) - 1)) by lia.
    replace (len (uint_chars (Pos.to_uint q)) + 1)
      with (Z.succ (len (uint_chars (Pos.to_uint q)))) by lia.
    rewrite !Z.pow_succ_r by lia.
    change (Z.of_N (N.pos q)) with (Z.pos q). lia.
Qed.

(** [decimal_exponent] is the floor of the logarithm of the expansion:
    for [x = m * 10^dexp] it is the [e] with [10^e <= x < 10^(e+1)], here
    divided through by [10^dexp]. *)
Lemma decimal_exponent_bounds neg high last dexp :
  let e := decimal_exponent (NFloat (FNum neg high last dexp)) in
  10 ^ (e - dexp) <= mantissa high last < 10 ^ (e - dexp + 1).
Proof.
  cbn [decimal_exponent]. unfold decpt_of.
  replace (len (mant_digits high last) + dexp - 1 - dexp)
    with (len (mant_digits high last) - 1) by lia.
  replace (len (mant_digits high last) - 1 + 1)
    with (len (mant_digits high last)) by lia.
  apply mantissa_bounds.
Qed.

(** ** The replacement of ["e-0"] in [str(value)] *)

Lemma digit_not_e ch : is_digit ch = true -> negb (Ascii.eqb "e" ch) = true.
Proof.
  destruct ch as [[] [] [] [] [] [] [] []]; simpl; try reflexivity; discriminate.
Qed.

Lemma all_digits_no_e s : all_digits s = true -> no_e s = true.
Proof.
  unfold all_digits, no_e. rewrite !forallb_forall.
  intros H ch Hin. apply digit_not_e, H, Hin.
Qed.

Lemma no_e_app s t : no_e (s ++ t) = no_e s && no_e t.
Proof. apply forallb_app. Qed.

Lemma no_e_numeric neg ip frac :
  all_digits ip = true -> good_frac frac ->
  no_e (numeric neg ip frac None) = true.
Proof.
  intros Hip Hfrac. unfold numeric. rewrite !no_e_app.
  rewrite (all_digits_no_e ip Hip).
  destruct frac as [fp|].
  - destruct Hfrac as [Hfp _]. apply all_digits_no_e in Hfp.
    unfold no_e in *. cbn [forallb]. rewrite Hfp. destruct neg; reflexivity.
  - destruct neg; reflexivity.
Qed.

Lemma strip_prefix_not_e ch s :
  negb (Ascii.eqb "e" ch) = true -> strip_prefix (lit "e-0") (ch :: s) = None.
Proof.
  intro H. apply negb_true_iff in H.
  change (lit "e-0") with ("e"%char :: lit "-0").
  cbn [strip_prefix]. rewrite H. reflexivity.
Qed.

Lemma replace_no_e fuel new s :
  no_e s = true -> replace_from fuel (lit "e-0") new s = s.
Proof.
  revert s; induction fuel as [|fuel IH]; intros s H; [reflexivity|].
  destruct s as [|ch s]; [reflexivity|].
  simpl in H. apply andb_true_iff in H as [H1 H2].
  cbn [replace_from]. rewrite (strip_prefix_not_e ch s H1).
  now rewrite IH.
Qed.

Lemma replace_skip pre rest fuel new :
  no_e pre = true ->
  replace_from (length pre + fuel) (lit "e-0") new (pre ++ rest)
  = pre ++ replace_from fuel (lit "e-0") new rest.
Proof.
  induction pre as [|ch pre IH]; intro H; [reflexivity|].
  simpl in H. apply andb_true_iff in H as [H1 H2].
  cbn [length Nat.add app replace_from].
  rewrite (strip_prefix_not_e ch _ H1). now rewrite IH.
Qed.

Lemma pos_chars_head q :
  exists ch r, uint_chars (Pos.to_uint q) = ch :: r
               /\ Ascii.eqb "0" ch = false /\ is_digit ch = true.
Proof.
  destruct (Pos.to_uint q) as [|u|u|u|u|u|u|u|u|u|u] eqn:E.
  - now apply DecimalPos.Unsigned.to_uint_nonnil in E.
  - now apply to_uint_no_leading_zero in E.
  - simpl; eauto.
  - simpl; eauto.
  - simpl; eauto.
  - simpl; eauto.
  - simpl; eauto.
  - simpl; eauto.
  - simpl; eauto.
  - simpl; eauto.
  - simpl; eauto.
Qed.

Lemma replace_from_S fuel old new s :
  replace_from (S fuel) old new s
  = match strip_prefix old s with
    | Some rest => new ++ replace_from fuel old new rest
    | None =>
        match s with
        | [] => []
        | ch :: s' => ch :: replace_from fuel old new s'
        end
    end.
Proof. reflexivity. Qed.

Lemma strip_e_minus_zero s :
  strip_prefix (lit "e-0") ("e"%char :: "-"%char :: "0"%char :: s) = Some s.
Proof. reflexivity. Qed.

Lemma strip_e_minus_other ch s :
  Ascii.eqb "0" ch = false ->
  strip_prefix (lit "e-0") ("e"%char :: "-"%char :: ch :: s) = None.
Proof.
  intro H. change (lit "e-0") with ["e"%char; "-"%char; "0"%char].
  cbn [strip_prefix]. rewrite !Ascii.eqb_refl, H. reflexivity.
Qed.

(** The exponent of a float below [1e-6], after the replacement, is the
    plain decimal writing of its absolute value. *)
Lemma replace_exponent neg ip frac e :
  e < 0 -> all_digits ip = true -> good_frac frac ->
  str_replace (numeric neg ip frac (Some e)) (lit "e-0") (lit "e-")
  = numeric neg ip frac None ++ lit "e-" ++ str_of_int (- e).
Proof.
  intros He Hip Hfrac.
  set (pre := numeric neg ip frac None).
  assert (Hpre : no_e pre = true) by now apply no_e_numeric.
  assert (Hsplit : numeric neg ip frac (Some e) = pre ++ "e"%char :: exp_str e).
  { unfold pre, numeric. rewrite app_nil_r, <- !app_assoc. reflexivity. }
  rewrite Hsplit. unfold str_replace.
  rewrite length_app. rewrite (replace_skip pre _ _ _ Hpre). f_equal.
  unfold exp_str.
  assert (Hneg : (e <? 0) = true) by now apply Z.ltb_lt.
  rewrite Hneg. replace (Z.abs e) with (- e) by lia.
  destruct (str_of_int_digits (- e) ltac:(lia)) as [Hd _].
  destruct (- e) as [|q|q] eqn:Eq; try lia.
  set (ds := str_of_int (Z.pos q)) in *.
  destruct (Z.pos q <? 10) eqn:H10.
  - change (length ("e"%char :: "-"%char :: "0"%char :: ds))
      with (S (S (S (length ds)))).
    rewrite replace_from_S, strip_e_minus_zero.
    rewrite replace_no_e by now apply all_digits_no_e. reflexivity.
  - destruct (pos_chars_head q) as (ch & r & Ech & H0 & Hch).
    change (uint_chars (Pos.to_uint q)) with ds in Ech.
    clearbody ds. subst ds.
    change (length ("e"%char :: "-"%char :: ch :: r))
      with (S (S (S (length r)))).
    rewrite replace_from_S, strip_e_minus_other by exact H0.
    rewrite replace_no_e; [reflexivity|].
    apply all_digits_no_e in Hd. unfold no_e in *.
    change (forallb (fun c => negb (Ascii.eqb "e" c)) ("-"%char :: ch :: r))
      with (negb (Ascii.eqb "e" "-")
            && forallb (fun c => negb (Ascii.eqb "e" c)) (ch :: r)).
    rewrite Hd. reflexivity.
Qed.


(** ** The notation produced by [_format_float] *)

Lemma is_positive_abs v : is_positive (num_abs v) = negb (num_is_zero v).
Proof. destruct v as [[|q|q]|[|neg high last dexp]]; reflexivity. Qed.

(** [_find_exp] raises the [ValueError] of [log10] at zero and returns the
    floor of the library's logarithm otherwise. *)
Lemma find_exp_eq v :
  _find_exp v
  = if num_is_zero v then Raise ValueError
    else Ok (float_floor (log10 (num_abs v))).
Proof.
  unfold _find_exp, math_log10. rewrite is_positive_abs.
  destruct (num_is_zero v); reflexivity.
Qed.

Lemma str_of_int_numeric z :
  str_of_int z = numeric (z <? 0) (str_of_int (Z.abs z)) None None.
Proof.
  destruct z; unfold numeric; simpl; rewrite ?app_nil_r; reflexivity.
Qed.

(** The layout of [repr] of a number. *)
Lemma num_repr_numeric v :
  exists neg ip frac ex,
    num_repr v = numeric neg ip frac ex
    /\ ip <> [] /\ all_digits ip = true /\ good_frac frac.
Proof.
  destruct v as [z|[|neg high last dexp]]; cbn [num_repr].
  - exists (z <? 0), (str_of_int (Z.abs z)), None, None.
    destruct (str_of_int_digits (Z.abs z) (Z.abs_nonneg z)) as [Hd Hne].
    split; [apply str_of_int_numeric|]. split; [exact Hne|].
    split; [exact Hd | exact Logic.I].
  - exists false, (lit "0"), (Some (lit "0")), None.
    split; [reflexivity|]. split; [discriminate|]. split; [reflexivity|].
    split; [reflexivity | discriminate].
  - destruct (float_repr_numeric neg high last dexp) as (ip & frac & E & H).
    exists neg, ip, frac. eexists. split; [exact E | exact H].
Qed.

Lemma format_float_fixed_branch v e :
  _find_exp v = Ok e -> -6 <= e ->
  exists s, _format_float v = Ok s /\ is_fixed_point s = true.
Proof.
  intros He H6. unfold _format_float. rewrite He. cbn [bind].
  apply Z.leb_le in H6. rewrite H6.
  destruct (num_repr_numeric v) as (neg & ip & frac & ex & -> & Hn & Hd & Hf).
  destruct (Decimal_of_str_numeric neg ip frac ex Hn Hd)
    as (d & -> & _ & Hd1 & Hd2).
  { destruct frac; simpl in *; tauto. }
  cbn [bind]. eexists; split; [reflexivity|].
  now apply Decimal_format_f_fixed.
Qed.

Lemma format_float_other_branch v e :
  _find_exp v = Ok e -> e < -6 ->
  _format_float v = Ok (str_replace (num_repr v) (lit "e-0") (lit "e-")).
Proof.
  intros He H6. unfold _format_float. rewrite He. cbn [bind].
  assert (H : (-6 <=? e) = false) by (apply Z.leb_gt; lia).
  now rewrite H.
Qed.

(** The replacement leaves an [int] as it is. *)
Lemma replace_repr_int z :
  str_replace (str_of_int z) (lit "e-0") (lit "e-") = str_of_int z
  /\ is_fixed_point (str_of_int z) = true.
Proof.
  destruct (str_of_int_digits (Z.abs z) (Z.abs_nonneg z)) as [Hd Hne].
  rewrite str_of_int_numeric. split.
  - apply replace_no_e, no_e_numeric; [exact Hd | exact Logic.I].
  - apply is_fixed_point_numeric; [exact Hne | exact Hd | exact Logic.I].
Qed.


Lemma replace_exponent_plus neg ip frac e :
  0 <= e -> all_digits ip = true -> good_frac frac ->
  str_replace (numeric neg ip frac (Some e)) (lit "e-0") (lit "e-")
  = numeric neg ip frac (Some e).
Proof.
  intros He Hip Hfrac.
  set (pre := numeric neg ip frac None).
  assert (Hpre : no_e pre = true) by now apply no_e_numeric.
  assert (Hsplit : numeric neg ip frac (Some e) = pre ++ "e"%char :: exp_str e).
  { unfold pre, numeric. rewrite app_nil_r, <- !app_assoc. reflexivity. }
  rewrite Hsplit. unfold str_replace.
  rewrite length_app. rewrite (replace_skip pre _ _ _ Hpre). f_equal.
  unfold exp_str.
  assert (Hneg : (e <? 0) = false) by now apply Z.ltb_ge.
  rewrite Hneg.
  destruct (str_of_int_digits (Z.abs e) (Z.abs_nonneg e)) as [Hd _].
  set (body := if Z.abs e <? 10 then "0"%char :: str_of_int (Z.abs e)
               else str_of_int (Z.abs e)).
  assert (Hb : no_e ("+"%char :: body) = true).
  { apply all_digits_no_e in Hd. unfold body, no_e in *.
    destruct (Z.abs e <? 10); cbn [forallb]; rewrite Hd; reflexivity. }
  clearbody body.
  change (length ("e"%char :: "+"%char :: body)) with (S (length ("+"%char :: body))).
  rewrite replace_from_S.
  change (strip_prefix (lit "e-0") ("e"%char :: "+"%char :: body)) with (@None str).
  now rewrite replace_no_e.
Qed.

(** Any other float: the replacement finds nothing to replace. *)
Lemma replace_repr_large neg high last dexp :
  -5 < decpt_of high last dexp - 1 ->
  str_replace (float_repr (FNum neg high last dexp)) (lit "e-0") (lit "e-")
  = float_repr (FNum neg high last dexp).
Proof.
  intro He.
  destruct (float_repr_numeric neg high last dexp) as (ip & frac & -> & Hn & Hd & Hf).
  destruct ((decpt_of high last dexp <=? -4) || (16 <? decpt_of high last dexp))
    eqn:Hsci.
  - apply replace_exponent_plus; [|exact Hd | exact Hf].
    apply orb_true_iff in Hsci as [H|H]; [apply Z.leb_le in H | apply Z.ltb_lt in H];
      lia.
  - apply replace_no_e. now apply no_e_numeric.
Qed.


(** [_format_float] returns a string for every number but zero, where it
    raises the [ValueError] of [log10]; it raises nothing else. *)
Lemma format_float_total value :
  num_is_zero value = false -> exists s, _format_float value = Ok s.
Proof.
  intro Hz. pose proof (find_exp_eq value) as He. rewrite Hz in He.
  destruct (Z_lt_le_dec (float_floor (log10 (num_abs value))) (-6)) as [Hlt|Hle].
  - rewrite (format_float_other_branch _ _ He Hlt). eauto.
  - destruct (format_float_fixed_branch _ _ He Hle) as (s & Hs & _). eauto.
Qed.

Lemma format_float_raises value e :
  _format_float value = Raise e -> num_is_zero value = true /\ e = ValueError.
Proof.
  intro H. destruct (num_is_zero value) eqn:Hz.
  - split; [reflexivity|]. unfold _format_float in H.
    rewrite find_exp_eq, Hz in H. cbn [bind] in H. congruence.
  - destruct (format_float_total value Hz) as (s & Hs). congruence.
Qed.

Lemma format_float_zero value :
  num_is_zero value = true -> _format_float value = Raise ValueError.
Proof.
  intro Hz. unfold _format_float. rewrite find_exp_eq, Hz. reflexivity.
Qed.

(** ** Dictionaries *)

Section DictFacts.
Context {K V : Type}.
Variable K_eq_dec : forall x y : K, {x = y} + {x <> y}.
Implicit Types (d : dict K V) (k : K) (v : V).

Lemma dict_get_set_same k v d :
  dict_get K_eq_dec k (dict_set K_eq_dec k v d) = Some v.
Proof.
  induction d as [|[k' v'] d IH]; simpl.
  - destruct (K_eq_dec k k); congruence.
  - destruct (K_eq_dec k k') as [E|E]; simpl.
    + destruct (K_eq_dec k k'); congruence.
    + destruct (K_eq_dec k k'); congruence.
Qed.

Lemma dict_get_set_other k k' v d :
  k' <> k ->
  dict_get K_eq_dec k' (dict_set K_eq_dec k v d) = dict_get K_eq_dec k' d.
Proof.
  intro Hne. induction d as [|[k1 v1] d IH]; simpl.
  - destruct (K_eq_dec k' k); congruence.
  - destruct (K_eq_dec k k1) as [E|E]; simpl.
    + subst k1. destruct (K_eq_dec k' k); congruence.
    + destruct (K_eq_dec k' k1); congruence.
Qed.

Lemma keys_set k v d k' :
  In k' (keys (dict_set K_eq_dec k v d)) <-> k' = k \/ In k' (keys d).
Proof.
  induction d as [|[k1 v1] d IH]; simpl.
  - intuition.
  - destruct (K_eq_dec k k1) as [E|E]; simpl.
    + subst k1. intuition.
    + rewrite IH. intuition.
Qed.

Lemma NoDup_keys_set k v d :
  NoDup (keys d) -> NoDup (keys (dict_set K_eq_dec k v d)).
Proof.
  induction d as [|[k1 v1] d IH]; simpl; intro H.
  - constructor; [intros [] | constructor].
  - inversion H as [|? ? Hnin Hnd]; subst.
    destruct (K_eq_dec k k1) as [E|E]; simpl.
    + subst k1. now constructor.
    + constructor; [|auto].
      rewrite keys_set. intros [E'|Hin]; [congruence | contradiction].
Qed.

Lemma dict_get_None k d : dict_get K_eq_dec k d = None <-> ~ In k (keys d).
Proof.
  induction d as [|[k1 v1] d IH]; simpl.
  - intuition.
  - destruct (K_eq_dec k k1) as [E|E].
    + subst. split; [discriminate | intro H; exfalso; apply H; now left].
    + rewrite IH. intuition congruence.
Qed.

Lemma dict_mem_In k d : dict_mem K_eq_dec k d = true <-> In k (keys d).
Proof.
  unfold dict_mem. destruct (dict_get K_eq_dec k d) eqn:E.
  - split; [|reflexivity]. intros _.
    destruct (in_dec K_eq_dec k (keys d)) as [H|H]; [exact H|].
    apply dict_get_None in H. congruence.
  - split; [discriminate|]. intro H. apply dict_get_None in E. contradiction.
Qed.

Lemma keys_remove_incl k d k' :
  In k' (keys (dict_remove K_eq_dec k d)) -> In k' (keys d).
Proof.
  induction d as [|[k1 v1] d IH]; simpl; [auto|].
  destruct (K_eq_dec k k1); simpl; intuition.
Qed.

Lemma NoDup_keys_remove k d :
  NoDup (keys d) -> NoDup (keys (dict_remove K_eq_dec k d)).
Proof.
  induction d as [|[k1 v1] d IH]; simpl; intro H; [constructor|].
  inversion H as [|? ? Hnin Hnd]; subst.
  destruct (K_eq_dec k k1); simpl; [assumption|].
  constructor; [|auto]. intro Hin. apply Hnin. eapply keys_remove_incl, Hin.
Qed.

Lemma keys_remove_absent k d :
  NoDup (keys d) -> ~ In k (keys (dict_remove K_eq_dec k d)).
Proof.
  induction d as [|[k1 v1] d IH]; simpl; intro H; [auto|].
  inversion H as [|? ? Hnin Hnd]; subst.
  destruct (K_eq_dec k k1) as [E|E]; simpl.
  - subst. assumption.
  - intros [E'|Hin]; [congruence | now apply IH].
Qed.

Lemma dict_get_remove_other k k' d :
  k' <> k ->
  dict_get K_eq_dec k' (dict_remove K_eq_dec k d) = dict_get K_eq_dec k' d.
Proof.
  intro Hne. induction d as [|[k1 v1] d IH]; simpl; [reflexivity|].
  destruct (K_eq_dec k k1) as [E|E]; simpl.
  - subst k1. destruct (K_eq_dec k' k); congruence.
  - destruct (K_eq_dec k' k1); congruence.
Qed.

Lemma count_occ_keys k d :
  NoDup (keys d) -> In k (keys d) -> count_occ K_eq_dec (keys d) k = 1%nat.
Proof.
  intros Hnd Hin. now apply (proj1 (NoDup_count_occ' K_eq_dec (keys d)) Hnd).
Qed.
End DictFacts.

(** ** Dictionaries keyed by numbers

    A side of the book, looked up by [==] on numbers, behaves as the
    dictionary [by_units] of the exact values of its keys. *)

Lemma keys_by_units s : keys (by_units s) = key_units s.
Proof.
  unfold by_units, key_units, keys. rewrite !map_map. reflexivity.
Qed.

Lemma num_eq_dec_units {A : Type} k k' (x y : A) :
  (if num_eq_dec k k' then x else y)
  = (if Z.eq_dec (num_units k) (num_units k') then x else y).
Proof. reflexivity. Qed.

Lemma side_get_units k s :
  dict_get num_eq_dec k s = dict_get Z.eq_dec (num_units k) (by_units s).
Proof.
  induction s as [|[k' v'] s IH]; [reflexivity|].
  cbn [dict_get by_units map fst snd]. rewrite num_eq_dec_units.
  destruct (Z.eq_dec (num_units k) (num_units k')); [reflexivity | exact IH].
Qed.

Lemma side_mem_units k s :
  dict_mem num_eq_dec k s = dict_mem Z.eq_dec (num_units k) (by_units s).
Proof. unfold dict_mem. now rewrite side_get_units. Qed.

Lemma side_set_units k v s :
  by_units (dict_set num_eq_dec k v s)
  = dict_set Z.eq_dec (num_units k) v (by_units s).
Proof.
  induction s as [|[k' v'] s IH]; [reflexivity|].
  cbn [dict_set by_units map fst snd]. rewrite num_eq_dec_units.
  destruct (Z.eq_dec (num_units k) (num_units k')) as [E|E].
  - reflexivity.
  - cbn [map fst snd]. f_equal. exact IH.
Qed.

Lemma side_remove_units k s :
  by_units (dict_remove num_eq_dec k s)
  = dict_remove Z.eq_dec (num_units k) (by_units s).
Proof.
  induction s as [|[k' v'] s IH]; [reflexivity|].
  cbn [dict_remove by_units map fst snd]. rewrite num_eq_dec_units.
  destruct (Z.eq_dec (num_units k) (num_units k')) as [E|E].
  - reflexivity.
  - cbn [map fst snd]. f_equal. exact IH.
Qed.

Lemma side_get_set_same (k : number) (v : level) (s : side) :
  dict_get num_eq_dec k (dict_set num_eq_dec k v s) = Some v.
Proof. rewrite side_get_units, side_set_units. apply dict_get_set_same. Qed.

Lemma side_get_set_other (k : number) (k' : number) (v : level) (s : side) :
  ~ num_eq k' k ->
  dict_get num_eq_dec k' (dict_set num_eq_dec k v s) = dict_get num_eq_dec k' s.
Proof.
  intro H. rewrite !side_get_units, side_set_units.
  now apply dict_get_set_other.
Qed.

Lemma side_get_remove_other (k : number) (k' : number) (s : side) :
  ~ num_eq k' k ->
  dict_get num_eq_dec k' (dict_remove num_eq_dec k s) = dict_get num_eq_dec k' s.
Proof.
  intro H. rewrite !side_get_units, side_remove_units.
  now apply dict_get_remove_other.
Qed.

Lemma key_units_set (k : number) (v : level) (s : side) (u : Z) :
  In u (key_units (dict_set num_eq_dec k v s))
  <-> u = num_units k \/ In u (key_units s).
Proof. rewrite <- !keys_by_units, side_set_units. apply keys_set. Qed.

Lemma NoDup_key_units_set (k : number) (v : level) (s : side) :
  NoDup (key_units s) -> NoDup (key_units (dict_set num_eq_dec k v s)).
Proof. rewrite <- !keys_by_units, side_set_units. apply NoDup_keys_set. Qed.

Lemma NoDup_key_units_remove (k : number) (s : side) :
  NoDup (key_units s) -> NoDup (key_units (dict_remove num_eq_dec k s)).
Proof. rewrite <- !keys_by_units, side_remove_units. apply NoDup_keys_remove. Qed.

Lemma key_units_remove_absent (k : number) (s : side) :
  NoDup (key_units s) ->
  ~ In (num_units k) (key_units (dict_remove num_eq_dec k s)).
Proof. rewrite <- !keys_by_units, side_remove_units. apply keys_remove_absent. Qed.

Lemma key_units_remove_incl (k : number) (s : side) (u : Z) :
  In u (key_units (dict_remove num_eq_dec k s)) -> In u (key_units s).
Proof. rewrite <- !keys_by_units, side_remove_units. apply keys_remove_incl. Qed.

Lemma side_mem_In (k : number) (s : side) :
  dict_mem num_eq_dec k s = true <-> In (num_units k) (key_units s).
Proof. rewrite side_mem_units, <- keys_by_units. apply dict_mem_In. Qed.

Lemma side_get_None (k : number) (s : side) :
  dict_get num_eq_dec k s = None <-> ~ In (num_units k) (key_units s).
Proof. rewrite side_get_units, <- keys_by_units. apply dict_get_None. Qed.

(** With no two equal keys, a key that is present is present once. *)
Lemma count_price_one (k : number) (s : side) :
  NoDup (key_units s) -> In (num_units k) (key_units s) ->
  count_price k s = 1%nat.
Proof.
  unfold count_price, key_units, keys, num_eqb.
  induction s as [|[k' v'] s IH]; cbn [map fst filter]; intros Hnd Hin;
    [contradiction|].
  inversion Hnd as [|? ? Hnin Hnd']; subst.
  destruct (Z.eqb_spec (num_units k') (num_units k)) as [E|E].
  - cbn [length]. f_equal.
    rewrite E in Hnin. clear -Hnin.
    induction s as [|[k1 v1] s IH]; [reflexivity|].
    cbn [map fst filter] in *.
    destruct (Z.eqb_spec (num_units k1) (num_units k)) as [E|E].
    + exfalso. apply Hnin. now left.
    + apply IH. intro H. apply Hnin. now right.
  - apply IH; [exact Hnd'|]. destruct Hin as [Hin|Hin]; [congruence | exact Hin].
Qed.


(** ** [OrderBook.update] *)

Lemma get_set_side k s b : get_side k (set_side k s b) = s.
Proof. destruct k; reflexivity. Qed.

Lemma get_set_other_side k s b :
  get_side (other_kind k) (set_side k s b) = get_side (other_kind k) b.
Proof. destruct k; reflexivity. Qed.

Lemma set_get_side k b : set_side k (get_side k b) b = b.
Proof. destruct k, b; reflexivity. Qed.

Lemma unique_prices_set_side k s b :
  unique_prices b -> NoDup (key_units s) -> unique_prices (set_side k s b).
Proof. intros [H1 H2] Hs. destruct k; split; simpl; assumption. Qed.

Lemma unique_prices_get_side k b :
  unique_prices b -> NoDup (key_units (get_side k b)).
Proof. intros [H1 H2]. destruct k; assumption. Qed.

(** What one call of [update] returns. *)
Lemma update_eq b data :
  update b data
  = Ok (let k := kind_of (amount data) in
        if count data >? 0 then
          set_side k
            (dict_set num_eq_dec (price data)
               {| level_p := price data; level_c := count data;
                  level_a := amount data |} (get_side k b)) b
        else if count data =? 0 then
          if dict_mem num_eq_dec (price data) (get_side k b)
          then set_side k (dict_remove num_eq_dec (price data) (get_side k b)) b
          else b
        else b).
Proof.
  unfold update. cbv zeta.
  destruct (count data >? 0) eqn:Hpos.
  - assert (H0 : (count data =? 0) = false).
    { apply Z.eqb_neq. apply Z.gtb_lt in Hpos. lia. }
    rewrite H0. reflexivity.
  - destruct (count data =? 0); [|reflexivity].
    unfold dict_del.
    destruct (dict_mem num_eq_dec (price data)
                (get_side (kind_of (amount data)) b)); reflexivity.
Qed.

Lemma update_unique_prices b data b' :
  unique_prices b -> update b data = Ok b' -> unique_prices b'.
Proof.
  intros Hb. rewrite update_eq. intro H. injection H as <-. cbv zeta.
  destruct (count data >? 0).
  - apply unique_prices_set_side; [assumption|].
    apply NoDup_key_units_set, unique_prices_get_side, Hb.
  - destruct (count data =? 0); [|assumption].
    destruct (dict_mem _ _ _); [|assumption].
    apply unique_prices_set_side; [assumption|].
    apply NoDup_key_units_remove, unique_prices_get_side, Hb.
Qed.

Lemma apply_all_unique_prices history b :
  unique_prices b ->
  exists b', apply_all b history = Ok b' /\ unique_prices b'.
Proof.
  revert b. induction history as [|data r IH]; intros b Hb; simpl.
  - eauto.
  - rewrite update_eq. cbn [bind].
    apply IH. eapply update_unique_prices; [exact Hb | apply update_eq].
Qed.

(** C3. After any sequence of [update] calls the book has no duplicate
    price on either side (no two keys are equal numbers), and one more call
    never raises: with count 0 it removes the price from the selected side
    (leaving the book as it is when the price is absent); with a positive
    count it leaves exactly one entry for the price, holding the new count
    and amount.  Other prices are untouched.  A price is present when a
    key equals it, as [43000] equals [43000.0]. *)
Theorem update_upsert_remove (history : list TradingPairBook)
    (data : TradingPairBook) :
  exists b b',
    apply_all empty_book history = Ok b /\ update b data = Ok b'
    /\ unique_prices b'
    /\ (count data = 0 ->
        ~ In (num_units (price data))
            (key_units (get_side (kind_of (amount data)) b'))
        /\ (~ In (num_units (price data))
              (key_units (get_side (kind_of (amount data)) b)) ->
            b' = b))
    /\ (0 < count data ->
        dict_get num_eq_dec (price data) (get_side (kind_of (amount data)) b')
        = Some {| level_p := price data; level_c := count data;
                  level_a := amount data |}
        /\ count_price (price data) (get_side (kind_of (amount data)) b')
           = 1%nat)
    /\ (forall q, ~ num_eq q (price data) ->
        dict_get num_eq_dec q (get_side (kind_of (amount data)) b')
        = dict_get num_eq_dec q (get_side (kind_of (amount data)) b)).
Proof.
  destruct (apply_all_unique_prices history empty_book) as (b & Hb & Hu).
  { split; constructor. }
  exists b. eexists. split; [exact Hb|]. split; [apply update_eq|].
  assert (Hu' := update_unique_prices b data _ Hu (update_eq b data)).
  split; [exact Hu'|]. clear Hu'. cbv zeta.
  set (k := kind_of (amount data)).
  assert (Hk := unique_prices_get_side k b Hu).
  split; [|split].
  - intro H0. rewrite H0. simpl.
    destruct (dict_mem num_eq_dec (price data) (get_side k b)) eqn:Hmem.
    + rewrite get_set_side. split.
      * now apply key_units_remove_absent.
      * intro Habs. apply side_mem_In in Hmem. contradiction.
    + split; [|reflexivity].
      intro Hin. rewrite <- side_mem_In in Hin. congruence.
  - intro Hpos. assert (Hgt : (count data >? 0) = true) by (apply Z.gtb_lt; lia).
    rewrite Hgt, get_set_side. split.
    + apply side_get_set_same.
    + apply count_price_one.
      * now apply NoDup_key_units_set.
      * apply key_units_set. now left.
  - intros q Hq. destruct (count data >? 0).
    + rewrite get_set_side. now apply side_get_set_other.
    + destruct (count data =? 0); [|reflexivity].
      destruct (dict_mem num_eq_dec (price data) (get_side k b));
        [|reflexivity].
      rewrite get_set_side. now apply side_get_remove_other.
Qed.

(** ** Side selection *)

Lemma mantissa_pos high last : 0 < mantissa high last.
Proof.
  unfold mantissa. pose proof (N2Z.is_nonneg high).
  destruct last; cbn [digit19_val]; lia.
Qed.

Lemma unit_pos : 0 < 2 ^ 1074.
Proof. apply Z.pow_pos_nonneg; lia. Qed.

(** The sign of the exact value is the sign of the number. *)
Lemma float_units_sign neg high last dexp :
  exists u, 0 < u
            /\ float_units (FNum neg high last dexp)
               = (if neg then -1 else 1) * u.
Proof.
  cbn [float_units]. eexists. split; [|reflexivity]. lia.
Qed.

Lemma num_units_pos v : 0 < num_units v <-> is_positive v = true.
Proof.
  destruct v as [z|[|neg high last dexp]].
  - cbn [num_units is_positive]. pose proof unit_pos.
    rewrite Z.ltb_lt. split; intro; nia.
  - cbn. split; [lia | discriminate].
  - destruct (float_units_sign neg high last dexp) as (u & Hu & E).
    cbn [num_units is_positive]. rewrite E.
    destruct neg; cbn [negb]; split; try discriminate; try reflexivity; lia.
Qed.

Lemma num_units_zero v : num_units v = 0 <-> num_is_zero v = true.
Proof.
  destruct v as [z|[|neg high last dexp]].
  - cbn [num_units]. pose proof unit_pos.
    destruct z; cbn [num_is_zero]; split; try discriminate; try reflexivity; lia.
  - cbn. tauto.
  - destruct (float_units_sign neg high last dexp) as (u & Hu & E).
    cbn [num_units num_is_zero]. rewrite E.
    destruct neg; split; try discriminate; lia.
Qed.

Lemma num_gtb_zero v : num_gtb v (NInt 0) = true <-> is_positive v = true.
Proof.
  unfold num_gtb, num_ltb. rewrite Z.ltb_lt.
  change (num_units (NInt 0)) with 0. apply num_units_pos.
Qed.

Lemma is_positive_cases v :
  is_positive v = true
  <-> (exists z, v = NInt z /\ 0 < z)
      \/ (exists high last dexp, v = NFloat (FNum false high last dexp)).
Proof.
  destruct v as [z|[|neg high last dexp]]; cbn [is_positive].
  - rewrite Z.ltb_lt. split.
    + intro H. left. eauto.
    + intros [(z' & E & H)|(? & ? & ? & E)]; [|discriminate].
      injection E as <-. exact H.
  - split; [discriminate|].
    intros [(? & E & _)|(? & ? & ? & E)]; discriminate.
  - destruct neg; cbn [negb]; split; try discriminate.
    + intros [(? & E & _)|(? & ? & ? & E)]; discriminate.
    + intros _. right. eauto.
    + reflexivity.
Qed.

Lemma kind_of_zero v : num_is_zero v = true -> kind_of v = asks.
Proof.
  intro Hz. unfold kind_of.
  destruct (num_gtb v (NInt 0)) eqn:E; [|reflexivity].
  apply num_gtb_zero, num_units_pos in E. apply num_units_zero in Hz. lia.
Qed.

Lemma update_other_side b data b' :
  update b data = Ok b' ->
  get_side (other_kind (kind_of (amount data))) b'
  = get_side (other_kind (kind_of (amount data))) b.
Proof.
  rewrite update_eq. intro H. injection H as <-. cbv zeta.
  destruct (count data >? 0); [apply get_set_other_side|].
  destruct (count data =? 0); [|reflexivity].
  destruct (dict_mem _ _ _); [apply get_set_other_side | reflexivity].
Qed.

(** C10. [update] selects the bid side exactly when [amount > 0], that is
    for a strictly positive amount, [int] or [float]; the other side is
    left as it is, and a level whose amount is exactly 0 is stored on the
    ask side. *)
Theorem side_selected_by_strict_positivity (b : OrderBook)
    (data : TradingPairBook) :
  (kind_of (amount data) = bids <-> num_gtb (amount data) (NInt 0) = true)
  /\ (num_gtb (amount data) (NInt 0) = true
      <-> (exists z, amount data = NInt z /\ 0 < z)
          \/ (exists high last dexp,
                amount data = NFloat (FNum false high last dexp)))
  /\ exists b',
       update b data = Ok b'
       /\ get_side (other_kind (kind_of (amount data))) b'
          = get_side (other_kind (kind_of (amount data))) b
       /\ (amount data = NInt 0 \/ amount data = NFloat FZero ->
           kind_of (amount data) = asks
           /\ book_bids b' = book_bids b
           /\ (0 < count data ->
               dict_get num_eq_dec (price data) (book_asks b')
               = Some {| level_p := price data; level_c := count data;
                         level_a := amount data |})).
Proof.
  split; [|split].
  - unfold kind_of. destruct (num_gtb (amount data) (NInt 0));
      split; congruence.
  - rewrite num_gtb_zero. apply is_positive_cases.
  - destruct (update b data) as [b'|e] eqn:Hupd;
      [|rewrite update_eq in Hupd; discriminate].
    exists b'. split; [reflexivity|]. split.
    + now apply update_other_side.
    + intro Hz.
      assert (Hk : kind_of (amount data) = asks).
      { apply kind_of_zero. destruct Hz as [-> | ->]; reflexivity. }
      split; [exact Hk|]. split.
      * assert (Ho := update_other_side b data b' Hupd).
        rewrite Hk in Ho. exact Ho.
      * intro Hpos. rewrite update_eq in Hupd. injection Hupd as <-.
        cbv zeta. rewrite Hk.
        assert (Hgt : (count data >? 0) = true) by (apply Z.gtb_lt; lia).
        rewrite Hgt. simpl. apply side_get_set_same.
Qed.

(** ** The order on numbers *)

Lemma float_units_neg x : float_units (float_neg x) = - float_units x.
Proof.
  destruct x as [|neg high last dexp]; [reflexivity|].
  cbn [float_neg float_units].
  set (u := Z.max 1 _). destruct neg; cbn [negb]; lia.
Qed.

Lemma num_units_neg v : num_units (num_neg v) = - num_units v.
Proof.
  destruct v as [z|x]; cbn [num_neg num_units].
  - lia.
  - apply float_units_neg.
Qed.

Lemma num_ltb_asym x y : num_ltb x y = true -> num_ltb y x = false.
Proof. unfold num_ltb. rewrite Z.ltb_lt, Z.ltb_ge. lia. Qed.

Lemma num_le_trans x y z :
  num_ltb y x = false -> num_ltb z y = false -> num_ltb z x = false.
Proof. unfold num_ltb. rewrite !Z.ltb_ge. lia. Qed.

Lemma num_ltb_neg x y : num_ltb (num_neg x) (num_neg y) = num_ltb y x.
Proof.
  unfold num_ltb. rewrite !num_units_neg.
  destruct (Z.ltb_spec (- num_units x) (- num_units y)),
    (Z.ltb_spec (num_units y) (num_units x)); try reflexivity; lia.
Qed.

(** ** [sorted] *)

Section SortedFacts.
Context {A : Type}.
Variable key : A -> number.

Lemma insert_by_perm x l : Permutation (insert_by key x l) (x :: l).
Proof.
  induction l as [|y r IH]; simpl; [reflexivity|].
  destruct (num_ltb (key y) (key x)); [|reflexivity].
  rewrite IH. apply perm_swap.
Qed.

Lemma sorted_perm l : Permutation (sorted key l) l.
Proof.
  induction l as [|x r IH]; simpl; [reflexivity|].
  rewrite insert_by_perm. now constructor.
Qed.

Lemma sorted_length l : length (sorted key l) = length l.
Proof. apply Permutation_length, sorted_perm. Qed.

Lemma insert_by_sorted x l :
  StronglySorted (key_le key) l -> StronglySorted (key_le key) (insert_by key x l).
Proof.
  induction l as [|y r IH]; simpl; intro H.
  - constructor; constructor.
  - inversion H as [|? ? Hs Hall]; subst.
    destruct (num_ltb (key y) (key x)) eqn:E.
    + constructor; [auto|].
      eapply Permutation_Forall; [symmetry; apply insert_by_perm|].
      constructor; [|exact Hall]. now apply num_ltb_asym.
    + constructor; [exact H|]. constructor; [exact E|].
      eapply Forall_impl; [|exact Hall].
      intros z Hz. unfold key_le in *. eapply num_le_trans; eassumption.
Qed.

Lemma sorted_sorted l : StronglySorted (key_le key) (sorted key l).
Proof.
  induction l as [|x r IH]; simpl; [constructor|].
  now apply insert_by_sorted.
Qed.
End SortedFacts.

(** ** The values of the checksum *)

Lemma index_firstn {A : Type} (l : list A) i :
  (i < length l)%nat ->
  exists x, index l i = Ok x /\ firstn (S i) l = firstn i l ++ [x].
Proof.
  revert i; induction l as [|y l IH]; intros i Hi; simpl in Hi; [lia|].
  destruct i as [|i].
  - exists y. split; reflexivity.
  - destruct (IH i ltac:(lia)) as (x & Hx & Hf).
    exists x. split; [exact Hx|].
    change (firstn (S (S i)) (y :: l)) with (y :: firstn (S i) l).
    rewrite Hf. reflexivity.
Qed.

Lemma combine_snoc {A B : Type} (l1 : list A) (l2 : list B) x y :
  length l1 = length l2 ->
  combine (l1 ++ [x]) (l2 ++ [y]) = combine l1 l2 ++ [(x, y)].
Proof.
  revert l2; induction l1 as [|a l1 IH]; intros [|b l2] H; simpl in *;
    try discriminate; [reflexivity|].
  f_equal. apply IH. lia.
Qed.

Lemma verify_values_loop bids asks n i :
  (i + n <= length bids)%nat -> (i + n <= length asks)%nat ->
  fold_left
    (fun acc _i =>
       values <- acc ;;
       bid <- index bids _i ;;
       ask <- index asks _i ;;
       let values := values ++ [fst (fst bid); snd bid] in
       Ok (values ++ [fst (fst ask); snd ask]))
    (seq i n)
    (Ok (flat_map pair_values (combine (firstn i bids) (firstn i asks))))
  = Ok (flat_map pair_values
          (combine (firstn (i + n) bids) (firstn (i + n) asks))).
Proof.
  revert i; induction n as [|n IH]; intros i Hb Ha.
  - rewrite Nat.add_0_r. reflexivity.
  - cbn [seq fold_left].
    destruct (index_firstn bids i ltac:(lia)) as (bid & Hbid & Hfb).
    destruct (index_firstn asks i ltac:(lia)) as (ask & Hask & Hfa).
    cbn [bind]. rewrite Hbid, Hask. cbn [bind].
    replace (i + S n)%nat with (S i + n)%nat by lia.
    rewrite <- IH by lia. f_equal. f_equal.
    rewrite Hfb, Hfa, combine_snoc, flat_map_app.
    + simpl. rewrite <- app_assoc. reflexivity.
    + rewrite !length_firstn. lia.
Qed.

Lemma verify_values_eq bids asks :
  (25 <= length bids)%nat -> (25 <= length asks)%nat ->
  verify_values bids asks = Ok (canonical_values bids asks).
Proof.
  intros Hb Ha. unfold verify_values, for_range, canonical_values.
  apply (verify_values_loop bids asks 25 0); simpl; lia.
Qed.

Lemma canonical_values_length bids asks :
  (25 <= length bids)%nat -> (25 <= length asks)%nat ->
  length (canonical_values bids asks) = 100%nat.
Proof.
  intros Hb Ha. unfold canonical_values.
  assert (H4 : forall l, length (flat_map pair_values l) = (4 * length l)%nat).
  { induction l as [|[bid ask] l IH]; [reflexivity|].
    cbn [flat_map]. rewrite length_app, IH. cbn [pair_values length]. lia. }
  rewrite H4, length_combine, !length_firstn. lia.
Qed.

Lemma mapM_raise {A B : Type} (f : A -> res B) l e :
  mapM f l = Raise e -> exists x, In x l /\ f x = Raise e.
Proof.
  induction l as [|x r IH]; simpl; [discriminate|].
  destruct (f x) as [y|e'] eqn:Ex; cbn [bind].
  - destruct (mapM f r) as [ys|e'] eqn:Er; cbn [bind]; [discriminate|].
    intro H. injection H as ->. destruct (IH eq_refl) as (z & Hz & Hf).
    exists z. split; [now right | exact Hf].
  - intro H. injection H as ->. exists x. split; [now left | exact Ex].
Qed.

Lemma mapM_In_raise {A B : Type} (f : A -> res B) l x e :
  In x l -> f x = Raise e ->
  (forall y e', f y = Raise e' -> e' = e) ->
  mapM f l = Raise e.
Proof.
  intros Hin Hx Hall. induction l as [|z r IH]; simpl in *; [contradiction|].
  destruct (f z) as [y|e'] eqn:Ez; cbn [bind].
  - destruct Hin as [->|Hin]; [congruence|].
    rewrite (IH Hin). reflexivity.
  - f_equal. eapply Hall, Ez.
Qed.

Lemma canonical_crc_raises values e :
  canonical_crc values = Raise e ->
  e = ValueError /\ exists v, In v values /\ num_is_zero v = true.
Proof.
  unfold canonical_crc. destruct (mapM _format_float values) as [parts|e'] eqn:E;
    cbn [bind]; [discriminate|].
  intro H. injection H as ->.
  apply mapM_raise in E as (x & Hin & Hx).
  apply format_float_raises in Hx as [Hz ->]. eauto.
Qed.

Lemma sorted_bids_length b : length (sorted_bids b) = length (book_bids b).
Proof. unfold sorted_bids. now rewrite sorted_length, length_map. Qed.

Lemma sorted_asks_length b : length (sorted_asks b) = length (book_asks b).
Proof. unfold sorted_asks. now rewrite sorted_length, length_map. Qed.

Lemma is_verifiable_lengths b :
  is_verifiable b = true
  <-> (25 <= length (book_bids b))%nat /\ (25 <= length (book_asks b))%nat.
Proof.
  unfold is_verifiable, len. rewrite andb_true_iff, !Z.leb_le. lia.
Qed.

Lemma verify_depth_check b :
  (len (sorted_bids b) <? 25) || (len (sorted_asks b) <? 25)
  = negb (is_verifiable b).
Proof.
  unfold is_verifiable, len. rewrite sorted_bids_length, sorted_asks_length.
  rewrite negb_andb, !Z.leb_antisym, !negb_involutive. reflexivity.
Qed.

(** [verify] on a book deep enough: the CRC of the canonical values,
    compared with the declared checksum. *)
Lemma verify_eq b checksum :
  is_verifiable b = true ->
  verify b checksum
  = (crc <- canonical_crc (canonical_values (sorted_bids b) (sorted_asks b)) ;;
     Ok (crc =? checksum)).
Proof.
  intro Hv. unfold verify. cbv zeta. rewrite verify_depth_check, Hv.
  cbn [negb]. apply is_verifiable_lengths in Hv as [Hb Ha].
  rewrite verify_values_eq
    by (rewrite ?sorted_bids_length, ?sorted_asks_length; assumption).
  cbn [bind]. unfold canonical_crc.
  destruct (mapM _format_float _); reflexivity.
Qed.

(** ** The bytes and the register of the CRC *)

Lemma lxor_range n a b :
  0 <= a < 2 ^ n -> 0 <= b < 2 ^ n -> 0 <= Z.lxor a b < 2 ^ n.
Proof.
  intros Ha Hb.
  assert (Hnn : 0 <= Z.lxor a b) by (apply Z.lxor_nonneg; lia).
  split; [exact Hnn|].
  destruct (Z.eq_dec (Z.lxor a b) 0) as [E|E]; [rewrite E; lia|].
  destruct (Z_lt_le_dec n 0) as [Hn|Hn].
  { rewrite Z.pow_neg_r in Ha by lia. lia. }
  apply Z.log2_lt_pow2; [lia|].
  pose proof (Z.log2_lxor a b ltac:(lia) ltac:(lia)) as Hl.
  assert (Hla : Z.log2 a < n \/ a = 0).
  { destruct (Z.eq_dec a 0); [now right|left]. apply Z.log2_lt_pow2; lia. }
  assert (Hlb : Z.log2 b < n \/ b = 0).
  { destruct (Z.eq_dec b 0); [now right|left]. apply Z.log2_lt_pow2; lia. }
  destruct Hla as [Hla| ->], Hlb as [Hlb| ->].
  - lia.
  - rewrite Z.lxor_0_r in *. lia.
  - rewrite Z.lxor_0_l in *. lia.
  - rewrite Z.lxor_0_l in E. lia.
Qed.

Lemma crc32_bit_range crc :
  0 <= crc < 2 ^ 32 -> 0 <= crc32_bit crc < 2 ^ 32.
Proof.
  intro H. unfold crc32_bit.
  assert (Hs : 0 <= Z.shiftr crc 1 < 2 ^ 32).
  { rewrite Z.shiftr_div_pow2 by lia. change (2 ^ 1) with 2.
    split; [apply Z.div_pos; lia|].
    apply Z.div_lt_upper_bound; lia. }
  destruct (Z.testbit crc 0); [|exact Hs].
  apply lxor_range; [exact Hs | lia].
Qed.

Lemma crc32_byte_range crc byte :
  0 <= crc < 2 ^ 32 -> 0 <= byte < 256 -> 0 <= crc32_byte crc byte < 2 ^ 32.
Proof.
  intros Hc Hb. unfold crc32_byte.
  assert (Hx : 0 <= Z.lxor crc byte < 2 ^ 32) by (apply lxor_range; lia).
  revert Hx. generalize (Z.lxor crc byte). intros x Hx.
  do 8 (apply crc32_bit_range in Hx). exact Hx.
Qed.

Lemma zlib_crc32_range data :
  Forall (fun byte => 0 <= byte < 256) data -> 0 <= zlib_crc32 data < 2 ^ 32.
Proof.
  intro H. unfold zlib_crc32.
  apply lxor_range; [|lia].
  assert (Hi : 0 <= 0xFFFFFFFF < 2 ^ 32) by lia.
  revert Hi. generalize 0xFFFFFFFF.
  induction H as [|byte data Hb _ IH]; intros crc Hc; [exact Hc|].
  cbn [fold_left]. apply IH. now apply crc32_byte_range.
Qed.

Lemma encode_utf8_bytes s : Forall (fun byte => 0 <= byte < 256) (encode_utf8 s).
Proof.
  unfold encode_utf8. induction s as [|ch s IH]; [constructor|].
  cbn [flat_map]. apply Forall_app. split; [|exact IH].
  unfold encode_char.
  pose proof (N_ascii_bounded ch) as Hn.
  assert (Hz : 0 <= Z.of_N (N_of_ascii ch) < 256) by lia.
  revert Hz. generalize (Z.of_N (N_of_ascii ch)). intros n Hn'.
  destruct (n <? 128); [repeat constructor; lia|].
  assert (H6 : 0 <= Z.shiftr n 6 < 4).
  { rewrite Z.shiftr_div_pow2 by lia. change (2 ^ 6) with 64.
    split; [apply Z.div_pos; lia | apply Z.div_lt_upper_bound; lia]. }
  assert (H63 : 0 <= Z.land n 63 < 64).
  { change 63 with (Z.ones 6). rewrite Z.land_ones by lia.
    apply Z.mod_pos_bound. lia. }
  repeat constructor.
  - apply Z.lor_nonneg. lia.
  - assert (Hor : 0 <= Z.lor 192 (Z.shiftr n 6) < 2 ^ 8); [|lia].
    split; [apply Z.lor_nonneg; lia|].
    destruct (Z.eq_dec (Z.shiftr n 6) 0) as [->|Hne]; [cbn; lia|].
    apply Z.log2_lt_pow2; [assert (0 <= Z.lor 192 (Z.shiftr n 6))
                              by (apply Z.lor_nonneg; lia);
                            assert (Z.lor 192 (Z.shiftr n 6) <> 0)
                              by (intro E; apply Z.lor_eq_0_iff in E; lia);
                            lia|].
    rewrite Z.log2_lor by lia.
    assert (Z.log2 (Z.shiftr n 6) < 8)
      by (apply Z.log2_lt_pow2; lia).
    change (Z.log2 192) with 7. lia.
  - apply Z.lor_nonneg. lia.
  - assert (Hor : 0 <= Z.lor 128 (Z.land n 63) < 2 ^ 8); [|lia].
    split; [apply Z.lor_nonneg; lia|].
    destruct (Z.eq_dec (Z.land n 63) 0) as [->|Hne]; [cbn; lia|].
    apply Z.log2_lt_pow2; [assert (0 <= Z.lor 128 (Z.land n 63))
                              by (apply Z.lor_nonneg; lia);
                            assert (Z.lor 128 (Z.land n 63) <> 0)
                              by (intro E; apply Z.lor_eq_0_iff in E; lia);
                            lia|].
    rewrite Z.log2_lor by lia.
    assert (Z.log2 (Z.land n 63) < 8)
      by (apply Z.log2_lt_pow2; lia).
    change (Z.log2 128) with 7. lia.
Qed.

(** ** The table-driven CRC-32 is the CRC-32 of [zlib] *)

Lemma crc32_bit_lxor a b :
  crc32_bit (Z.lxor a b) = Z.lxor (crc32_bit a) (crc32_bit b).
Proof.
  unfold crc32_bit. rewrite Z.lxor_spec, Z.shiftr_lxor.
  set (p := 0xEDB88320). set (x := Z.shiftr a 1). set (y := Z.shiftr b 1).
  destruct (Z.testbit a 0), (Z.testbit b 0); cbn [xorb];
    apply Z.bits_inj'; intros n _; rewrite !Z.lxor_spec;
    destruct (Z.testbit x n), (Z.testbit y n), (Z.testbit p n); reflexivity.
Qed.

Lemma iter_crc32_bit_lxor n a b :
  Nat.iter n crc32_bit (Z.lxor a b)
  = Z.lxor (Nat.iter n crc32_bit a) (Nat.iter n crc32_bit b).
Proof.
  induction n as [|n IH]; [reflexivity|].
  rewrite !Nat.iter_succ, IH. apply crc32_bit_lxor.
Qed.

Lemma iter_crc32_bit_shiftl n m :
  Nat.iter n crc32_bit (Z.shiftl m (Z.of_nat n)) = m.
Proof.
  revert m. induction n as [|n IH]; intro m.
  - cbn. apply Z.shiftl_0_r.
  - rewrite Nat.iter_succ_r.
    assert (H : crc32_bit (Z.shiftl m (Z.of_nat (S n))) = Z.shiftl m (Z.of_nat n)).
    { unfold crc32_bit. rewrite Z.shiftl_spec_low by lia.
      rewrite Z.shiftr_shiftl_l by lia. f_equal. lia. }
    rewrite H. apply IH.
Qed.

Lemma split_low_byte x :
  x = Z.lxor (Z.land x 0xFF) (Z.shiftl (Z.shiftr x 8) 8).
Proof.
  apply Z.bits_inj'. intros n Hn.
  rewrite Z.lxor_spec, Z.land_spec.
  change 0xFF with (Z.ones 8).
  destruct (Z.lt_ge_cases n 8) as [H|H].
  - rewrite Z.ones_spec_low by lia. rewrite Z.shiftl_spec_low by lia.
    now rewrite andb_true_r, xorb_false_r.
  - rewrite Z.ones_spec_high by lia. rewrite Z.shiftl_spec by lia.
    rewrite Z.shiftr_spec by lia. rewrite andb_false_r. cbn [xorb].
    f_equal. lia.
Qed.

Lemma crc_table_entry_eq n : crc_table_entry n = Nat.iter 8 crc32_bit n.
Proof.
  unfold crc_table_entry.
  assert (H : forall c, (if Z.odd c then Z.lxor 0xEDB88320 (Z.shiftr c 1)
                         else Z.shiftr c 1) = crc32_bit c).
  { intro c. unfold crc32_bit. rewrite Z.bit0_odd.
    destruct (Z.odd c); [apply Z.lxor_comm | reflexivity]. }
  generalize 8%nat. intro k. induction k as [|k IH]; [reflexivity|].
  rewrite !Nat.iter_succ, IH. apply H.
Qed.

Lemma crc_table_nth i :
  0 <= i < 256 -> nth (Z.to_nat i) crc_table 0 = crc_table_entry i.
Proof.
  intro Hi. unfold crc_table.
  rewrite (nth_indep _ 0 ((fun n => crc_table_entry (Z.of_nat n)) 0%nat))
    by (rewrite length_map, length_seq; lia).
  rewrite (map_nth (fun n => crc_table_entry (Z.of_nat n))), seq_nth by lia.
  cbn [Nat.add]. f_equal. lia.
Qed.

Lemma crc32_byte_table crc byte :
  0 <= byte < 256 ->
  crc32_byte crc byte
  = Z.lxor (nth (Z.to_nat (Z.land (Z.lxor crc byte) 0xFF)) crc_table 0)
      (Z.shiftr crc 8).
Proof.
  intro Hb. unfold crc32_byte.
  rewrite (split_low_byte (Z.lxor crc byte)) at 1.
  rewrite iter_crc32_bit_lxor.
  change 8 with (Z.of_nat 8) at 2. rewrite iter_crc32_bit_shiftl.
  rewrite crc_table_nth, crc_table_entry_eq.
  - f_equal. rewrite Z.shiftr_lxor.
    assert (H : Z.shiftr byte 8 = 0).
    { apply Z.shiftr_eq_0; [lia|].
      destruct (Z.eq_dec byte 0) as [->|Hne]; [cbn; lia|].
      apply Z.log2_lt_pow2; lia. }
    rewrite H. apply Z.lxor_0_r.
  - change 0xFF with (Z.ones 8). rewrite Z.land_ones by lia.
    apply Z.mod_pos_bound. lia.
Qed.

Lemma crc32_reference_eq data :
  Forall (fun byte => 0 <= byte < 256) data ->
  crc32_reference data = zlib_crc32 data.
Proof.
  intro H. unfold crc32_reference, zlib_crc32. f_equal.
  generalize 0xFFFFFFFF. induction H as [|byte data Hb _ IH]; intro crc;
    [reflexivity|].
  cbn [fold_left]. rewrite <- crc32_byte_table by exact Hb. apply IH.
Qed.

Lemma join_colon_joined parts : join (lit ":") parts = colon_joined parts.
Proof.
  destruct parts as [|first others]; [reflexivity|].
  revert first. induction others as [|part others IH]; intro first.
  - cbn. now rewrite app_nil_r.
  - change (join (lit ":") (first :: part :: others))
      with (first ++ lit ":" ++ join (lit ":") (part :: others)).
    rewrite IH. reflexivity.
Qed.

Lemma StronglySorted_impl {A : Type} (R R' : A -> A -> Prop) l :
  (forall x y, R x y -> R' x y) -> StronglySorted R l -> StronglySorted R' l.
Proof.
  intros HR H. induction H as [|x l Hs IH Hall]; constructor; auto.
  eapply Forall_impl; [|exact Hall]. auto.
Qed.

(** C9. On a book with at least 25 levels on each side, if one of the 100
    canonical values is exactly 0, as an [int] or as a [float], [verify]
    raises the [ValueError] of [log10] instead of returning a boolean. *)
Theorem verify_raises_at_zero (b : OrderBook) (checksum : Z) (v : number) :
  is_verifiable b = true ->
  In v (canonical_values (sorted_bids b) (sorted_asks b)) ->
  v = NInt 0 \/ v = NFloat FZero ->
  verify b checksum = Raise ValueError.
Proof.
  intros Hv Hin Hz. rewrite (verify_eq b checksum Hv).
  unfold canonical_crc.
  rewrite (mapM_In_raise _format_float _ v ValueError Hin).
  - reflexivity.
  - apply format_float_zero. destruct Hz as [-> | ->]; reflexivity.
  - intros y e' Hy. now apply format_float_raises in Hy.
Qed.

(** C4. [verify] raises [AssertionError] (not enough bids or asks) exactly
    when [is_verifiable] is false; and [on_checksum] tests [is_verifiable]
    first: on a book that is not verifiable it calls nothing, changes no
    global and raises nothing. *)
Theorem verify_insufficient_depth (s : state) (subscription : Subscription)
    (value timestamp : Z) :
  (verify (order_book s) value = Raise AssertionError
   <-> is_verifiable (order_book s) = false)
  /\ (is_verifiable (order_book s) = false ->
      on_checksum subscription value timestamp s = Ok (tt, s, [])).
Proof.
  split.
  - destruct (is_verifiable (order_book s)) eqn:Hv.
    + rewrite (verify_eq _ value Hv). split; [|discriminate].
      destruct (canonical_crc _) as [crc|e] eqn:E; cbn [bind]; [discriminate|].
      apply canonical_crc_raises in E as [-> _]. discriminate.
    + split; [reflexivity|]. intros _. unfold verify. cbv zeta.
      rewrite verify_depth_check, Hv. reflexivity.
  - intro Hv. unfold on_checksum, bindM, get. rewrite Hv. reflexivity.
Qed.


(** ** The handlers *)

Lemma bindM_get {A : Type} (k : state -> M A) s : bindM get k s = k s s.
Proof. unfold bindM, get. destruct (k s s) as [[[y s2] l2]|]; reflexivity. Qed.

Lemma bindM_modify {A : Type} f (k : unit -> M A) s :
  bindM (modify f) k s = k tt (f s).
Proof.
  unfold bindM, modify. destruct (k tt (f s)) as [[[y s2] l2]|]; reflexivity.
Qed.

Lemma bindM_lift_ok {A B : Type} (x : A) (k : A -> M B) s :
  bindM (lift (Ok x)) k s = k x s.
Proof.
  unfold bindM, lift. destruct (k x s) as [[[y s2] l2]|]; reflexivity.
Qed.

Lemma bindM_lift_raise {A B : Type} e (k : A -> M B) s :
  bindM (lift (Raise e)) k s = Raise e.
Proof. reflexivity. Qed.

Lemma bindM_call {A : Type} e (k : unit -> M A) s :
  bindM (call e) k s
  = match k tt s with
    | Ok (y, s2, l2) => Ok (y, s2, (e, s) :: l2)
    | Raise e' => Raise e'
    end.
Proof. reflexivity. Qed.

Lemma reset_connection_eq subscription s :
  _reset_connection subscription s
  = match dict_get str_eq_dec (lit "sub_id") subscription with
    | Some sub_id => Ok (tt, after_reset s, reset_log subscription sub_id s)
    | None => Raise KeyError
    end.
Proof.
  unfold _reset_connection. rewrite !bindM_modify. unfold pop_sub_id.
  destruct (dict_get str_eq_dec (lit "sub_id") subscription).
  - rewrite bindM_lift_ok. reflexivity.
  - reflexivity.
Qed.

Lemma save_eq timestamp is_interrupted s :
  save_orderbook_messages_to_file timestamp is_interrupted s
  = Ok (tt, s, [(WriteFile (journal_path timestamp is_interrupted)
                   (timestamp_orderbook_update_map s), s)]).
Proof. reflexivity. Qed.

Lemma bindM_save {A : Type} timestamp is_interrupted (k : unit -> M A) s :
  bindM (save_orderbook_messages_to_file timestamp is_interrupted) k s
  = match k tt s with
    | Ok (y, s2, l2) =>
        Ok (y, s2,
            (WriteFile (journal_path timestamp is_interrupted)
               (timestamp_orderbook_update_map s), s) :: l2)
    | Raise e' => Raise e'
    end.
Proof. reflexivity. Qed.

Lemma on_checksum_mismatch subscription value timestamp s :
  is_verifiable (order_book s) = true ->
  verify (order_book s) value = Ok false ->
  on_checksum subscription value timestamp s
  = let j := _get_orderbook_updates_until (timestamp_orderbook_update_map s)
               (last_checksum_timestamp s) in
    match dict_get str_eq_dec (lit "sub_id") subscription with
    | Some sub_id =>
        Ok (tt, after_reset (set_journal j s),
            (Print (lit "Mismatch between local and remote checksums: restarting book..."), s)
            :: (WriteFile (journal_path (last_checksum_timestamp s) true) j,
                set_journal j s)
            :: reset_log subscription sub_id (set_journal j s))
    | None => Raise KeyError
    end.
Proof.
  intros Hv Hm. unfold on_checksum.
  rewrite bindM_get, Hv, Hm, bindM_lift_ok. cbn [negb].
  rewrite bindM_call, bindM_get, bindM_modify, bindM_get, bindM_save.
  rewrite reset_connection_eq. cbv zeta.
  destruct (dict_get str_eq_dec (lit "sub_id") subscription); reflexivity.
Qed.

Lemma on_checksum_match subscription value timestamp s :
  is_verifiable (order_book s) = true ->
  verify (order_book s) value = Ok true ->
  on_checksum subscription value timestamp s
  = Ok (tt, set_last_checksum_timestamp timestamp s, []).
Proof.
  intros Hv Hm. unfold on_checksum.
  rewrite bindM_get, Hv, Hm, bindM_lift_ok. reflexivity.
Qed.

Lemma order_book_update_eq data s :
  exists b, update (order_book s) data = Ok b
            /\ order_book_update data s = Ok (tt, set_order_book b s, []).
Proof.
  eexists. split; [apply update_eq|].
  unfold order_book_update. rewrite bindM_get, update_eq, bindM_lift_ok.
  reflexivity.
Qed.

Lemma bindM_order_book_update {A : Type} data (k : unit -> M A) s b :
  update (order_book s) data = Ok b ->
  bindM (order_book_update data) k s = k tt (set_order_book b s).
Proof.
  intro Hb. destruct (order_book_update_eq data s) as (b0 & Hb0 & Heq).
  assert (b0 = b) by congruence. subst b0.
  unfold bindM at 1. rewrite Heq.
  destruct (k tt (set_order_book b s)) as [[[y s2] l2]|]; reflexivity.
Qed.

Lemma on_t_book_update_close subscription data timestamp s b j :
  are_new_messages_to_drop s = false ->
  update (order_book s) data = Ok b ->
  journal_record data timestamp (timestamp_orderbook_update_map s) = Ok j ->
  ending_timestamp s <= timestamp ->
  on_t_book_update subscription data timestamp s
  = let j' := dict_set Z.eq_dec (-1) (BookCopy b) j in
    let s' := set_journal j' (set_order_book b s) in
    match dict_get str_eq_dec (lit "sub_id") subscription with
    | Some sub_id =>
        Ok (tt, after_reset s',
            (WriteFile (journal_path timestamp false) j', s')
            :: reset_log subscription sub_id s')
    | None => Raise KeyError
    end.
Proof.
  intros Hdrop Hb Hj Hend. unfold on_t_book_update.
  rewrite bindM_get, Hdrop.
  rewrite (bindM_order_book_update data _ s b Hb).
  rewrite bindM_get.
  cbn [timestamp_orderbook_update_map set_order_book]. rewrite Hj.
  rewrite bindM_lift_ok, bindM_modify, bindM_get.
  cbn [ending_timestamp set_journal set_order_book].
  apply Z.leb_le in Hend. rewrite Hend.
  rewrite bindM_modify, bindM_save, reset_connection_eq. cbv zeta.
  destruct (dict_get str_eq_dec (lit "sub_id") subscription); reflexivity.
Qed.

Lemma on_t_book_update_open subscription data timestamp s b j :
  are_new_messages_to_drop s = false ->
  update (order_book s) data = Ok b ->
  journal_record data timestamp (timestamp_orderbook_update_map s) = Ok j ->
  timestamp < ending_timestamp s ->
  on_t_book_update subscription data timestamp s
  = Ok (tt, set_journal j (set_order_book b s), []).
Proof.
  intros Hdrop Hb Hj Hend. unfold on_t_book_update.
  rewrite bindM_get, Hdrop.
  rewrite (bindM_order_book_update data _ s b Hb).
  rewrite bindM_get.
  cbn [timestamp_orderbook_update_map set_order_book]. rewrite Hj.
  rewrite bindM_lift_ok, bindM_modify, bindM_get.
  cbn [ending_timestamp set_journal set_order_book].
  apply Z.leb_gt in Hend. rewrite Hend. reflexivity.
Qed.

Lemma on_t_book_update_dropped subscription data timestamp s :
  are_new_messages_to_drop s = true ->
  on_t_book_update subscription data timestamp s = Ok (tt, s, []).
Proof.
  intro Hdrop. unfold on_t_book_update. rewrite bindM_get, Hdrop. reflexivity.
Qed.

Lemma set_order_book_same s : set_order_book (order_book s) s = s.
Proof. destruct s; reflexivity. Qed.

Lemma for_each_update snapshot s :
  exists b,
    apply_all (order_book s) snapshot = Ok b
    /\ for_each snapshot order_book_update s = Ok (tt, set_order_book b s, []).
Proof.
  revert s. induction snapshot as [|data r IH]; intro s.
  - exists (order_book s). split; [reflexivity|].
    cbn [for_each]. unfold ret. now rewrite set_order_book_same.
  - destruct (order_book_update_eq data s) as (b1 & Hb1 & Hu).
    destruct (IH (set_order_book b1 s)) as (b & Hb & Hf).
    exists b. split.
    + cbn [apply_all]. rewrite Hb1. exact Hb.
    + cbn [for_each]. rewrite (bindM_order_book_update data _ s b1 Hb1).
      rewrite Hf. reflexivity.
Qed.

Lemma on_t_book_snapshot_eq subscription snapshot timestamp s :
  exists b,
    apply_all (order_book s) snapshot = Ok b
    /\ on_t_book_snapshot subscription snapshot timestamp s
       = Ok (tt,
             set_journal
               (dict_set Z.eq_dec timestamp (BookCopy b)
                  (timestamp_orderbook_update_map s))
               (set_order_book b
                  (set_are_new_messages_to_drop false
                     (set_window timestamp
                        (timestamp + SECONDS_RECORDING_DURATION * 1000) s))),
             []).
Proof.
  set (s1 := set_are_new_messages_to_drop false
               (set_window timestamp
                  (timestamp + SECONDS_RECORDING_DURATION * 1000) s)).
  destruct (for_each_update snapshot s1) as (b & Hb & Hf).
  exists b. split; [exact Hb|].
  unfold on_t_book_snapshot. rewrite !bindM_modify. fold s1.
  unfold bindM at 1. rewrite Hf. rewrite bindM_get. reflexivity.
Qed.

(** What [on_checksum] can do: nothing, record the timestamp, resync, or
    let the exception of [verify] through. *)
Lemma on_checksum_cases subscription value timestamp s :
  on_checksum subscription value timestamp s = Ok (tt, s, [])
  \/ on_checksum subscription value timestamp s
     = Ok (tt, set_last_checksum_timestamp timestamp s, [])
  \/ (exists e, on_checksum subscription value timestamp s = Raise e)
  \/ (exists j l, on_checksum subscription value timestamp s
                  = Ok (tt, after_reset (set_journal j s), l)).
Proof.
  destruct (is_verifiable (order_book s)) eqn:Hv.
  - destruct (verify (order_book s) value) as [[|]|e] eqn:Hm.
    + right; left. now apply on_checksum_match.
    + rewrite (on_checksum_mismatch _ _ _ _ Hv Hm). cbv zeta.
      destruct (dict_get str_eq_dec (lit "sub_id") subscription).
      * right; right; right. eauto.
      * right; right; left. eauto.
    + right; right; left. exists e. unfold on_checksum.
      rewrite bindM_get, Hv, Hm. reflexivity.
  - left. unfold on_checksum. rewrite bindM_get, Hv. reflexivity.
Qed.

(** ** The sample data *)

(** ** The resync *)

Lemma handle_awaiting_snapshot ev s s' l :
  awaiting_snapshot s -> is_snapshot ev = false ->
  handle ev s = Ok (tt, s', l) -> awaiting_snapshot s'.
Proof.
  intros [Hb Hd] Hev H. destruct ev as [|sub|sub snap ts|sub data ts|sub v ts];
    cbn [handle is_snapshot] in *; try discriminate.
  - unfold on_open, call in H. injection H as <- _. now split.
  - unfold on_subscribed in H.
    destruct (subscript sub (lit "symbol")) as [sym|e].
    + rewrite bindM_lift_ok in H. unfold call in H. injection H as <- _.
      now split.
    + discriminate.
  - rewrite (on_t_book_update_dropped _ _ _ _ Hd) in H. injection H as <- _.
    now split.
  - unfold on_checksum in H. rewrite bindM_get, Hb in H.
    cbn in H. injection H as <- _. now split.
Qed.

Lemma run_awaiting_snapshot events s s' l :
  awaiting_snapshot s -> forallb (fun ev => negb (is_snapshot ev)) events = true ->
  run events s = Ok (s', l) -> awaiting_snapshot s'.
Proof.
  revert s l. induction events as [|ev r IH]; intros s l Hs Hev H.
  - cbn in H. injection H as <- _. exact Hs.
  - cbn [forallb] in Hev. apply andb_true_iff in Hev as [H1 H2].
    apply negb_true_iff in H1. cbn [run] in H.
    destruct (handle ev s) as [[[[] s1] l1]|e] eqn:Hh; [|discriminate].
    destruct (run r s1) as [[s2 l2]|e] eqn:Hr; [|discriminate].
    injection H as <- _.
    eapply IH; [|exact H2|exact Hr].
    eapply handle_awaiting_snapshot; eassumption.
Qed.

(** C2. On a checksum mismatch [on_checksum] makes exactly one
    unsubscribe request for the subscription and then exactly one
    subscribe request with its other keys.  The journal is cleared before
    the unsubscribe and the book after the subscribe: during both requests
    the journal is empty, the book is still the old one and updates are
    already dropped.  When the handler returns, book and journal are empty,
    and the book stays empty over any later events other than a
    snapshot. *)
Theorem resync_on_mismatch (subscription : Subscription) (sub_id : str)
    (value timestamp : Z) (s : state) :
  is_verifiable (order_book s) = true ->
  verify (order_book s) value = Ok false ->
  dict_get str_eq_dec (lit "sub_id") subscription = Some sub_id ->
  exists s' l s_req,
    on_checksum subscription value timestamp s = Ok (tt, s', l)
    /\ requests l
       = [(Unsubscribe sub_id, s_req);
          (Subscribe (dict_remove str_eq_dec (lit "sub_id") subscription),
           s_req)]
    /\ timestamp_orderbook_update_map s_req = []
    /\ order_book s_req = order_book s
    /\ are_new_messages_to_drop s_req = true
    /\ order_book s' = empty_book
    /\ timestamp_orderbook_update_map s' = []
    /\ (forall events s'' l',
          forallb (fun ev => negb (is_snapshot ev)) events = true ->
          run events s' = Ok (s'', l') -> order_book s'' = empty_book).
Proof.
  intros Hv Hm Hid.
  rewrite (on_checksum_mismatch _ _ _ _ Hv Hm). cbv zeta. rewrite Hid.
  eexists _, _, _. split; [reflexivity|].
  split; [reflexivity|].
  repeat (split; [reflexivity|]).
  intros events s'' l' Hev Hrun.
  eapply run_awaiting_snapshot in Hrun; [apply Hrun | | exact Hev].
  split; reflexivity.
Qed.

(** ** The drop flag *)

(** C8. [_reset_connection] sets [are_new_messages_to_drop] before its
    first request; once set, the flag is still set after any handler that
    returns, except the snapshot handler, which clears it; and while it is
    set [on_t_book_update] changes no global (neither the book nor the
    journal) and makes no call. *)
Theorem drop_flag_protocol :
  (forall subscription s s' l,
      _reset_connection subscription s = Ok (tt, s', l) ->
      are_new_messages_to_drop s' = true
      /\ Forall (fun x => are_new_messages_to_drop (snd x) = true) l)
  /\ (forall ev s s' l,
        are_new_messages_to_drop s = true ->
        handle ev s = Ok (tt, s', l) ->
        are_new_messages_to_drop s' = false ->
        is_snapshot ev = true)
  /\ (forall subscription snapshot timestamp s s' l,
        on_t_book_snapshot subscription snapshot timestamp s = Ok (tt, s', l) ->
        are_new_messages_to_drop s' = false)
  /\ (forall subscription data timestamp s,
        are_new_messages_to_drop s = true ->
        on_t_book_update subscription data timestamp s = Ok (tt, s, [])).
Proof.
  split; [|split; [|split]].
  - intros subscription s s' l H. rewrite reset_connection_eq in H.
    destruct (dict_get str_eq_dec (lit "sub_id") subscription); [|discriminate].
    injection H as <- <-. split; [reflexivity|].
    repeat constructor.
  - intros ev s s' l Hd H Hs'.
    destruct ev as [|sub|sub snap ts|sub data ts|sub v ts];
      cbn [handle is_snapshot] in *; [| |reflexivity| |]; exfalso.
    + unfold on_open, call in H. injection H as <- _. congruence.
    + unfold on_subscribed in H.
      destruct (subscript sub (lit "symbol")) as [sym|e]; [|discriminate].
      rewrite bindM_lift_ok in H. unfold call in H. injection H as <- _.
      congruence.
    + rewrite (on_t_book_update_dropped _ _ _ _ Hd) in H.
      injection H as <- _. congruence.
    + destruct (on_checksum_cases sub v ts s)
        as [E|[E|[[e E]|(j & l0 & E)]]]; rewrite E in H;
        try discriminate; injection H as <- _.
      * congruence.
      * cbn in Hs'. congruence.
      * discriminate Hs'.
  - intros subscription snapshot timestamp s s' l H.
    destruct (on_t_book_snapshot_eq subscription snapshot timestamp s)
      as (b & _ & E).
    rewrite E in H. injection H as <- _. reflexivity.
  - intros. now apply on_t_book_update_dropped.
Qed.

(** ** The journal flush *)

Lemma dict_get_until (j : journal) t k :
  dict_get Z.eq_dec k (_get_orderbook_updates_until j t)
  = if k <=? t then dict_get Z.eq_dec k j else None.
Proof.
  unfold _get_orderbook_updates_until.
  induction j as [|[k1 v1] j IH]; simpl.
  - now destruct (k <=? t).
  - destruct (k1 <=? t) eqn:E1; simpl.
    + destruct (Z.eq_dec k k1) as [->|Hne].
      * now rewrite E1.
      * exact IH.
    + rewrite IH. destruct (Z.eq_dec k k1) as [->|Hne]; [|reflexivity].
      now rewrite E1.
Qed.

Lemma until_keys (j : journal) t :
  Forall (fun kv => fst kv <= t) (_get_orderbook_updates_until j t).
Proof.
  unfold _get_orderbook_updates_until. apply Forall_forall.
  intros kv Hin. apply filter_In in Hin as [_ H]. now apply Z.leb_le.
Qed.

(** C5. When the recording window expires, whatever the depth of the
    book, [on_t_book_update] stores a copy of the book (as just updated)
    under the key -1, then writes the journal, that copy included, then
    clears it.  On a checksum mismatch [on_checksum] adds no such copy: it
    writes the journal restricted to the keys up to the last good
    checksum, which holds an entry under -1 only if the journal already
    did, then clears it. *)
Theorem flush_final_copy (subscription : Subscription) (sub_id : str)
    (data : TradingPairBook) (timestamp value cs_timestamp : Z)
    (s s_cs : state) (j : journal) :
  dict_get str_eq_dec (lit "sub_id") subscription = Some sub_id ->
  (are_new_messages_to_drop s = false ->
   journal_record data timestamp (timestamp_orderbook_update_map s) = Ok j ->
   ending_timestamp s <= timestamp ->
   exists b s' l content,
     update (order_book s) data = Ok b
     /\ on_t_book_update subscription data timestamp s = Ok (tt, s', l)
     /\ written l = [(journal_path timestamp false, content)]
     /\ content = dict_set Z.eq_dec (-1) (BookCopy b) j
     /\ dict_get Z.eq_dec (-1) content = Some (BookCopy b)
     /\ timestamp_orderbook_update_map s' = [])
  /\ (is_verifiable (order_book s_cs) = true ->
      verify (order_book s_cs) value = Ok false ->
      exists s' l content,
        on_checksum subscription value cs_timestamp s_cs = Ok (tt, s', l)
        /\ written l
           = [(journal_path (last_checksum_timestamp s_cs) true, content)]
        /\ content
           = _get_orderbook_updates_until (timestamp_orderbook_update_map s_cs)
               (last_checksum_timestamp s_cs)
        /\ (forall e, dict_get Z.eq_dec (-1) content = Some e ->
                      dict_get Z.eq_dec (-1) (timestamp_orderbook_update_map s_cs)
                      = Some e)
        /\ timestamp_orderbook_update_map s' = []).
Proof.
  intros Hid. split.
  - intros Hdrop Hj Hend.
    destruct (order_book_update_eq data s) as (b & Hb & _).
    rewrite (on_t_book_update_close _ _ _ _ b j Hdrop Hb Hj Hend).
    cbv zeta. rewrite Hid.
    exists b. eexists _, _, _. split; [exact Hb|].
    split; [reflexivity|]. split; [reflexivity|]. split; [reflexivity|].
    split; [apply dict_get_set_same | reflexivity].
  - intros Hv Hm.
    rewrite (on_checksum_mismatch _ _ _ _ Hv Hm). cbv zeta. rewrite Hid.
    eexists _, _, _. split; [reflexivity|]. split; [reflexivity|].
    split; [reflexivity|]. split; [|reflexivity].
    intros e He. rewrite dict_get_until in He.
    destruct (-1 <=? last_checksum_timestamp s_cs); [exact He | discriminate].
Qed.

(** C6. When the recording window expires, whatever the depth of the
    book, the file is [data/data_<t>.json] with [t] the timestamp of the
    update that closed the window.  On a checksum mismatch the file is
    [data/data_<t>_interrupted.json] with [t] the timestamp of the last
    good checksum, and its content is the journal restricted to the keys
    at most [t]: every key written is at most [t] and every entry of the
    journal with such a key is written. *)
Theorem flush_file_name (subscription : Subscription) (sub_id : str)
    (data : TradingPairBook) (timestamp value cs_timestamp : Z)
    (s s_cs : state) (j : journal) :
  dict_get str_eq_dec (lit "sub_id") subscription = Some sub_id ->
  (are_new_messages_to_drop s = false ->
   journal_record data timestamp (timestamp_orderbook_update_map s) = Ok j ->
   ending_timestamp s <= timestamp ->
   exists s' l content,
     on_t_book_update subscription data timestamp s = Ok (tt, s', l)
     /\ written l
        = [(lit "data/data_" ++ str_of_int timestamp ++ lit ".json", content)])
  /\ (is_verifiable (order_book s_cs) = true ->
      verify (order_book s_cs) value = Ok false ->
      exists s' l content,
        on_checksum subscription value cs_timestamp s_cs = Ok (tt, s', l)
        /\ written l
           = [(lit "data/data_" ++ str_of_int (last_checksum_timestamp s_cs)
               ++ lit "_interrupted.json", content)]
        /\ Forall (fun kv => fst kv <= last_checksum_timestamp s_cs) content
        /\ (forall k, k <= last_checksum_timestamp s_cs ->
                      dict_get Z.eq_dec k content
                      = dict_get Z.eq_dec k
                          (timestamp_orderbook_update_map s_cs))).
Proof.
  intros Hid. split.
  - intros Hdrop Hj Hend.
    destruct (order_book_update_eq data s) as (b & Hb & _).
    rewrite (on_t_book_update_close _ _ _ _ b j Hdrop Hb Hj Hend).
    cbv zeta. rewrite Hid.
    eexists _, _, _. split; reflexivity.
  - intros Hv Hm.
    rewrite (on_checksum_mismatch _ _ _ _ Hv Hm). cbv zeta. rewrite Hid.
    eexists _, _, _. split; [reflexivity|]. split; [reflexivity|].
    split; [apply until_keys|].
    intros k Hk. rewrite dict_get_until.
    apply Z.leb_le in Hk. now rewrite Hk.
Qed.

(** * Further properties of the script *)

(** ** Repeating and undoing a message *)

Lemma side_set_idem (k : number) (v : level) (s : side) :
  dict_set num_eq_dec k v (dict_set num_eq_dec k v s) = dict_set num_eq_dec k v s.
Proof.
  induction s as [|[k1 v1] s IH]; cbn [dict_set].
  - destruct (num_eq_dec k k) as [_|E]; [reflexivity|].
    exfalso. apply E. reflexivity.
  - destruct (num_eq_dec k k1) as [E|E]; cbn [dict_set].
    + destruct (num_eq_dec k k1); [reflexivity | contradiction].
    + destruct (num_eq_dec k k1); [contradiction|]. now rewrite IH.
Qed.

Lemma side_remove_set_absent (k : number) (v : level) (s : side) :
  ~ In (num_units k) (key_units s) ->
  dict_remove num_eq_dec k (dict_set num_eq_dec k v s) = s.
Proof.
  unfold key_units, keys.
  induction s as [|[k1 v1] s IH]; cbn [dict_set dict_remove map fst]; intro H.
  - destruct (num_eq_dec k k) as [_|E]; [reflexivity|].
    exfalso. apply E. reflexivity.
  - destruct (num_eq_dec k k1) as [E|E]; cbn [dict_remove].
    + exfalso. apply H. left. symmetry. exact E.
    + destruct (num_eq_dec k k1); [contradiction|]. f_equal. apply IH.
      intro Hin. apply H. now right.
Qed.

Lemma set_set_side k s s' b : set_side k s (set_side k s' b) = set_side k s b.
Proof. destruct k; reflexivity. Qed.

(** [update] is idempotent on any book the script can hold: the same
    message applied a second time changes nothing. *)
Theorem update_idempotent (history : list TradingPairBook)
    (data : TradingPairBook) :
  exists b b1,
    apply_all empty_book history = Ok b
    /\ update b data = Ok b1
    /\ update b1 data = Ok b1.
Proof.
  destruct (apply_all_unique_prices history empty_book) as (b & Hb & Hu).
  { split; constructor. }
  exists b. eexists. split; [exact Hb|]. split; [apply update_eq|].
  rewrite update_eq. f_equal. cbv zeta.
  set (k := kind_of (amount data)).
  assert (Hk := unique_prices_get_side k b Hu).
  destruct (count data >? 0) eqn:Hpos.
  - rewrite get_set_side, side_set_idem, set_set_side. reflexivity.
  - destruct (count data =? 0) eqn:H0; [|reflexivity].
    destruct (dict_mem num_eq_dec (price data) (get_side k b)) eqn:Hm.
    + rewrite get_set_side.
      assert (Hm' : dict_mem num_eq_dec (price data)
                      (dict_remove num_eq_dec (price data) (get_side k b))
                    = false).
      { apply not_true_is_false. intro H. apply side_mem_In in H.
        revert H. now apply key_units_remove_absent. }
      rewrite Hm'. reflexivity.
    + rewrite Hm. reflexivity.
Qed.

(** A level added at a price the side does not hold (no key equals the
    price) and then removed by a count-0 message for the same side leaves
    the book exactly as it was. *)
Theorem update_insert_then_remove (history : list TradingPairBook)
    (p : number) (c : Z) (a a' : number) :
  0 < c -> kind_of a' = kind_of a ->
  exists b,
    apply_all empty_book history = Ok b
    /\ (~ In (num_units p) (key_units (get_side (kind_of a) b)) ->
        exists b1,
          update b {| price := p; count := c; amount := a |} = Ok b1
          /\ update b1 {| price := p; count := 0; amount := a' |} = Ok b).
Proof.
  intros Hc Hk.
  destruct (apply_all_unique_prices history empty_book) as (b & Hb & Hu).
  { split; constructor. }
  exists b. split; [exact Hb|]. intro Habs.
  eexists. split; [apply update_eq|].
  rewrite update_eq. f_equal. cbn [price count amount]. cbv zeta.
  rewrite Hk.
  assert (Hgt : (c >? 0) = true) by (apply Z.gtb_lt; lia).
  rewrite Hgt. cbn [Z.gtb Z.eqb Z.compare].
  rewrite get_set_side.
  assert (Hm : dict_mem num_eq_dec p
                 (dict_set num_eq_dec p
                    {| level_p := p; level_c := c; level_a := a |}
                    (get_side (kind_of a) b)) = true).
  { apply side_mem_In, key_units_set. now left. }
  rewrite Hm, set_set_side, side_remove_set_absent by exact Habs.
  apply set_get_side.
Qed.

(** ** The range of the checksum *)

(** [verify] compares the declared checksum with an unsigned 32-bit
    number: it can return [True] only for a checksum between 0 and
    [2^32 - 1], so a checksum delivered as a negative (signed) integer
    never matches. *)
Theorem verify_true_checksum_range (b : OrderBook) (checksum : Z) :
  verify b checksum = Ok true -> 0 <= checksum < 2 ^ 32.
Proof.
  intro H.
  destruct (is_verifiable b) eqn:Hv.
  - rewrite (verify_eq b checksum Hv) in H. unfold canonical_crc in H.
    destruct (mapM _format_float _) as [parts|e]; cbn [bind] in H;
      [|discriminate].
    injection H as H. apply Z.eqb_eq in H. subst checksum.
    apply zlib_crc32_range, encode_utf8_bytes.
  - unfold verify in H. cbv zeta in H.
    rewrite verify_depth_check, Hv in H. discriminate.
Qed.

(** ** Edge cases of the journal *)

Lemma journal_record_book_copy data timestamp (j : journal) b :
  dict_get Z.eq_dec timestamp j = Some (BookCopy b) ->
  journal_record data timestamp j = Raise KeyError.
Proof.
  intro H. unfold journal_record, dict_mem. rewrite H. reflexivity.
Qed.

Lemma on_t_book_update_book_copy subscription data timestamp s b :
  are_new_messages_to_drop s = false ->
  dict_get Z.eq_dec timestamp (timestamp_orderbook_update_map s)
  = Some (BookCopy b) ->
  on_t_book_update subscription data timestamp s = Raise KeyError.
Proof.
  intros Hdrop Hj. unfold on_t_book_update.
  rewrite bindM_get, Hdrop.
  destruct (order_book_update_eq data s) as (b1 & Hb1 & _).
  rewrite (bindM_order_book_update data _ s b1 Hb1), bindM_get.
  cbn [timestamp_orderbook_update_map set_order_book].
  rewrite (journal_record_book_copy data timestamp _ b Hj). reflexivity.
Qed.

(** An update that carries the timestamp of the snapshot before it makes
    [on_t_book_update] raise [KeyError]: the journal holds the copy of the
    book under that timestamp, and the handler subscripts it with ["p"].
    The same happens for any update whose timestamp is the key of a stored
    copy. *)
Theorem update_at_snapshot_timestamp_raises (subscription subscription' : Subscription)
    (snapshot : list TradingPairBook) (data : TradingPairBook)
    (timestamp : Z) (s : state) :
  run [ev_t_book_snapshot subscription snapshot timestamp;
       ev_t_book_update subscription' data timestamp] s
  = Raise KeyError.
Proof.
  cbn [run handle].
  destruct (on_t_book_snapshot_eq subscription snapshot timestamp s)
    as (b & _ & ->).
  rewrite (on_t_book_update_book_copy subscription' data timestamp _ b).
  - reflexivity.
  - reflexivity.
  - cbn [timestamp_orderbook_update_map set_journal]. apply dict_get_set_same.
Qed.

Lemma until_nothing (j : journal) t :
  Forall (fun kv => t < fst kv) j -> _get_orderbook_updates_until j t = [].
Proof.
  unfold _get_orderbook_updates_until.
  induction 1 as [|kv j Hkv _ IH]; [reflexivity|].
  cbn [filter]. assert (E : (fst kv <=? t) = false) by (apply Z.leb_gt; lia).
  now rewrite E.
Qed.

(** On a checksum mismatch, when every key of the journal is later than
    the last good checksum (in particular when no checksum has matched
    yet and the timestamps are positive), the file written is empty and
    the journal is cleared: the recorded history is not saved. *)
Theorem mismatch_without_good_checksum_saves_nothing
    (subscription : Subscription) (sub_id : str) (value timestamp : Z)
    (s : state) :
  is_verifiable (order_book s) = true ->
  verify (order_book s) value = Ok false ->
  dict_get str_eq_dec (lit "sub_id") subscription = Some sub_id ->
  Forall (fun kv => last_checksum_timestamp s < fst kv)
    (timestamp_orderbook_update_map s) ->
  exists s' l,
    on_checksum subscription value timestamp s = Ok (tt, s', l)
    /\ written l = [(journal_path (last_checksum_timestamp s) true, [])]
    /\ timestamp_orderbook_update_map s' = [].
Proof.
  intros Hv Hm Hid Hlate.
  rewrite (on_checksum_mismatch _ _ _ _ Hv Hm). cbv zeta. rewrite Hid.
  rewrite (until_nothing _ _ Hlate).
  eexists _, _. repeat split.
Qed.

(** A subscription without the key [sub_id] makes the resync raise
    [KeyError]: a checksum mismatch on a book deep enough then ends in
    that exception. *)
Theorem resync_without_sub_id_raises (subscription : Subscription)
    (value timestamp : Z) (s : state) :
  dict_get str_eq_dec (lit "sub_id") subscription = None ->
  _reset_connection subscription s = Raise KeyError
  /\ (is_verifiable (order_book s) = true ->
      verify (order_book s) value = Ok false ->
      on_checksum subscription value timestamp s = Raise KeyError).
Proof.
  intro Hid. split.
  - rewrite reset_connection_eq, Hid. reflexivity.
  - intros Hv Hm. rewrite (on_checksum_mismatch _ _ _ _ Hv Hm).
    cbv zeta. rewrite Hid. reflexivity.
Qed.

(** ** Invariants of the book and of the journal *)

Lemma Forall_dict_set {K V : Type} (K_eq_dec : forall x y : K, {x = y} + {x <> y})
    (P : K * V -> Prop) k v (d : dict K V) :
  P (k, v) -> Forall P d -> Forall P (dict_set K_eq_dec k v d).
Proof.
  intros Hkv H. induction H as [|[k1 v1] d H1 Hd IH]; simpl.
  - constructor; [exact Hkv | constructor].
  - destruct (K_eq_dec k k1) as [<-|]; constructor; auto.
Qed.

Lemma Forall_dict_remove {K V : Type} {same : K -> K -> Prop}
    (K_eq_dec : forall x y : K, {same x y} + {~ same x y})
    (P : K * V -> Prop) k (d : dict K V) :
  Forall P d -> Forall P (dict_remove K_eq_dec k d).
Proof.
  intro H. induction H as [|[k1 v1] d H1 Hd IH]; simpl; [constructor|].
  destruct (K_eq_dec k k1); [exact Hd | now constructor].
Qed.

(** On a side the new level goes under the key already there, when one
    equals its price. *)
Lemma Forall_side_set (P : number * level -> Prop) k v (s : side) :
  (forall k1, num_eq k k1 -> P (k1, v)) ->
  Forall P s -> Forall P (dict_set num_eq_dec k v s).
Proof.
  intros Hkv H. induction H as [|[k1 v1] s H1 Hs IH]; cbn [dict_set].
  - constructor; [apply Hkv; reflexivity | constructor].
  - destruct (num_eq_dec k k1) as [E|E]; constructor; auto.
Qed.

Lemma book_ok_sides b :
  book_ok b <->
  forall k, NoDup (key_units (get_side k b)) /\ Forall (level_ok k) (get_side k b).
Proof.
  unfold book_ok, unique_prices. split.
  - intros ((H1 & H2) & H3 & H4) [|]; simpl; auto.
  - intro H. destruct (H bids) as [H1 H3], (H asks) as [H2 H4]. simpl in *.
    auto.
Qed.

Lemma book_ok_set_side k s b :
  book_ok b -> NoDup (key_units s) -> Forall (level_ok k) s ->
  book_ok (set_side k s b).
Proof.
  intros ((H1 & H2) & H3 & H4) Hn Hf.
  destruct k; repeat split; simpl; assumption.
Qed.

Lemma update_book_ok b data b' :
  book_ok b -> update b data = Ok b' -> book_ok b'.
Proof.
  intros Hb. rewrite update_eq. intro H. injection H as <-. cbv zeta.
  set (k := kind_of (amount data)).
  destruct (proj1 (book_ok_sides b) Hb k) as [Hn Hf].
  destruct (count data >? 0) eqn:Hpos.
  - apply book_ok_set_side; [exact Hb | now apply NoDup_key_units_set |].
    apply Forall_side_set; [|exact Hf].
    intros k1 Hk1.
    apply Z.gtb_lt in Hpos. unfold level_ok. cbn [fst snd level_p level_c level_a].
    split; [exact Hk1|]. split; [lia | reflexivity].
  - destruct (count data =? 0); [|exact Hb].
    destruct (dict_mem _ _ _); [|exact Hb].
    apply book_ok_set_side;
      [exact Hb | now apply NoDup_key_units_remove | now apply Forall_dict_remove].
Qed.

Lemma apply_all_book_ok history b b' :
  book_ok b -> apply_all b history = Ok b' -> book_ok b'.
Proof.
  revert b. induction history as [|data r IH]; intros b Hb H; simpl in H.
  - now injection H as <-.
  - rewrite update_eq in H. cbn [bind] in H.
    eapply IH; [|exact H]. eapply update_book_ok; [exact Hb | apply update_eq].
Qed.

Lemma empty_book_ok : book_ok empty_book.
Proof. repeat split; constructor. Qed.

(** Whatever messages [update] has received, every level in the book is
    filed under a key equal to its own price, has a positive count and lies
    on the side its amount selects, and no price occurs twice on a side. *)
Theorem update_keeps_book_well_formed (history : list TradingPairBook) :
  exists b, apply_all empty_book history = Ok b /\ book_ok b.
Proof.
  destruct (apply_all_unique_prices history empty_book) as (b & Hb & _).
  { split; constructor. }
  exists b. split; [exact Hb|].
  eapply apply_all_book_ok; [apply empty_book_ok | exact Hb].
Qed.

Lemma journal_ok_set (j : journal) k e :
  journal_ok j -> entry_ok e -> journal_ok (dict_set Z.eq_dec k e j).
Proof.
  intros [Hn Hf] He. split.
  - now apply NoDup_keys_set.
  - now apply Forall_dict_set.
Qed.

Lemma dict_get_Forall {K V : Type}
    (K_eq_dec : forall x y : K, {x = y} + {x <> y})
    (P : K * V -> Prop) k v (d : dict K V) :
  Forall P d -> dict_get K_eq_dec k d = Some v -> P (k, v).
Proof.
  intro H. induction H as [|[k1 v1] d H1 _ IH]; simpl; [discriminate|].
  destruct (K_eq_dec k k1) as [->|Hne]; [|exact IH].
  intro E. now injection E as <-.
Qed.

Lemma journal_record_ok data timestamp j j' :
  journal_ok j -> journal_record data timestamp j = Ok j' -> journal_ok j'.
Proof.
  intros Hj. unfold journal_record.
  destruct (dict_mem Z.eq_dec timestamp j).
  - destruct (dict_get Z.eq_dec timestamp j) as [[b|ps amounts cs]|] eqn:E;
      try discriminate.
    intro H. injection H as <-. apply journal_ok_set; [exact Hj|].
    destruct Hj as [_ Hf].
    apply (dict_get_Forall Z.eq_dec _ _ _ _ Hf) in E.
    cbn [snd entry_ok] in *. destruct E as (E1 & E2 & E3).
    rewrite !length_app. cbn [length]. repeat split; try lia.
    intro Hnil. apply app_eq_nil in Hnil as [_ Hnil]. discriminate.
  - intro H. injection H as <-. apply journal_ok_set; [exact Hj|].
    cbn. repeat split. discriminate.
Qed.

Lemma keys_filter_NoDup (j : journal) f :
  NoDup (keys j) -> NoDup (keys (filter f j)).
Proof.
  induction j as [|kv j IH]; simpl; intro H; [constructor|].
  inversion H as [|? ? Hnin Hnd]; subst.
  destruct (f kv); simpl; [|auto].
  constructor; [|auto]. intro Hin. apply Hnin.
  unfold keys in *. apply in_map_iff in Hin as (x & Hx & Hin).
  apply filter_In in Hin as [Hin _]. apply in_map_iff. eauto.
Qed.

Lemma journal_ok_until j t :
  journal_ok j -> journal_ok (_get_orderbook_updates_until j t).
Proof.
  intros [Hn Hf]. unfold _get_orderbook_updates_until. split.
  - now apply keys_filter_NoDup.
  - apply Forall_forall. intros kv Hin. apply filter_In in Hin as [Hin _].
    now apply (proj1 (Forall_forall _ _) Hf).
Qed.

Lemma journal_ok_nil : journal_ok [].
Proof. split; constructor. Qed.

(** One handler keeps the globals well formed and writes only well-formed
    journals. *)
Lemma handle_state_ok ev s s' l :
  state_ok s -> handle ev s = Ok (tt, s', l) ->
  state_ok s' /\ Forall (fun pc => journal_ok (snd pc)) (written l).
Proof.
  intros [Hb Hj] H.
  destruct ev as [|sub|sub snap ts|sub data ts|sub v ts]; cbn [handle] in H.
  - unfold on_open, call in H. injection H as <- <-.
    split; [now split | constructor].
  - unfold on_subscribed in H.
    destruct (subscript sub (lit "symbol")) as [sym|e]; [|discriminate].
    rewrite bindM_lift_ok in H. unfold call in H. injection H as <- <-.
    split; [now split | constructor].
  - destruct (on_t_book_snapshot_eq sub snap ts s) as (b & Hab & E).
    rewrite E in H. injection H as <- <-.
    assert (Hb' : book_ok b) by (eapply apply_all_book_ok; eassumption).
    split; [|constructor]. split; [exact Hb'|].
    cbn [timestamp_orderbook_update_map set_journal].
    now apply journal_ok_set.
  - destruct (are_new_messages_to_drop s) eqn:Hdrop.
    + rewrite (on_t_book_update_dropped _ _ _ _ Hdrop) in H.
      injection H as <- <-. split; [now split | constructor].
    + destruct (order_book_update_eq data s) as (b & Hub & _).
      assert (Hb' : book_ok b) by (eapply update_book_ok; eassumption).
      destruct (journal_record data ts (timestamp_orderbook_update_map s))
        as [j|e] eqn:Hrec.
      * assert (Hj' : journal_ok j) by (eapply journal_record_ok; eassumption).
        destruct (Z_lt_le_dec ts (ending_timestamp s)) as [Hlt|Hle].
        -- rewrite (on_t_book_update_open _ _ _ _ b j Hdrop Hub Hrec Hlt) in H.
           injection H as <- <-. split; [now split | constructor].
        -- rewrite (on_t_book_update_close _ _ _ _ b j Hdrop Hub Hrec Hle) in H.
           cbv zeta in H.
           destruct (dict_get str_eq_dec (lit "sub_id") sub); [|discriminate].
           injection H as <- <-. split.
           ++ split; [apply empty_book_ok | apply journal_ok_nil].
           ++ cbn [written reset_log]. constructor; [|constructor].
              cbn [snd]. now apply journal_ok_set.
      * exfalso. unfold on_t_book_update in H.
        rewrite bindM_get, Hdrop in H.
        rewrite (bindM_order_book_update data _ s b Hub), bindM_get in H.
        cbn [timestamp_orderbook_update_map set_order_book] in H.
        rewrite Hrec in H. discriminate.
  - destruct (is_verifiable (order_book s)) eqn:Hv.
    + destruct (verify (order_book s) v) as [[|]|e] eqn:Hm.
      * rewrite (on_checksum_match _ _ _ _ Hv Hm) in H.
        injection H as <- <-. split; [now split | constructor].
      * rewrite (on_checksum_mismatch _ _ _ _ Hv Hm) in H. cbv zeta in H.
        destruct (dict_get str_eq_dec (lit "sub_id") sub); [|discriminate].
        injection H as <- <-. split.
        -- split; [apply empty_book_ok | apply journal_ok_nil].
        -- cbn [written reset_log]. constructor; [|constructor].
           cbn [snd]. now apply journal_ok_until.
      * exfalso. unfold on_checksum in H.
        rewrite bindM_get, Hv, Hm in H. discriminate.
    + unfold on_checksum in H. rewrite bindM_get, Hv in H.
      injection H as <- <-. split; [now split | constructor].
Qed.

Lemma written_app l1 l2 : written (l1 ++ l2) = written l1 ++ written l2.
Proof.
  induction l1 as [|[e s] l1 IH]; [reflexivity|].
  destruct e; cbn [written app]; rewrite ?IH; reflexivity.
Qed.

Lemma run_state_ok events s s' l :
  state_ok s -> run events s = Ok (s', l) ->
  state_ok s' /\ Forall (fun pc => journal_ok (snd pc)) (written l).
Proof.
  revert s l. induction events as [|ev r IH]; intros s l Hs H.
  - cbn in H. injection H as <- <-. split; [exact Hs | constructor].
  - cbn [run] in H.
    destruct (handle ev s) as [[[[] s1] l1]|e] eqn:Hh; [|discriminate].
    destruct (run r s1) as [[s2 l2]|e] eqn:Hr; [|discriminate].
    injection H as <- <-.
    destruct (handle_state_ok ev s s1 l1 Hs Hh) as [Hs1 Hw1].
    destruct (IH s1 l2 Hs1 Hr) as [Hs2 Hw2].
    split; [exact Hs2|]. rewrite written_app. apply Forall_app. now split.
Qed.

(** Over any stream of events handled from the start of the script, the
    book stays well formed, the journal has no duplicate key, every list
    record in it holds three lists of one length, every copy in it is a
    well-formed book, and every file written has the same shape. *)
Theorem run_keeps_state_well_formed (events : list event) (s : state)
    (l : log) :
  run events initial_state = Ok (s, l) ->
  state_ok s /\ Forall (fun pc => journal_ok (snd pc)) (written l).
Proof.
  apply run_state_ok. split; [apply empty_book_ok | apply journal_ok_nil].
Qed.

(** ** [verify] does not depend on the order of arrival *)

(** Neither [x < y] nor [y < x] only when [x == y]. *)
Lemma num_ltb_total x y :
  num_ltb x y = false -> num_ltb y x = false -> num_eq x y.
Proof. unfold num_ltb, num_eq. rewrite !Z.ltb_ge. lia. Qed.

(** Two sorted lists with the same elements, whose keys identify the
    elements, are equal. *)
Lemma sorted_lists_unique {A : Type} (key : A -> number) (l1 l2 : list A) :
  (forall x y, In x l1 -> In y l1 -> num_eq (key x) (key y) -> x = y) ->
  Permutation l1 l2 ->
  StronglySorted (key_le key) l1 -> StronglySorted (key_le key) l2 ->
  l1 = l2.
Proof.
  revert l2. induction l1 as [|x r1 IH]; intros l2 Hinj Hp H1 H2.
  - apply Permutation_nil in Hp. now subst.
  - destruct l2 as [|y r2].
    { symmetry in Hp. now apply Permutation_nil in Hp. }
    inversion H1 as [|? ? Hs1 Hf1]; subst.
    inversion H2 as [|? ? Hs2 Hf2]; subst.
    assert (Hxy : x = y).
    { assert (Hyin : In y (x :: r1)).
      { eapply Permutation_in; [symmetry; exact Hp | now left]. }
      assert (Hxin : In x (y :: r2)).
      { eapply Permutation_in; [exact Hp | now left]. }
      destruct Hyin as [E|Hyin]; [exact E|].
      destruct Hxin as [E|Hxin]; [now symmetry|].
      apply Hinj; [now left | now right |].
      apply num_ltb_total.
      - apply (proj1 (Forall_forall _ _) Hf2 x Hxin).
      - apply (proj1 (Forall_forall _ _) Hf1 y Hyin). }
    subst y. f_equal. apply IH; auto.
    + intros a b Ha Hb. apply Hinj; now right.
    + eapply Permutation_cons_inv, Hp.
Qed.

Lemma sorted_permutation_eq {A : Type} (key : A -> number) (l1 l2 : list A) :
  (forall x y, In x l1 -> In y l1 -> num_eq (key x) (key y) -> x = y) ->
  Permutation l1 l2 -> sorted key l1 = sorted key l2.
Proof.
  intros Hinj Hp. apply (sorted_lists_unique key).
  - intros x y Hx Hy. apply Hinj.
    + exact (Permutation_in x (sorted_perm key l1) Hx).
    + exact (Permutation_in y (sorted_perm key l1) Hy).
  - rewrite (sorted_perm key l1), (sorted_perm key l2). exact Hp.
  - apply sorted_sorted.
  - apply sorted_sorted.
Qed.

Lemma NoDup_key_units_In_eq (s : side) a b :
  NoDup (key_units s) -> In a s -> In b s ->
  num_eq (fst a) (fst b) -> a = b.
Proof.
  unfold key_units, keys, num_eq.
  induction s as [|kv s IH]; cbn [map]; intros Hn Ha Hb E; [contradiction|].
  inversion Hn as [|? ? Hnin Hnd]; subst.
  destruct Ha as [->|Ha], Hb as [->|Hb].
  - reflexivity.
  - exfalso. apply Hnin. rewrite E.
    apply (in_map num_units), (in_map fst), Hb.
  - exfalso. apply Hnin. rewrite <- E.
    apply (in_map num_units), (in_map fst), Ha.
  - now apply IH.
Qed.

Lemma side_levels_price_inj k (s : side) x y :
  NoDup (key_units s) -> Forall (level_ok k) s ->
  In x (side_levels s) -> In y (side_levels s) ->
  num_eq (fst (fst x)) (fst (fst y)) -> x = y.
Proof.
  intros Hn Hf Hx Hy E. unfold side_levels in *.
  apply in_map_iff in Hx as (a & <- & Ha).
  apply in_map_iff in Hy as (b & <- & Hb).
  assert (Hab : a = b).
  { apply (NoDup_key_units_In_eq s); auto.
    destruct (proj1 (Forall_forall _ _) Hf a Ha) as (Ea & _).
    destruct (proj1 (Forall_forall _ _) Hf b Hb) as (Eb & _).
    cbn [triple_of fst] in E. unfold num_eq in *. congruence. }
  now subst.
Qed.

(** The result of [verify] depends on the levels a side holds, not on the
    order in which they were inserted: two well-formed books whose sides
    hold the same levels give the same result for every checksum. *)
Theorem verify_order_independent (b b' : OrderBook) (checksum : Z) :
  book_ok b ->
  Permutation (book_bids b) (book_bids b') ->
  Permutation (book_asks b) (book_asks b') ->
  verify b checksum = verify b' checksum.
Proof.
  intros ((Hn1 & Hn2) & Hf1 & Hf2) Hpb Hpa.
  assert (Hbids : sorted_bids b = sorted_bids b').
  { unfold sorted_bids. apply sorted_permutation_eq.
    - intros x y Hx Hy E.
      apply (side_levels_price_inj bids (book_bids b) x y Hn1 Hf1 Hx Hy).
      unfold num_eq in *. rewrite !num_units_neg in E. lia.
    - now apply Permutation_map. }
  assert (Hasks : sorted_asks b = sorted_asks b').
  { unfold sorted_asks. apply sorted_permutation_eq.
    - intros x y Hx Hy E.
      exact (side_levels_price_inj asks (book_asks b) x y Hn2 Hf2 Hx Hy E).
    - now apply Permutation_map. }
  unfold verify. now rewrite Hbids, Hasks.
Qed.

(** ** Decimal expansions *)

Lemma digit19_val_inj l l' : digit19_val l = digit19_val l' -> l = l'.
Proof. destruct l, l'; simpl; intro H; try reflexivity; discriminate. Qed.

Lemma digit19_val_range l : 1 <= digit19_val l <= 9.
Proof. destruct l; simpl; lia. Qed.

Lemma mantissa_mod10 high last : mantissa high last mod 10 = digit19_val last.
Proof.
  unfold mantissa. pose proof (digit19_val_range last).
  rewrite Z.add_comm, Z.mul_comm, Z.mod_add by lia.
  apply Z.mod_small. lia.
Qed.

Lemma mantissa_inj high last high' last' :
  mantissa high last = mantissa high' last' -> high = high' /\ last = last'.
Proof.
  intro H.
  assert (Hl : digit19_val last = digit19_val last').
  { rewrite <- (mantissa_mod10 high last), <- (mantissa_mod10 high' last').
    now rewrite H. }
  split; [|now apply digit19_val_inj].
  unfold mantissa in H. lia.
Qed.

Lemma mantissa_pow_lt high last high' last' a b :
  0 <= a < b ->
  mantissa high last * 10 ^ a <> mantissa high' last' * 10 ^ b.
Proof.
  intros Hab H.
  replace b with ((b - a - 1) + 1 + a) in H by lia.
  rewrite !Z.pow_add_r in H by lia.
  assert (Hp : 0 < 10 ^ a) by (apply Z.pow_pos_nonneg; lia).
  assert (Hm : mantissa high last
               = mantissa high' last' * 10 ^ (b - a - 1) * 10) by nia.
  pose proof (mantissa_mod10 high last) as Hmod.
  rewrite Hm, Z.mod_mul in Hmod by lia.
  pose proof (digit19_val_range last). lia.
Qed.

Lemma mantissa_pow_inj high last high' last' a b :
  0 <= a -> 0 <= b ->
  mantissa high last * 10 ^ a = mantissa high' last' * 10 ^ b ->
  a = b /\ high = high' /\ last = last'.
Proof.
  intros Ha Hb H.
  destruct (Z.lt_trichotomy a b) as [Hlt|[Heq|Hgt]].
  - exfalso. eapply mantissa_pow_lt; [|exact H]. lia.
  - subst b. split; [reflexivity|]. apply mantissa_inj.
    assert (Hp : 0 < 10 ^ a) by (apply Z.pow_pos_nonneg; lia). nia.
  - exfalso. symmetry in H. eapply mantissa_pow_lt; [|exact H]. lia.
Qed.

(** Two floats with the same numerator over a common power of ten are the
    same float. *)
Lemma scaled_inj x y e :
  e <= exponent_of x -> e <= exponent_of y ->
  scaled e x = scaled e y -> x = y.
Proof.
  intros Hx Hy H.
  destruct x as [|neg high last dexp], y as [|neg' high' last' dexp'];
    cbn [scaled exponent_of] in *.
  - reflexivity.
  - exfalso. pose proof (mantissa_pos high' last').
    assert (0 < 10 ^ (dexp' - e)) by (apply Z.pow_pos_nonneg; lia).
    destruct neg'; nia.
  - exfalso. pose proof (mantissa_pos high last).
    assert (0 < 10 ^ (dexp - e)) by (apply Z.pow_pos_nonneg; lia).
    destruct neg; nia.
  - pose proof (mantissa_pos high last). pose proof (mantissa_pos high' last').
    assert (0 < 10 ^ (dexp - e)) by (apply Z.pow_pos_nonneg; lia).
    assert (0 < 10 ^ (dexp' - e)) by (apply Z.pow_pos_nonneg; lia).
    assert (Hneg : neg = neg') by (destruct neg, neg'; try reflexivity; nia).
    subst neg'.
    assert (Hm : mantissa high last * 10 ^ (dexp - e)
                 = mantissa high' last' * 10 ^ (dexp' - e))
      by (destruct neg; lia).
    apply mantissa_pow_inj in Hm as (He & Hh & Hl); [|lia|lia].
    subst. f_equal. lia.
Qed.

(** ** Reading digits back *)

Lemma digits_value_app acc s t :
  digits_value acc (s ++ t)
  = match digits_value acc s with
    | Some n => digits_value n t
    | None => None
    end.
Proof.
  revert acc. induction s as [|ch s IH]; intro acc; [reflexivity|].
  cbn [app digits_value]. destruct (is_digit ch); [apply IH | reflexivity].
Qed.

Lemma digits_value_uint_acc d acc :
  digits_value (N.pos acc) (uint_chars d) = Some (N.pos (Pos.of_uint_acc d acc)).
Proof.
  revert acc. induction d; intro acc; cbn [uint_chars Pos.of_uint_acc];
    [reflexivity | ..];
    cbn [digits_value]; 
    match goal with
    | |- (if is_digit ?c then _ else _) = _ =>
        change (is_digit c) with true; cbv beta iota
    end;
    match goal with
    | |- digits_value ?a _ = Some (N.pos (Pos.of_uint_acc _ ?b)) =>
        replace a with (N.pos b)
          by (set (k := (N_of_ascii _ - 48)%N); vm_compute in k; subst k; lia)
    end;
    apply IHd.
Qed.

Lemma digits_value_uint d :
  digits_value 0 (uint_chars d) = Some (Pos.of_uint d).
Proof.
  induction d; cbn [uint_chars Pos.of_uint]; [reflexivity | exact IHd | ..];
    cbn [digits_value];
    match goal with
    | |- (if is_digit ?c then _ else _) = _ =>
        change (is_digit c) with true; cbv beta iota
    end;
    match goal with
    | |- digits_value ?a _ = Some (N.pos (Pos.of_uint_acc _ ?b)) =>
        change a with (N.pos b)
    end;
    apply digits_value_uint_acc.
Qed.

Lemma digits_value_pos q :
  digits_value 0 (uint_chars (Pos.to_uint q)) = Some (N.pos q).
Proof. rewrite digits_value_uint. f_equal. apply DecimalPos.Unsigned.of_to. Qed.

(** [int(str(n)) == n]. *)
Lemma digits_value_str_of_N n : digits_value 0 (str_of_N n) = Some n.
Proof.
  destruct n as [|q]; [reflexivity|]. apply digits_value_pos.
Qed.

Lemma digits_value_str_of_int z :
  0 <= z -> digits_value 0 (str_of_int z) = Some (Z.to_N z).
Proof.
  intro Hz. destruct z as [|q|q]; [reflexivity | apply digits_value_pos | lia].
Qed.

Lemma digits_value_repeat_zero acc k :
  digits_value acc (repeat "0"%char k) = Some (acc * 10 ^ N.of_nat k)%N.
Proof.
  revert acc. induction k as [|k IH]; intro acc.
  - cbn. f_equal. lia.
  - cbn [repeat digits_value]. change (is_digit "0") with true. cbv beta iota.
    rewrite IH. f_equal.
    change (N_of_ascii "0" - 48)%N with 0%N.
    replace (N.of_nat (S k)) with (N.succ (N.of_nat k)) by lia.
    rewrite N.pow_succ_r'. lia.
Qed.

Lemma digits_value_zeros acc k :
  0 <= k -> digits_value acc (zeros k) = Some (acc * 10 ^ Z.to_N k)%N.
Proof.
  intro Hk. unfold zeros. rewrite digits_value_repeat_zero.
  replace (N.of_nat (Z.to_nat k)) with (Z.to_N k) by lia. reflexivity.
Qed.

Lemma digits_value_mantissa high last :
  exists n, digits_value 0 (mant_digits high last) = Some n
            /\ Z.of_N n = mantissa high last.
Proof.
  unfold mant_digits, mantissa. rewrite digits_value_app.
  assert (Hd : forall acc,
            exists n, digits_value acc [digit19_char last] = Some n
                      /\ Z.of_N n = 10 * Z.of_N acc + digit19_val last).
  { intro acc. destruct last; cbn [digit19_char digit19_val digits_value];
      match goal with
      | |- exists n, (if is_digit ?c then _ else _) = _ /\ _ =>
          change (is_digit c) with true; cbv beta iota
      end;
      (eexists; split; [reflexivity|]);
      set (k := (N_of_ascii _ - 48)%N); vm_compute in k; subst k; lia. }
  destruct high as [|q].
  - cbn [digits_value]. apply Hd.
  - rewrite digits_value_pos. apply Hd.
Qed.

(** The exponent [printf] writes is read back as it was. *)
Lemma parse_exponent_exp_str_eq e : parse_exponent (exp_str e) = Ok e.
Proof.
  unfold exp_str, parse_exponent.
  set (body := if Z.abs e <? 10 then "0"%char :: str_of_int (Z.abs e)
               else str_of_int (Z.abs e)).
  assert (Hv : digits_value 0 body = Some (Z.to_N (Z.abs e))).
  { unfold body. destruct (Z.abs e <? 10).
    - cbn [digits_value]. change (is_digit "0") with true. cbv beta iota.
      apply digits_value_str_of_int, Z.abs_nonneg.
    - apply digits_value_str_of_int, Z.abs_nonneg. }
  assert (Hne : body <> []).
  { unfold body. destruct (str_of_int_digits (Z.abs e) (Z.abs_nonneg e)) as [_ H].
    destruct (Z.abs e <? 10); [discriminate | exact H]. }
  assert (Hs : split_sign ((if e <? 0 then "-"%char else "+"%char) :: body)
               = (e <? 0, body)).
  { destruct (e <? 0); reflexivity. }
  rewrite Hs. cbv beta iota. clearbody body.
  destruct body as [|ch body']; [congruence|].
  rewrite Hv. f_equal.
  destruct (Z.ltb_spec e 0); rewrite Z2N.id by apply Z.abs_nonneg; lia.
Qed.

Lemma parse_exponent_minus z :
  0 < z -> parse_exponent ("-"%char :: str_of_int z) = Ok (- z).
Proof.
  intro Hz. unfold parse_exponent.
  change (split_sign ("-"%char :: str_of_int z)) with (true, str_of_int z).
  cbv beta iota.
  destruct (str_of_int_digits z ltac:(lia)) as [_ Hne].
  pose proof (digits_value_str_of_int z ltac:(lia)) as Hv.
  destruct (str_of_int z) as [|ch r]; [congruence|].
  rewrite Hv. f_equal. rewrite Z2N.id by lia. reflexivity.
Qed.

(** ** [Decimal] reads a numeric string exactly *)

Lemma Decimal_of_str_layout neg ip frac tail ex n :
  ip <> [] -> all_digits ip = true ->
  all_digits (frac_digits frac) = true ->
  (tail = [] \/ exists r, tail = "e"%char :: r) ->
  parse_exponent_part tail = Ok ex ->
  digits_value 0 (ip ++ frac_digits frac) = Some n ->
  Decimal_of_str (numeric neg ip frac None ++ tail)
  = Ok {| _sign := neg; _int := str_of_N n;
          _exp := ex - len (frac_digits frac) |}.
Proof.
  intros Hne Hip Hfp Htail Hex Hn. unfold numeric, Decimal_of_str.
  rewrite app_nil_r.
  set (rest := match frac with Some fp => "."%char :: fp | None => [] end ++ tail).
  assert (Hshape : ((if neg then lit "-" else []) ++ ip
                    ++ match frac with Some fp => "."%char :: fp | None => [] end)
                   ++ tail
                   = (if neg then lit "-" else []) ++ ip ++ rest).
  { unfold rest. now rewrite <- !app_assoc. }
  rewrite Hshape.
  assert (Htl : not_digit_start tail).
  { destruct Htail as [->|[r ->]]; simpl; auto. }
  assert (Hrest : not_digit_start rest).
  { unfold rest. destruct frac; simpl; auto. }
  assert (Hsign : split_sign ((if neg then lit "-" else []) ++ ip ++ rest)
                  = (neg, ip ++ rest)).
  { destruct neg; simpl; [reflexivity|].
    destruct ip as [|ch ip']; [congruence|]. simpl in Hip.
    apply andb_true_iff in Hip as [Hch _]. now apply digit_not_sign. }
  rewrite Hsign. cbv beta iota.
  rewrite (span_digits_app ip rest Hip Hrest). cbv beta iota.
  assert (Hfrac : split_fraction rest = (frac_digits frac, tail)).
  { unfold rest. destruct frac as [f|]; cbn [frac_digits app].
    - cbn [split_fraction]. now apply span_digits_app.
    - destruct Htail as [->|[r ->]]; reflexivity. }
  rewrite Hfrac. cbv beta iota.
  assert (Hlen : (length ip + length (frac_digits frac) =? 0)%nat = false).
  { apply Nat.eqb_neq. destruct ip; simpl; [congruence | lia]. }
  rewrite Hlen, Hex. cbn [bind]. rewrite Hn. reflexivity.
Qed.

(** The layout of [repr] with the number it writes: the digits before and
    after the point read [n], and [n * 10^(ex - length of the fraction)]
    is the float. *)
Lemma float_repr_value neg high last dexp :
  let decpt := decpt_of high last dexp in
  let ex := if (decpt <=? -4) || (16 <? decpt) then Some (decpt - 1) else None in
  exists ip frac n,
    float_repr (FNum neg high last dexp) = numeric neg ip frac ex
    /\ ip <> [] /\ all_digits ip = true /\ good_frac frac
    /\ digits_value 0 (ip ++ frac_digits frac) = Some n
    /\ exists e,
         e <= match ex with Some x => x | None => 0 end - len (frac_digits frac)
         /\ e <= dexp
         /\ Z.of_N n
            * 10 ^ (match ex with Some x => x | None => 0 end
                    - len (frac_digits frac) - e)
            = mantissa high last * 10 ^ (dexp - e).
Proof.
  intros decpt ex. subst ex. unfold float_repr. fold decpt.
  set (digits := mant_digits high last).
  assert (Hd : all_digits digits = true) by apply mant_digits_digits.
  assert (Hn : digits <> []) by apply mant_digits_nonempty.
  assert (Hl := len_pos digits Hn).
  destruct (digits_value_mantissa high last) as (m & Hm & Hmv).
  fold digits in Hm.
  assert (Hdec : decpt = len digits + dexp) by reflexivity.
  destruct ((decpt <=? -4) || (16 <? decpt)) eqn:Hsci.
  - exists (firstn 1 digits),
      (if 1 <? len digits then Some (skipn 1 digits) else None), m.
    split; [unfold numeric; destruct (1 <? len digits); reflexivity|].
    split; [apply firstn_nonempty; [lia | exact Hn]|].
    split; [now apply all_digits_firstn|].
    destruct (1 <? len digits) eqn:H1; cbn [good_frac frac_digits].
    + apply Z.ltb_lt in H1.
      split; [split; [now apply all_digits_skipn|];
              apply skipn_nonempty; unfold len in H1; lia|].
      split; [now rewrite firstn_skipn|].
      assert (Hlen : len (skipn 1 digits) = len digits - 1).
      { unfold len in *. rewrite length_skipn. lia. }
      exists dexp. rewrite Hlen.
      replace (decpt - 1 - (len digits - 1)) with dexp by lia.
      split; [lia|]. split; [lia|]. now rewrite Hmv.
    + apply Z.ltb_ge in H1.
      split; [exact I|]. rewrite app_nil_r.
      assert (Hone : firstn 1 digits = digits).
      { apply firstn_all2. unfold len in *. lia. }
      rewrite Hone. split; [exact Hm|].
      exists dexp. change (len (@nil ascii)) with 0.
      replace (decpt - 1 - 0) with dexp by lia.
      split; [lia|]. split; [lia|]. now rewrite Hmv.
  - destruct (decpt <=? 0) eqn:H0.
    + apply Z.leb_le in H0.
      exists (lit "0"), (Some (zeros (- decpt) ++ digits)), m.
      split; [unfold numeric; rewrite app_nil_r; reflexivity|].
      split; [discriminate|]. split; [reflexivity|].
      cbn [good_frac frac_digits].
      split; [split; [rewrite all_digits_app, all_digits_zeros, Hd; reflexivity|];
              intro E; apply app_eq_nil in E as [_ E]; contradiction|].
      split.
      { change (lit "0" ++ zeros (- decpt) ++ digits)
          with ("0"%char :: zeros (- decpt) ++ digits).
        cbn [digits_value]. change (is_digit "0") with true. cbv beta iota.
        rewrite digits_value_app, digits_value_zeros by lia.
        change (10 * 0 + (N_of_ascii "0" - 48))%N with 0%N.
        rewrite N.mul_0_l. exact Hm. }
      assert (Hlen : len (zeros (- decpt) ++ digits) = - decpt + len digits).
      { unfold len, zeros. rewrite length_app, repeat_length. lia. }
      exists dexp. rewrite Hlen.
      replace (0 - (- decpt + len digits)) with dexp by lia.
      split; [lia|]. split; [lia|]. now rewrite Hmv.
    + apply Z.leb_gt in H0. destruct (len digits <=? decpt) eqn:H2.
      * apply Z.leb_le in H2.
        exists (digits ++ zeros (decpt - len digits)), (Some (lit "0")),
          (m * 10 ^ Z.to_N (decpt - len digits) * 10)%N.
        split; [unfold numeric; rewrite app_nil_r, <- app_assoc; reflexivity|].
        split; [intro E; apply app_eq_nil in E as [E _]; contradiction|].
        split; [rewrite all_digits_app, all_digits_zeros, Hd; reflexivity|].
        cbn [good_frac frac_digits].
        split; [split; [reflexivity | discriminate]|].
        split.
        { rewrite !digits_value_app, Hm, digits_value_zeros by lia.
          cbn [lit list_ascii_of_string digits_value].
          change (is_digit "0") with true. cbv beta iota. f_equal.
          change (N_of_ascii "0" - 48)%N with 0%N. lia. }
        exists (-1). change (len (lit "0")) with 1.
        split; [lia|]. split; [lia|].
        replace (0 - 1 - -1) with 0 by lia. rewrite Z.pow_0_r, Z.mul_1_r.
        rewrite !N2Z.inj_mul, N2Z.inj_pow, Z2N.id, Hmv by lia.
        replace (dexp - -1) with ((decpt - len digits) + 1) by lia.
        rewrite Z.pow_add_r by lia. change (Z.of_N 10) with 10. ring.
      * apply Z.leb_gt in H2.
        exists (firstn (Z.to_nat decpt) digits),
          (Some (skipn (Z.to_nat decpt) digits)), m.
        split; [unfold numeric; rewrite app_nil_r; reflexivity|].
        split; [apply firstn_nonempty; [lia | exact Hn]|].
        split; [now apply all_digits_firstn|].
        cbn [good_frac frac_digits].
        split; [split; [now apply all_digits_skipn|];
                apply skipn_nonempty; unfold len in H2; lia|].
        split; [now rewrite firstn_skipn|].
        assert (Hlen : len (skipn (Z.to_nat decpt) digits) = len digits - decpt).
        { unfold len in *. rewrite length_skipn. lia. }
        exists dexp. rewrite Hlen.
        replace (0 - (len digits - decpt)) with dexp by lia.
        split; [lia|]. split; [lia|]. now rewrite Hmv.
Qed.

Lemma numeric_split neg ip frac ex :
  numeric neg ip frac ex
  = numeric neg ip frac None
    ++ match ex with Some e => "e"%char :: exp_str e | None => [] end.
Proof. unfold numeric. now rewrite app_nil_r, <- !app_assoc. Qed.

Lemma good_frac_digits frac : good_frac frac -> all_digits (frac_digits frac) = true.
Proof. destruct frac; simpl; [tauto | reflexivity]. Qed.

Lemma Decimal_scaled_mk e sg n ex :
  Decimal_scaled e {| _sign := sg; _int := str_of_N n; _exp := ex |}
  = Some ((if sg then -1 else 1) * Z.of_N n * 10 ^ (ex - e)).
Proof. unfold Decimal_scaled. cbn [_int _sign _exp]. now rewrite digits_value_str_of_N. Qed.

(** Equal numerators over one power of ten stay equal over a smaller
    one. *)
Lemma pow_shift_eq n a m b e e' :
  e' <= e -> e <= a -> e <= b ->
  n * 10 ^ (a - e) = m * 10 ^ (b - e) ->
  n * 10 ^ (a - e') = m * 10 ^ (b - e').
Proof.
  intros H1 H2 H3 H.
  replace (a - e') with ((a - e) + (e - e')) by lia.
  replace (b - e') with ((b - e) + (e - e')) by lia.
  rewrite !Z.pow_add_r by lia. rewrite !Z.mul_assoc, H. reflexivity.
Qed.

(** [Decimal(repr(x))] never raises and is a decimal of the value of
    [x]. *)
Lemma Decimal_of_repr_value neg high last dexp :
  exists n ex,
    Decimal_of_str (float_repr (FNum neg high last dexp))
    = Ok {| _sign := neg; _int := str_of_N n; _exp := ex |}
    /\ same_value {| _sign := neg; _int := str_of_N n; _exp := ex |}
         (NFloat (FNum neg high last dexp)).
Proof.
  destruct (float_repr_value neg high last dexp)
    as (ip & frac & n & Hrepr & Hne & Hip & Hfrac & Hn & e & He1 & He2 & Hval).
  cbv zeta in Hrepr, He1, Hval.
  set (ex := if (decpt_of high last dexp <=? -4) || (16 <? decpt_of high last dexp)
             then Some (decpt_of high last dexp - 1) else None) in *.
  set (E := match ex with Some x => x | None => 0 end) in *.
  exists n, (E - len (frac_digits frac)).
  split.
  - rewrite Hrepr, numeric_split.
    apply Decimal_of_str_layout; auto.
    + now apply good_frac_digits.
    + destruct ex; [right; eauto | now left].
    + unfold E. destruct ex as [x|]; [|reflexivity].
      cbn [parse_exponent_part]. change (Ascii.eqb "e" "e") with true.
      cbn [orb]. apply parse_exponent_exp_str_eq.
  - exists e. cbn [_exp num_exponent exponent_of].
    split; [exact He1|]. split; [exact He2|].
    rewrite Decimal_scaled_mk. cbn [num_scaled scaled]. f_equal.
    rewrite <- !Z.mul_assoc. f_equal. exact Hval.
Qed.

(** [Decimal(repr(z))] for an [int]. *)
Lemma Decimal_of_int_value z :
  Decimal_of_str (str_of_int z)
  = Ok {| _sign := z <? 0; _int := str_of_N (Z.to_N (Z.abs z)); _exp := 0 |}
  /\ same_value {| _sign := z <? 0; _int := str_of_N (Z.to_N (Z.abs z)); _exp := 0 |}
       (NInt z).
Proof.
  destruct (str_of_int_digits (Z.abs z) (Z.abs_nonneg z)) as [Hd Hne].
  split.
  - rewrite str_of_int_numeric, <- (app_nil_r (numeric _ _ None None)).
    change 0 with (0 - len (frac_digits None)) at 2.
    apply (Decimal_of_str_layout (z <? 0) (str_of_int (Z.abs z)) None [] 0);
      auto.
    cbn [frac_digits]. rewrite app_nil_r.
    apply digits_value_str_of_int, Z.abs_nonneg.
  - exists 0. cbn [_exp num_exponent]. split; [lia|]. split; [lia|].
    rewrite Decimal_scaled_mk. cbn [num_scaled]. f_equal.
    rewrite Z2N.id by apply Z.abs_nonneg.
    change (10 ^ (0 - 0)) with 1. change (10 ^ (- 0)) with 1.
    destruct (Z.ltb_spec z 0); lia.
Qed.

(** [Decimal(repr(v))] for any number. *)
Lemma Decimal_of_num_repr v :
  exists sg n ex,
    Decimal_of_str (num_repr v)
    = Ok {| _sign := sg; _int := str_of_N n; _exp := ex |}
    /\ same_value {| _sign := sg; _int := str_of_N n; _exp := ex |} v.
Proof.
  destruct v as [z|[|neg high last dexp]]; cbn [num_repr].
  - destruct (Decimal_of_int_value z) as [H1 H2]. eauto.
  - exists false, 0%N, (-1). split; [reflexivity|].
    exists (-1). cbn. split; [lia|]. split; [lia | reflexivity].
  - destruct (Decimal_of_repr_value neg high last dexp) as (n & ex & H1 & H2).
    eauto.
Qed.

(** What [format(d, "f")] writes, with the number it denotes. *)
Lemma Decimal_format_f_layout sg n ex :
  exists ip frac n',
    Decimal_format_f {| _sign := sg; _int := str_of_N n; _exp := ex |}
    = numeric sg ip frac None
    /\ ip <> [] /\ all_digits ip = true /\ good_frac frac
    /\ digits_value 0 (ip ++ frac_digits frac) = Some n'
    /\ exists e,
         e <= - len (frac_digits frac) /\ e <= ex
         /\ Z.of_N n' * 10 ^ (- len (frac_digits frac) - e)
            = Z.of_N n * 10 ^ (ex - e).
Proof.
  unfold Decimal_format_f. cbn [_sign _int _exp].
  set (I := str_of_N n).
  assert (HI : all_digits I = true) by apply str_of_N_digits.
  assert (HIn : I <> []) by apply str_of_N_nonempty.
  assert (HIv : digits_value 0 I = Some n) by apply digits_value_str_of_N.
  assert (HL := len_pos I HIn).
  set (dotplace := ex + len I).
  destruct (dotplace <? 0) eqn:H0.
  - apply Z.ltb_lt in H0.
    exists (lit "0"), (Some (zeros (- dotplace) ++ I)), n.
    assert (Hfne : zeros (- dotplace) ++ I <> []).
    { intro E. apply app_eq_nil in E as [_ E]. contradiction. }
    split.
    { unfold numeric. rewrite app_nil_r.
      destruct (zeros (- dotplace) ++ I) eqn:E; [congruence | reflexivity]. }
    split; [discriminate|]. split; [reflexivity|].
    cbn [good_frac frac_digits].
    split; [split; [rewrite all_digits_app, all_digits_zeros, HI; reflexivity
                   | exact Hfne]|].
    split.
    { change (lit "0" ++ zeros (- dotplace) ++ I)
        with ("0"%char :: zeros (- dotplace) ++ I).
      cbn [digits_value]. change (is_digit "0") with true. cbv beta iota.
      rewrite digits_value_app, digits_value_zeros by lia.
      change (10 * 0 + (N_of_ascii "0" - 48))%N with 0%N.
      rewrite N.mul_0_l. exact HIv. }
    assert (Hlen : len (zeros (- dotplace) ++ I) = - dotplace + len I).
    { unfold len, zeros. rewrite length_app, repeat_length. lia. }
    exists ex. rewrite Hlen.
    replace (- (- dotplace + len I)) with ex by (unfold dotplace; lia).
    split; [lia|]. split; [lia|]. reflexivity.
  - apply Z.ltb_ge in H0. destruct (len I <? dotplace) eqn:H1.
    + apply Z.ltb_lt in H1.
      exists (I ++ zeros (dotplace - len I)), None,
        (n * 10 ^ Z.to_N (dotplace - len I))%N.
      split; [unfold numeric; rewrite !app_nil_r; reflexivity|].
      split; [intro E; apply app_eq_nil in E as [E _]; contradiction|].
      split; [rewrite all_digits_app, all_digits_zeros, HI; reflexivity|].
      split; [exact Logic.I|].
      cbn [frac_digits]. rewrite app_nil_r.
      split; [rewrite digits_value_app, HIv; apply digits_value_zeros; lia|].
      exists 0. change (len (@nil ascii)) with 0.
      split; [lia|]. split; [unfold dotplace in H1; lia|].
      rewrite N2Z.inj_mul, N2Z.inj_pow, Z2N.id by lia.
      change (Z.of_N 10) with 10.
      replace (dotplace - len I) with ex by (unfold dotplace; lia).
      replace (-0 - 0) with 0 by lia. rewrite Z.pow_0_r, Z.sub_0_r. ring.
    + apply Z.ltb_ge in H1.
      set (k := Z.to_nat dotplace).
      assert (Hk : (k <= length I)%nat) by (unfold k, len in *; lia).
      exists (match firstn k I with [] => lit "0" | i => i end),
        (frac_of (skipn k I)), n.
      split.
      { unfold numeric, frac_of. rewrite app_nil_r. do 2 f_equal.
        destruct (skipn k I); reflexivity. }
      split; [destruct (firstn k I); discriminate|].
      split.
      { assert (Hf := all_digits_firstn k I HI).
        destruct (firstn k I); [reflexivity | exact Hf]. }
      assert (Hs := all_digits_skipn k I HI).
      split.
      { unfold frac_of. destruct (skipn k I) eqn:E; cbn [good_frac];
          [exact Logic.I|].
        split; [exact Hs | discriminate]. }
      assert (Hfd : frac_digits (frac_of (skipn k I)) = skipn k I).
      { unfold frac_of. destruct (skipn k I); reflexivity. }
      rewrite Hfd.
      split.
      { destruct (firstn k I) eqn:E.
        - assert (HIs : skipn k I = I).
          { rewrite <- (firstn_skipn k I) at 2. now rewrite E. }
          rewrite HIs.
          change (lit "0" ++ I) with ("0"%char :: I).
          cbn [digits_value]. change (is_digit "0") with true. cbv beta iota.
          exact HIv.
        - rewrite <- E, firstn_skipn. exact HIv. }
      assert (Hlen : len (skipn k I) = len I - dotplace).
      { unfold len in *. rewrite length_skipn. unfold k. lia. }
      exists ex. rewrite Hlen.
      replace (- (len I - dotplace)) with ex by (unfold dotplace; lia).
      split; [lia|]. split; [lia|]. reflexivity.
Qed.

(** ** [_format_float] keeps the value *)

Lemma Decimal_scaled_shift d e e' v :
  e' <= e -> e <= _exp d ->
  Decimal_scaled e d = Some v ->
  Decimal_scaled e' d = Some (v * 10 ^ (e - e')).
Proof.
  intros H1 H2. unfold Decimal_scaled.
  destruct (digits_value 0 (_int d)) as [n|]; [|discriminate].
  intro H. injection H as <-. f_equal.
  replace (_exp d - e') with ((_exp d - e) + (e - e')) by lia.
  rewrite Z.pow_add_r by lia. ring.
Qed.

Lemma scaled_shift x e e' :
  e' <= e -> e <= exponent_of x ->
  scaled e' x = scaled e x * 10 ^ (e - e').
Proof.
  intros H1 H2. destruct x as [|neg high last dexp]; simpl in *; [lia|].
  replace (dexp - e') with ((dexp - e) + (e - e')) by lia.
  rewrite Z.pow_add_r by lia. ring.
Qed.

Lemma num_scaled_shift v e e' :
  e' <= e -> e <= num_exponent v ->
  num_scaled e' v = num_scaled e v * 10 ^ (e - e').
Proof.
  intros H1 H2. destruct v as [z|x]; cbn [num_scaled num_exponent] in *.
  - replace (- e') with ((- e) + (e - e')) by lia.
    rewrite Z.pow_add_r by lia. ring.
  - now apply scaled_shift.
Qed.

(** Two numbers of one type with the same numerator over a common power
    of ten are the same number. *)
Lemma num_scaled_inj x y e :
  same_type x y = true ->
  e <= num_exponent x -> e <= num_exponent y ->
  num_scaled e x = num_scaled e y -> x = y.
Proof.
  destruct x as [z|x], y as [z'|y]; cbn [same_type]; try discriminate;
    intros _ Hx Hy H; cbn [num_scaled num_exponent] in *.
  - f_equal. assert (0 < 10 ^ (- e)) by (apply Z.pow_pos_nonneg; lia). nia.
  - f_equal. now apply (scaled_inj x y e).
Qed.

Lemma same_value_same_decimal d x y :
  same_value d x -> same_value d y -> same_decimal x y.
Proof.
  intros (e1 & Hd1 & Hx1 & H1) (e2 & Hd2 & Hy2 & H2).
  set (e := Z.min e1 e2).
  apply (Decimal_scaled_shift d e1 e) in H1; [|lia|lia].
  apply (Decimal_scaled_shift d e2 e) in H2; [|lia|lia].
  rewrite <- (num_scaled_shift x e1 e) in H1 by lia.
  rewrite <- (num_scaled_shift y e2 e) in H2 by lia.
  exists e. split; [lia|]. split; [lia|]. congruence.
Qed.

Lemma same_decimal_eq x y :
  same_decimal x y -> same_type x y = true -> x = y.
Proof.
  intros (e & Hx & Hy & H) Ht. now apply (num_scaled_inj x y e).
Qed.

(** A decimal read from what [format(d0, "f")] wrote has the value of
    [d0]. *)
Lemma same_value_format_f sg n ex x :
  same_value {| _sign := sg; _int := str_of_N n; _exp := ex |} x ->
  exists d,
    Decimal_of_str
      (Decimal_format_f {| _sign := sg; _int := str_of_N n; _exp := ex |})
    = Ok d
    /\ same_value d x.
Proof.
  intros (e1 & Hd1 & Hx1 & H1). cbn [_exp] in Hd1.
  rewrite Decimal_scaled_mk in H1. injection H1 as H1.
  destruct (Decimal_format_f_layout sg n ex)
    as (ip & frac & n' & Hfmt & Hne & Hip & Hfrac & Hn' & e2 & He2 & He2' & Hval).
  eexists. split.
  - rewrite Hfmt, <- (app_nil_r (numeric sg ip frac None)).
    apply (Decimal_of_str_layout sg ip frac [] 0 n'); auto.
    now apply good_frac_digits.
  - set (e := Z.min e1 e2). exists e. cbn [_exp].
    split; [lia|]. split; [lia|].
    rewrite Decimal_scaled_mk. f_equal.
    rewrite (num_scaled_shift x e1 e), <- H1 by lia.
    replace (0 - len (frac_digits frac)) with (- len (frac_digits frac)) by lia.
    apply (pow_shift_eq _ _ _ _ e2 e) in Hval; [|lia|lia|lia].
    rewrite <- !Z.mul_assoc. rewrite Hval.
    replace (ex - e) with ((ex - e1) + (e1 - e)) by lia.
    rewrite Z.pow_add_r by lia. ring.
Qed.

(** The replacement of ["e-0"] keeps the number a float below [1e-4] is
    written with. *)
Lemma replaced_small_value neg high last dexp :
  decpt_of high last dexp - 1 <= -5 ->
  exists d,
    Decimal_of_str
      (str_replace (float_repr (FNum neg high last dexp)) (lit "e-0") (lit "e-"))
    = Ok d
    /\ same_value d (NFloat (FNum neg high last dexp)).
Proof.
  intro H5. set (e0 := decpt_of high last dexp - 1) in *.
  destruct (float_repr_value neg high last dexp)
    as (ip & frac & n & Hrepr & Hne & Hip & Hfrac & Hn & e & He1 & He2 & Hval).
  cbv zeta in Hrepr, He1, Hval.
  assert (Hsci : (decpt_of high last dexp <=? -4) || (16 <? decpt_of high last dexp)
                 = true).
  { apply orb_true_iff. left. apply Z.leb_le. unfold e0 in H5. lia. }
  rewrite Hsci in Hrepr, He1, Hval. fold e0 in Hrepr, He1, Hval.
  rewrite Hrepr, (replace_exponent neg ip frac e0) by (auto; lia).
  eexists. split.
  - apply (Decimal_of_str_layout neg ip frac
             (lit "e-" ++ str_of_int (- e0)) e0 n); auto.
    + now apply good_frac_digits.
    + right. eexists. reflexivity.
    + change (lit "e-" ++ str_of_int (- e0))
        with ("e"%char :: "-"%char :: str_of_int (- e0)).
      cbn [parse_exponent_part]. change (Ascii.eqb "e" "e") with true.
      cbn [orb]. rewrite parse_exponent_minus by lia. f_equal. lia.
  - exists e. cbn [_exp num_exponent exponent_of].
    split; [exact He1|]. split; [exact He2|].
    rewrite Decimal_scaled_mk. cbn [num_scaled scaled]. f_equal.
    rewrite <- !Z.mul_assoc. f_equal. exact Hval.
Qed.

(** The string [_format_float] returns for a number other than zero, read
    as a decimal number, is the number [repr] writes for the value:
    formatting loses nothing, whichever branch the logarithm selects. *)
Theorem format_float_keeps_value (value : number) :
  num_is_zero value = false ->
  exists s d,
    _format_float value = Ok s
    /\ Decimal_of_str s = Ok d
    /\ same_value d value.
Proof.
  intro Hz. pose proof (find_exp_eq value) as He. rewrite Hz in He.
  destruct (Z_lt_le_dec (float_floor (log10 (num_abs value))) (-6)) as [Hlt|Hle].
  - rewrite (format_float_other_branch _ _ He Hlt).
    destruct value as [z|[|neg high last dexp]]; [| discriminate Hz |].
    + cbn [num_repr]. destruct (replace_repr_int z) as [-> _].
      destruct (Decimal_of_int_value z) as [H1 H2]. eauto.
    + cbn [num_repr].
      destruct (Z_lt_le_dec (-5) (decpt_of high last dexp - 1)) as [Hl|Hs].
      * rewrite (replace_repr_large neg high last dexp Hl).
        destruct (Decimal_of_repr_value neg high last dexp) as (n & ex & H1 & H2).
        eauto.
      * destruct (replaced_small_value neg high last dexp Hs) as (d & H1 & H2).
        eauto.
  - unfold _format_float. rewrite He. cbn [bind].
    apply Z.leb_le in Hle. rewrite Hle.
    destruct (Decimal_of_num_repr value) as (sg & n & ex & -> & Hsame).
    cbn [bind].
    destruct (same_value_format_f sg n ex _ Hsame) as (d & Hd & Hv).
    eexists _, d. split; [reflexivity|]. split; [exact Hd | exact Hv].
Qed.

(** Two numbers with the same formatted string are written with the same
    decimal expansion, and two floats, or two integers, with the same
    formatted string are equal.  An integer and a float can share a
    string, as [10**23] and [1e23] do. *)
Theorem format_float_injective (x y : number) (s : str) :
  _format_float x = Ok s -> _format_float y = Ok s ->
  same_decimal x y /\ (same_type x y = true -> x = y).
Proof.
  intros Hx Hy.
  assert (Hzx : num_is_zero x = false).
  { destruct (num_is_zero x) eqn:E; [|reflexivity].
    rewrite (format_float_zero x E) in Hx. discriminate. }
  assert (Hzy : num_is_zero y = false).
  { destruct (num_is_zero y) eqn:E; [|reflexivity].
    rewrite (format_float_zero y E) in Hy. discriminate. }
  destruct (format_float_keeps_value x Hzx) as (s1 & d1 & H1 & Hd1 & Hv1).
  destruct (format_float_keeps_value y Hzy) as (s2 & d2 & H2 & Hd2 & Hv2).
  assert (s1 = s) by congruence. assert (s2 = s) by congruence. subst s1 s2.
  assert (d1 = d2) by congruence. subst d2.
  assert (Hsame : same_decimal x y) by (eapply same_value_same_decimal; eassumption).
  split; [exact Hsame | now apply same_decimal_eq].
Qed.

(** ** The joined string determines the values *)

Lemma numeric_nonempty neg ip frac ex : ip <> [] -> numeric neg ip frac ex <> [].
Proof.
  intros Hne E. unfold numeric in E.
  apply app_eq_nil in E as [_ E]. apply app_eq_nil in E as [E _]. contradiction.
Qed.

Section Charset.
Variable P : ascii -> bool.
Hypothesis P_digit : forall ch, is_digit ch = true -> P ch = true.
Hypothesis P_minus : P "-" = true.
Hypothesis P_plus : P "+" = true.
Hypothesis P_point : P "." = true.
Hypothesis P_e : P "e" = true.

Lemma all_digits_chars s : all_digits s = true -> forallb P s = true.
Proof.
  unfold all_digits. rewrite !forallb_forall.
  intros H ch Hin. apply P_digit, H, Hin.
Qed.

Lemma exp_str_chars e : forallb P ("e"%char :: exp_str e) = true.
Proof.
  unfold exp_str.
  destruct (str_of_int_digits (Z.abs e) (Z.abs_nonneg e)) as [Hd _].
  apply all_digits_chars in Hd.
  assert (H0 : P "0" = true) by (apply P_digit; reflexivity).
  destruct (e <? 0), (Z.abs e <? 10); cbn [forallb];
    rewrite ?P_e, ?P_minus, ?P_plus, ?H0, Hd; reflexivity.
Qed.

Lemma numeric_chars neg ip frac ex :
  all_digits ip = true -> good_frac frac ->
  forallb P (numeric neg ip frac ex) = true.
Proof.
  intros Hip Hfrac. unfold numeric. rewrite !forallb_app.
  rewrite (all_digits_chars ip Hip).
  repeat (apply andb_true_iff; split); try reflexivity.
  - destruct neg; [|reflexivity]. cbn. now rewrite P_minus.
  - destruct frac as [fp|]; [|reflexivity].
    destruct Hfrac as [Hfp _]. apply all_digits_chars in Hfp.
    cbn [forallb]. now rewrite P_point, Hfp.
  - destruct ex; [apply exp_str_chars | reflexivity].
Qed.

(** What [_format_float] returns is not empty and is made of digits, the
    signs, the point and [e]. *)
Lemma format_float_chars x s :
  _format_float x = Ok s -> forallb P s = true /\ s <> [].
Proof.
  intro H.
  assert (Hz : num_is_zero x = false).
  { destruct (num_is_zero x) eqn:E; [|reflexivity].
    rewrite (format_float_zero x E) in H. discriminate. }
  pose proof (find_exp_eq x) as He. rewrite Hz in He.
  destruct (Z_lt_le_dec (float_floor (log10 (num_abs x))) (-6)) as [Hlt|Hle].
  - rewrite (format_float_other_branch _ _ He Hlt) in H.
    assert (Es : s = str_replace (num_repr x) (lit "e-0") (lit "e-"))
      by congruence.
    subst s. clear H.
    destruct x as [z|[|neg high last dexp]]; [| discriminate Hz |].
    + cbn [num_repr]. destruct (replace_repr_int z) as [-> _].
      destruct (str_of_int_digits (Z.abs z) (Z.abs_nonneg z)) as [Hd Hne].
      rewrite str_of_int_numeric.
      split; [now apply numeric_chars | now apply numeric_nonempty].
    + cbn [num_repr].
      destruct (Z_lt_le_dec (-5) (decpt_of high last dexp - 1)) as [Hl|Hs].
      * rewrite (replace_repr_large neg high last dexp Hl).
        destruct (float_repr_numeric neg high last dexp)
          as (ip & frac & -> & Hne & Hip & Hfrac).
        split; [now apply numeric_chars | now apply numeric_nonempty].
      * destruct (float_repr_numeric neg high last dexp)
          as (ip & frac & -> & Hne & Hip & Hfrac).
        assert (Hsci : (decpt_of high last dexp <=? -4)
                       || (16 <? decpt_of high last dexp) = true).
        { apply orb_true_iff. left. apply Z.leb_le. lia. }
        rewrite Hsci.
        rewrite (replace_exponent neg ip frac _) by (auto; lia).
        split.
        -- rewrite !forallb_app, numeric_chars by assumption.
           destruct (str_of_int_digits (- (decpt_of high last dexp - 1))
                       ltac:(lia)) as [Hd _].
           apply all_digits_chars in Hd.
           cbn [forallb andb lit list_ascii_of_string].
           now rewrite P_e, P_minus, Hd.
        -- intro E. apply app_eq_nil in E as [E _].
           revert E. now apply numeric_nonempty.
  - unfold _format_float in H. rewrite He in H. cbn [bind] in H.
    apply Z.leb_le in Hle. rewrite Hle in H.
    destruct (Decimal_of_num_repr x) as (sg & n & ex & Hd & _).
    rewrite Hd in H. cbn [bind] in H. injection H as <-.
    destruct (Decimal_format_f_layout sg n ex)
      as (ip & frac & n' & -> & Hne & Hip & Hfrac & _).
    split; [now apply numeric_chars | now apply numeric_nonempty].
Qed.
End Charset.

Lemma digit_not_colon ch : is_digit ch = true -> negb (Ascii.eqb ":" ch) = true.
Proof.
  destruct ch as [[] [] [] [] [] [] [] []]; simpl; try reflexivity; discriminate.
Qed.

Lemma digit_ascii7 ch : is_digit ch = true -> is_ascii7 ch = true.
Proof.
  destruct ch as [[] [] [] [] [] [] [] []]; simpl; try reflexivity; discriminate.
Qed.

(** What [_format_float] returns is not empty and holds no colon. *)
Lemma format_float_no_colon x s :
  _format_float x = Ok s -> no_colon s = true /\ s <> [].
Proof.
  apply (format_float_chars (fun ch => negb (Ascii.eqb ":" ch)));
    [exact digit_not_colon | reflexivity..].
Qed.

(** What [_format_float] returns is made of ASCII characters. *)
Lemma format_float_ascii x s :
  _format_float x = Ok s -> forallb is_ascii7 s = true.
Proof.
  intro H.
  apply (format_float_chars is_ascii7 digit_ascii7 eq_refl eq_refl eq_refl
           eq_refl x s H).
Qed.

(** Two colon-free strings followed by nothing or by a colon: if the wholes
    agree, so do the parts. *)
Lemma colon_split x y t1 t2 :
  no_colon x = true -> no_colon y = true ->
  (t1 = [] \/ exists r, t1 = ":"%char :: r) ->
  (t2 = [] \/ exists r, t2 = ":"%char :: r) ->
  x ++ t1 = y ++ t2 -> x = y /\ t1 = t2.
Proof.
  revert y. induction x as [|a x IH]; intros y Hx Hy H1 H2 E.
  - destruct y as [|b y]; [auto|]. exfalso.
    cbn [app] in E. cbn [no_colon forallb] in Hy.
    apply andb_true_iff in Hy as [Hb _].
    destruct H1 as [->|[r ->]]; [discriminate|].
    injection E as <- _. discriminate.
  - destruct y as [|b y].
    + exfalso. cbn [app] in E. cbn [no_colon forallb] in Hx.
      apply andb_true_iff in Hx as [Ha _].
      destruct H2 as [->|[r ->]]; [discriminate|].
      injection E as -> _. discriminate.
    + cbn [app] in E. injection E as -> E.
      cbn [no_colon forallb] in Hx, Hy.
      apply andb_true_iff in Hx as [_ Hx]. apply andb_true_iff in Hy as [_ Hy].
      destruct (IH y Hx Hy H1 H2 E) as [-> ->]. auto.
Qed.

Lemma join_cons sep x r :
  join sep (x :: r) = x ++ match r with [] => [] | _ => sep ++ join sep r end.
Proof. destruct r; [now rewrite app_nil_r | reflexivity]. Qed.

Lemma join_colon_inj ps ps' :
  Forall (fun p => no_colon p = true /\ p <> []) ps ->
  Forall (fun p => no_colon p = true /\ p <> []) ps' ->
  join (lit ":") ps = join (lit ":") ps' -> ps = ps'.
Proof.
  intros H. revert ps'. induction H as [|x r [Hx Hxn] Hr IH]; intros ps' H' E.
  - destruct H' as [|y r' [Hy Hyn] _]; [reflexivity|].
    exfalso. rewrite join_cons in E. cbn [join] in E.
    symmetry in E. apply app_eq_nil in E as [E _]. contradiction.
  - destruct H' as [|y r' [Hy Hyn] Hr'].
    + exfalso. rewrite join_cons in E. cbn [join] in E.
      apply app_eq_nil in E as [E _]. contradiction.
    + rewrite !join_cons in E.
      apply colon_split in E as [-> E]; auto.
      * f_equal. destruct r as [|x1 r1], r' as [|y1 r1']; try discriminate.
        -- reflexivity.
        -- apply IH; [exact Hr'|].
           change (lit ":" ++ join (lit ":") (x1 :: r1))
             with (":"%char :: join (lit ":") (x1 :: r1)) in E.
           change (lit ":" ++ join (lit ":") (y1 :: r1'))
             with (":"%char :: join (lit ":") (y1 :: r1')) in E.
           now injection E.
      * destruct r; [now left | right; eexists; reflexivity].
      * destruct r'; [now left | right; eexists; reflexivity].
Qed.

Lemma mapM_Forall {A B : Type} (f : A -> res B) (P : B -> Prop) l ys :
  (forall x y, f x = Ok y -> P y) -> mapM f l = Ok ys -> Forall P ys.
Proof.
  intro Hf. revert ys. induction l as [|x r IH]; intros ys H; cbn [mapM] in H.
  - injection H as <-. constructor.
  - destruct (f x) as [y|e] eqn:Ex; cbn [bind] in H; [|discriminate].
    destruct (mapM f r) as [ys'|e]; cbn [bind] in H; [|discriminate].
    injection H as <-. constructor; [eapply Hf, Ex | now apply IH].
Qed.

Lemma mapM_Forall2 {A B : Type} (f : A -> res B) (R : A -> A -> Prop) l l' ys :
  (forall x x' y, f x = Ok y -> f x' = Ok y -> R x x') ->
  mapM f l = Ok ys -> mapM f l' = Ok ys -> Forall2 R l l'.
Proof.
  intro Hf. revert l' ys. induction l as [|x r IH]; intros l' ys H H'.
  - cbn in H. injection H as <-. destruct l' as [|x' r']; [constructor|].
    cbn [mapM] in H'. destruct (f x'); cbn [bind] in H'; [|discriminate].
    destruct (mapM f r'); cbn [bind] in H'; discriminate.
  - cbn [mapM] in H. destruct (f x) as [y|e] eqn:Ex; cbn [bind] in H;
      [|discriminate].
    destruct (mapM f r) as [ys1|e] eqn:Er; cbn [bind] in H; [|discriminate].
    injection H as <-. destruct l' as [|x' r']; [discriminate|].
    cbn [mapM] in H'. destruct (f x') as [y'|e] eqn:Ex'; cbn [bind] in H';
      [|discriminate].
    destruct (mapM f r') as [ys2|e] eqn:Er'; cbn [bind] in H'; [|discriminate].
    injection H' as -> ->. constructor; [eapply Hf; eassumption|].
    eapply IH; [reflexivity | exact Er'].
Qed.

(** The string whose CRC [verify] takes determines the values it was built
    from, up to the type of a whole number: two lists of values with the
    same joined string have the same length and, place by place, the same
    decimal expansion, and are equal where both hold a float or both hold
    an integer. *)
Theorem canonical_string_injective (values values' : list number)
    (parts parts' : list str) :
  mapM _format_float values = Ok parts ->
  mapM _format_float values' = Ok parts' ->
  join (lit ":") parts = join (lit ":") parts' ->
  Forall2 (fun x y => same_decimal x y /\ (same_type x y = true -> x = y))
    values values'.
Proof.
  intros H H' E.
  assert (Hp : parts = parts').
  { apply join_colon_inj; [| |exact E].
    - eapply mapM_Forall; [|exact H]. intros x y. apply format_float_no_colon.
    - eapply mapM_Forall; [|exact H']. intros x y. apply format_float_no_colon. }
  subst parts'.
  eapply mapM_Forall2; [|exact H|exact H'].
  intros x x' y. apply format_float_injective.
Qed.

(** ** The checksum of [verify] *)

Lemma encode_utf8_ascii s :
  forallb is_ascii7 s = true -> encode_utf8 s = ascii_codes s.
Proof.
  unfold encode_utf8, ascii_codes, is_ascii7.
  induction s as [|ch s IH]; cbn [forallb flat_map map]; intro H; [reflexivity|].
  apply andb_true_iff in H as [Hch Hs]. rewrite (IH Hs).
  unfold encode_char.
  assert (Hlt : (Z.of_N (N_of_ascii ch) <? 128) = true).
  { apply Z.ltb_lt. apply N.ltb_lt in Hch. lia. }
  rewrite Hlt. reflexivity.
Qed.

Lemma colon_joined_ascii parts :
  Forall (fun p => forallb is_ascii7 p = true) parts ->
  forallb is_ascii7 (colon_joined parts) = true.
Proof.
  intro H. destruct H as [|first others Hf Ho]; [reflexivity|].
  cbn [colon_joined]. rewrite forallb_app, Hf. cbn [andb].
  induction Ho as [|part others Hp _ IH]; [reflexivity|].
  cbn [flat_map]. change (forallb is_ascii7 ((":"%char :: part) ++ ?r))
    with (forallb is_ascii7 (":"%char :: part ++ r)).
  cbn [app forallb]. rewrite forallb_app, Hp, IH. reflexivity.
Qed.

(** The checksum of the specification is the one the code computes. *)
Lemma reference_crc_eq values : reference_crc values = canonical_crc values.
Proof.
  unfold reference_crc, canonical_crc.
  destruct (mapM _format_float values) as [parts|e] eqn:E; [|reflexivity].
  cbn [bind]. rewrite join_colon_joined.
  rewrite encode_utf8_ascii.
  - rewrite crc32_reference_eq; [reflexivity|].
    rewrite <- encode_utf8_ascii.
    + apply encode_utf8_bytes.
    + apply colon_joined_ascii. eapply mapM_Forall; [|exact E].
      intros x y. apply format_float_ascii.
  - apply colon_joined_ascii. eapply mapM_Forall; [|exact E].
    intros x y. apply format_float_ascii.
Qed.

(** C1. On a book with at least 25 levels on each side, [verify] sorts the
    bid levels by descending price and the ask levels by ascending price
    (each a permutation of the stored levels), takes the first 25 of each
    pairwise as (bid price, bid amount, ask price, ask amount), 100 values
    in all, formats them, joins them with [:], takes the CRC-32 of the
    UTF-8 bytes, and returns [True] exactly when that CRC is the declared
    checksum.  The joined string, its bytes and the CRC-32 are those of
    [colon_joined], [ascii_codes] and the table-driven [crc32_reference],
    defined apart from the code. *)
Theorem verify_checksum (b : OrderBook) (checksum : Z) :
  is_verifiable b = true ->
  Permutation (sorted_bids b) (side_levels (book_bids b))
  /\ StronglySorted
       (fun x y => num_ltb (fst (fst x)) (fst (fst y)) = false)
       (sorted_bids b)
  /\ Permutation (sorted_asks b) (side_levels (book_asks b))
  /\ StronglySorted
       (fun x y => num_ltb (fst (fst y)) (fst (fst x)) = false)
       (sorted_asks b)
  /\ length (canonical_values (sorted_bids b) (sorted_asks b)) = 100%nat
  /\ verify b checksum
     = (parts <- mapM _format_float
                  (canonical_values (sorted_bids b) (sorted_asks b)) ;;
        Ok (crc32_reference (ascii_codes (colon_joined parts)) =? checksum))
  /\ (verify b checksum = Ok true
      <-> exists parts,
            mapM _format_float
              (canonical_values (sorted_bids b) (sorted_asks b)) = Ok parts
            /\ crc32_reference (ascii_codes (colon_joined parts)) = checksum).
Proof.
  intro Hv. assert (Hl := proj1 (is_verifiable_lengths b) Hv).
  destruct Hl as [Hb Ha].
  split; [apply sorted_perm|].
  split.
  { eapply StronglySorted_impl; [|apply sorted_sorted].
    intros x y H. unfold key_le in H. now rewrite num_ltb_neg in H. }
  split; [apply sorted_perm|].
  split; [apply sorted_sorted|].
  split.
  { apply canonical_values_length;
      rewrite ?sorted_bids_length, ?sorted_asks_length; assumption. }
  assert (Heq : verify b checksum
                = (parts <- mapM _format_float
                             (canonical_values (sorted_bids b) (sorted_asks b)) ;;
                   Ok (crc32_reference (ascii_codes (colon_joined parts))
                       =? checksum))).
  { rewrite (verify_eq b checksum Hv), <- reference_crc_eq.
    unfold reference_crc.
    destruct (mapM _format_float _); reflexivity. }
  split; [exact Heq|].
  rewrite Heq.
  destruct (mapM _format_float _) as [parts|e]; cbn [bind].
  - split.
    + intro H. injection H as H. apply Z.eqb_eq in H. eauto.
    + intros (parts' & E & H). injection E as <-.
      f_equal. now apply Z.eqb_eq.
  - split; [discriminate|]. intros (parts' & E & _). discriminate.
Qed.

(** * Properties of the dispatcher *)

Section DispatchFacts.
Import PublicChannelsHandler.
Variable record : Type.
Variable parse : serializer -> list value -> outcome record.

Lemma land_mask32 v : Z.land v 0xFFFFFFFF = v mod 2 ^ 32.
Proof. change 0xFFFFFFFF with (Z.ones 32). apply Z.land_ones. lia. Qed.

Lemma sub_get_eq subscription k v :
  dict_get str_eq_dec k subscription = Some v ->
  sub_get subscription k = Done v.
Proof. intro H. unfold sub_get. now rewrite H. Qed.

(** A frame [["cs", v, timestamp, ...]] on a book subscription, of any
    precision and symbol, gives exactly the event [checksum] with the
    value reduced modulo [2^32], hence between 0 and [2^32 - 1], and the
    timestamp as received. *)
Theorem checksum_frame_masked (subscription : Subscription) (v : Z)
    (timestamp : value) (rest : list value) :
  dict_get str_eq_dec (lit "channel") subscription = Some (lit "book") ->
  PublicChannelsHandler.handle record parse subscription
    (VStr (lit "cs") :: VInt v :: timestamp :: rest)
  = Done (Some (mkEmission (lit "checksum") subscription
                  (Masked (v mod 2 ^ 32)) (Some timestamp)))
  /\ 0 <= v mod 2 ^ 32 < 2 ^ 32.
Proof.
  intro Hc. split.
  - unfold PublicChannelsHandler.handle. rewrite (sub_get_eq _ _ _ Hc).
    cbn [bindO]. 
    change (str_eqb (lit "book") (lit "ticker")) with false.
    change (str_eqb (lit "book") (lit "trades")) with false.
    change (str_eqb (lit "book") (lit "book")) with true.
    cbv iota. cbn [getitem nth_error bindO].
    change (eq_str (VStr (lit "cs")) _CHECKSUM) with true. cbv iota.
    unfold __checksum_handler. cbn [int_and bindO].
    now rewrite land_mask32.
  - apply Z.mod_pos_bound. lia.
Qed.

End DispatchFacts.

Section DispatchEvents.
Import PublicChannelsHandler.
Variable record : Type.
Variable parse : serializer -> list value -> outcome record.

Lemma sub_get_inv subscription k v :
  sub_get subscription k = Done v ->
  dict_get str_eq_dec k subscription = Some v.
Proof.
  unfold sub_get. destruct (dict_get str_eq_dec k subscription);
    intro H; [now injection H as -> | discriminate].
Qed.

Lemma trade_event_name_In event n :
  trade_event_name event = Done n ->
  In n [lit "t_trade_execution"; lit "t_trade_execution_update";
        lit "f_trade_execution"; lit "f_trade_execution_update"].
Proof.
  unfold trade_event_name. destruct event as [| | | |tag| |]; try discriminate.
  unfold trade_events. cbn [dict_get].
  repeat match goal with
         | |- context [str_eq_dec tag ?s] => destruct (str_eq_dec tag s)
         end;
    intro H; try discriminate; injection H as <-; cbn; auto 6.
Qed.

(** One step through a handler that returned an event. *)
Ltac step H :=
  match type of H with
  | bindO ?m _ = _ =>
      let E := fresh "E" in
      destruct m eqn:E; cbn [bindO] in H; [|discriminate H]
  | (if ?c then _ else _) = _ =>
      let E := fresh "E" in destruct c eqn:E
  | match ?x with Some _ => _ | None => _ end = _ =>
      let E := fresh "E" in destruct x eqn:E
  | Done None = Done (Some _) => discriminate H
  | Done (Some _) = Done (Some _) => injection H as H; subst
  end.

(** An event with no timestamp, or with one and a name that carries
    one. *)
Ltac no_such_name H :=
  vm_compute in H;
  repeat match type of H with
         | _ \/ _ => destruct H as [H|H]; [discriminate H|]
         end;
  contradiction.

Ltac names :=
  cbn [em_name em_subscription em_timestamp];
  repeat split;
  try reflexivity;
  try (intro; congruence);
  try (intros _; discriminate);
  try (vm_compute; tauto);
  try (let Hin := fresh "Hin" in intro Hin; no_such_name Hin).

Lemma ticker_event subscription stream e :
  __ticker_channel_handler record parse subscription stream = Done (Some e) ->
  event_fits subscription (channel_events (lit "ticker")) e.
Proof.
  intro H. unfold __ticker_channel_handler in H.
  repeat step H; unfold event_fits; names.
Qed.

Lemma trades_event subscription stream e :
  __trades_channel_handler record parse subscription stream = Done (Some e) ->
  event_fits subscription (channel_events (lit "trades")) e.
Proof.
  intro H. unfold __trades_channel_handler in H. step H.
  match type of H with
  | bindO ?m _ = _ =>
      destruct m as [[e1|]|err] eqn:E0; cbn [bindO] in H; [| |discriminate H]
  end.
  - injection H as <-.
    repeat step E0; unfold event_fits;
      match goal with
      | E : trade_event_name _ = Done ?n |- _ =>
          apply trade_event_name_In in E;
          cbn [In] in E;
          repeat (destruct E as [E|E]; [subst n|]); [..|contradiction]
      end;
      names.
  - repeat step H; unfold event_fits; names.
Qed.

Lemma book_event subscription stream timestamp e :
  __book_channel_handler record parse subscription stream timestamp
  = Done (Some e) ->
  event_fits subscription (channel_events (lit "book")) e.
Proof.
  intro H. unfold __book_channel_handler in H.
  repeat step H; unfold event_fits; names.
Qed.

Lemma raw_book_event subscription stream e :
  __raw_book_channel_handler record parse subscription stream = Done (Some e) ->
  event_fits subscription (channel_events (lit "book")) e.
Proof.
  intro H. unfold __raw_book_channel_handler in H.
  repeat step H; unfold event_fits; names.
Qed.

Lemma candles_event subscription stream e :
  __candles_channel_handler record parse subscription stream = Done (Some e) ->
  event_fits subscription (channel_events (lit "candles")) e.
Proof.
  intro H. unfold __candles_channel_handler in H.
  repeat step H; unfold event_fits; names.
Qed.

Lemma status_event subscription stream e :
  __status_channel_handler record parse subscription stream = Done (Some e) ->
  event_fits subscription (channel_events (lit "status")) e.
Proof.
  intro H. unfold __status_channel_handler in H.
  repeat step H; unfold event_fits; names.
Qed.

Lemma checksum_event subscription v timestamp e :
  __checksum_handler record subscription v timestamp = Done (Some e) ->
  event_fits subscription (channel_events (lit "book")) e.
Proof.
  intro H. unfold __checksum_handler in H.
  repeat step H; unfold event_fits; names.
Qed.

Lemma str_eqb_eq s t : str_eqb s t = true -> s = t.
Proof. unfold str_eqb. destruct (str_eq_dec s t); [auto | discriminate]. Qed.

(** Every event [handle] emits belongs to the channel of the
    subscription: a frame on a [book] subscription yields a book or
    checksum event and never a ticker, trade, candle or status event, and
    so on for each channel; a subscription of any other channel yields no
    event.  The event carries the subscription it was given, and it
    carries a timestamp exactly when it is [checksum], [t_book_snapshot]
    or [t_book_update]. *)
Theorem handle_event_of_channel (subscription : Subscription)
    (stream : list value) (e : emission record) :
  PublicChannelsHandler.handle record parse subscription stream
  = Done (Some e) ->
  exists channel,
    dict_get str_eq_dec (lit "channel") subscription = Some channel
    /\ em_subscription e = subscription
    /\ In (em_name e) (channel_events channel)
    /\ (em_timestamp e <> None <-> In (em_name e) timestamped_events).
Proof.
  intro H. unfold PublicChannelsHandler.handle in H.
  destruct (sub_get subscription (lit "channel")) as [channel|err] eqn:Ec;
    cbn [bindO] in H; [|discriminate].
  exists channel. split; [now apply sub_get_inv|].
  assert (Hfit : forall c, channel = c -> event_fits subscription (channel_events c) e
                 -> em_subscription e = subscription
                    /\ In (em_name e) (channel_events channel)
                    /\ (em_timestamp e <> None
                        <-> In (em_name e) timestamped_events)).
  { intros c -> Hf. exact Hf. }
  destruct (str_eqb channel (lit "ticker")) eqn:E1.
  { apply (Hfit _ (str_eqb_eq _ _ E1)). eapply ticker_event, H. }
  destruct (str_eqb channel (lit "trades")) eqn:E2.
  { apply (Hfit _ (str_eqb_eq _ _ E2)). eapply trades_event, H. }
  destruct (str_eqb channel (lit "book")) eqn:E3.
  { apply (Hfit _ (str_eqb_eq _ _ E3)).
    destruct (getitem stream 0) as [s0|err] eqn:E0; cbn [bindO] in H;
      [|discriminate].
    destruct (eq_str s0 _CHECKSUM).
    - destruct (getitem stream 1) as [s1|err] eqn:Es1; cbn [bindO] in H;
        [|discriminate].
      destruct (getitem stream 2) as [s2|err] eqn:Es2; cbn [bindO] in H;
        [|discriminate].
      eapply checksum_event, H.
    - destruct (sub_get subscription (lit "prec")) as [prec|err] eqn:Ep;
        cbn [bindO] in H; [|discriminate].
      destruct (negb (str_eqb prec (lit "R0"))).
      + destruct (getitem stream 1) as [s1|err] eqn:Es1; cbn [bindO] in H;
          [|discriminate].
        eapply book_event, H.
      + eapply raw_book_event, H. }
  destruct (str_eqb channel (lit "candles")) eqn:E4.
  { apply (Hfit _ (str_eqb_eq _ _ E4)). eapply candles_event, H. }
  destruct (str_eqb channel (lit "status")) eqn:E5.
  { apply (Hfit _ (str_eqb_eq _ _ E5)). eapply status_event, H. }
  discriminate.
Qed.

End DispatchEvents.

Section DispatchShapes.
Import PublicChannelsHandler.
Variable record : Type.
Variable parse : serializer -> list value -> outcome record.

Lemma handle_book subscription stream :
  dict_get str_eq_dec (lit "channel") subscription = Some (lit "book") ->
  PublicChannelsHandler.handle record parse subscription stream
  = (s0 <-- getitem stream 0 ;;
     if eq_str s0 _CHECKSUM then
       s1 <-- getitem stream 1 ;;
       s2 <-- getitem stream 2 ;;
       __checksum_handler record subscription s1 s2
     else
       prec <-- sub_get subscription (lit "prec") ;;
       if negb (str_eqb prec (lit "R0")) then
         s1 <-- getitem stream 1 ;;
         __book_channel_handler record parse subscription [s0] s1
       else
         __raw_book_channel_handler record parse subscription stream).
Proof.
  intro Hc. unfold PublicChannelsHandler.handle.
  rewrite (sub_get_eq _ _ _ Hc). reflexivity.
Qed.

(** On an aggregated book subscription of a trading pair (symbol starting
    with [t], precision other than [R0]), a frame [[payload, timestamp,
    ...]] whose payload is a list is a snapshot exactly when every element
    of the payload is itself a list: each element is then parsed and
    [t_book_snapshot] is emitted; otherwise the payload is parsed as one
    level and [t_book_update] is emitted.  An empty payload counts as a
    snapshot of no level.  An exception of [parse] is passed on and no
    event is emitted. *)
Theorem book_frame_shape (subscription : Subscription) (symbol prec : str)
    (payload : list value) (timestamp : value) (rest : list value) :
  dict_get str_eq_dec (lit "channel") subscription = Some (lit "book") ->
  dict_get str_eq_dec (lit "symbol") subscription = Some symbol ->
  dict_get str_eq_dec (lit "prec") subscription = Some prec ->
  startswith symbol (lit "t") = true ->
  str_eqb prec (lit "R0") = false ->
  PublicChannelsHandler.handle record parse subscription
    (VList payload :: timestamp :: rest)
  = (if forallb is_list payload then
       rs <-- mapO (parse_splat record parse TradingPairBook) payload ;;
       Done (Some (mkEmission (lit "t_book_snapshot") subscription (Many rs)
                     (Some timestamp)))
     else
       r <-- parse TradingPairBook payload ;;
       Done (Some (mkEmission (lit "t_book_update") subscription (One r)
                     (Some timestamp))))
  /\ (payload = [] ->
      PublicChannelsHandler.handle record parse subscription
        (VList payload :: timestamp :: rest)
      = Done (Some (mkEmission (lit "t_book_snapshot") subscription (Many [])
                      (Some timestamp)))).
Proof.
  intros Hc Hs Hp Ht Hr0.
  assert (Hgen :
    PublicChannelsHandler.handle record parse subscription
      (VList payload :: timestamp :: rest)
    = (if forallb is_list payload then
         rs <-- mapO (parse_splat record parse TradingPairBook) payload ;;
         Done (Some (mkEmission (lit "t_book_snapshot") subscription (Many rs)
                       (Some timestamp)))
       else
         r <-- parse TradingPairBook payload ;;
         Done (Some (mkEmission (lit "t_book_update") subscription (One r)
                       (Some timestamp))))).
  { rewrite (handle_book _ _ Hc).
    cbn [getitem nth_error bindO eq_str].
    rewrite (sub_get_eq _ _ _ Hp). cbn [bindO].
    rewrite Hr0. cbn [negb].
    unfold __book_channel_handler. rewrite (sub_get_eq _ _ _ Hs).
    cbn [bindO]. rewrite Ht.
    cbn [getitem nth_error bindO all_lists iterate].
    destruct (forallb is_list payload); reflexivity. }
  split; [exact Hgen|].
  intros ->. rewrite Hgen. reflexivity.
Qed.

(** On a trades subscription of a trading pair, a frame [[tag, body, ...]]
    with one of the four execution tags is decoded with the trading-pair
    decoder and emitted under the name the tag selects: the name follows
    the tag and the decoder follows the symbol, so the tag [fte] on a
    symbol starting with [t] gives [f_trade_execution] with a trading-pair
    record. *)
Theorem trade_execution_decoder (subscription : Subscription)
    (symbol tag name : str) (body : value) (rest : list value) :
  dict_get str_eq_dec (lit "channel") subscription = Some (lit "trades") ->
  dict_get str_eq_dec (lit "symbol") subscription = Some symbol ->
  startswith symbol (lit "t") = true ->
  dict_get str_eq_dec tag trade_events = Some name ->
  PublicChannelsHandler.handle record parse subscription
    (VStr tag :: body :: rest)
  = (r <-- parse_splat record parse TradingPairTrade body ;;
     Done (Some (mkEmission name subscription (One r) None))).
Proof.
  intros Hc Hs Ht Htag.
  unfold PublicChannelsHandler.handle. rewrite (sub_get_eq _ _ _ Hc).
  cbn [bindO].
  change (str_eqb (lit "trades") (lit "ticker")) with false.
  change (str_eqb (lit "trades") (lit "trades")) with true.
  cbv iota. unfold __trades_channel_handler.
  cbn [getitem nth_error bindO].
  assert (Hin : truthy (VStr tag)
                && existsb (eq_str (VStr tag))
                     [lit "te"; lit "tu"; lit "fte"; lit "ftu"] = true).
  { unfold trade_events in Htag. cbn [dict_get] in Htag.
    cbn [existsb eq_str]. unfold str_eqb.
    repeat match type of Htag with
           | context [str_eq_dec tag ?s] =>
               destruct (str_eq_dec tag s) as [->|?]; [reflexivity|]
           end.
    discriminate. }
  rewrite Hin, (sub_get_eq _ _ _ Hs). cbn [bindO]. rewrite Ht.
  unfold trade_event_name. rewrite Htag. cbn [bindO].
  destruct (parse_splat record parse TradingPairTrade body); reflexivity.
Qed.

(** Malformed frames on a book subscription.  An empty frame, a checksum
    frame without value or without timestamp, and an aggregated-book frame
    without timestamp raise [IndexError]; a checksum frame whose value is
    not an integer (a float, a string, a list, null) raises [TypeError].
    No event is emitted in any of these cases, whatever the symbol. *)
Theorem malformed_book_frames (subscription : Subscription) (prec : str)
    (s0 v timestamp : value) (rest : list value) :
  dict_get str_eq_dec (lit "channel") subscription = Some (lit "book") ->
  PublicChannelsHandler.handle record parse subscription []
  = Fails (Builtin IndexError)
  /\ PublicChannelsHandler.handle record parse subscription [VStr (lit "cs")]
     = Fails (Builtin IndexError)
  /\ PublicChannelsHandler.handle record parse subscription
       [VStr (lit "cs"); v]
     = Fails (Builtin IndexError)
  /\ (is_int v = false ->
      PublicChannelsHandler.handle record parse subscription
        (VStr (lit "cs") :: v :: timestamp :: rest)
      = Fails TypeError)
  /\ (eq_str s0 _CHECKSUM = false ->
      dict_get str_eq_dec (lit "prec") subscription = Some prec ->
      str_eqb prec (lit "R0") = false ->
      PublicChannelsHandler.handle record parse subscription [s0]
      = Fails (Builtin IndexError)).
Proof.
  intro Hc. rewrite !(handle_book _ _ Hc).
  split; [reflexivity|]. split; [reflexivity|]. split; [reflexivity|].
  split.
  - intro Hv. cbn [getitem nth_error bindO].
    change (eq_str (VStr (lit "cs")) _CHECKSUM) with true. cbv iota.
    unfold __checksum_handler. destruct v; try discriminate Hv; reflexivity.
  - intros Hcs Hp Hr0. cbn [getitem nth_error bindO]. rewrite Hcs.
    rewrite (sub_get_eq _ _ _ Hp). cbn [bindO]. rewrite Hr0. reflexivity.
Qed.

(** A frame for a symbol that starts with neither [t] nor [f] is dropped:
    no event, no exception.  The ticker and raw-book handlers drop it
    without reading the frame, the aggregated-book handler likewise; the
    trades handler reads only the first field of the frame. *)
Theorem unknown_symbol_prefix_dropped (subscription : Subscription)
    (symbol : str) (stream : list value) :
  dict_get str_eq_dec (lit "symbol") subscription = Some symbol ->
  startswith symbol (lit "t") = false ->
  startswith symbol (lit "f") = false ->
  __ticker_channel_handler record parse subscription stream = Done None
  /\ __raw_book_channel_handler record parse subscription stream = Done None
  /\ (forall timestamp,
        __book_channel_handler record parse subscription stream timestamp
        = Done None)
  /\ (stream <> [] ->
      __trades_channel_handler record parse subscription stream = Done None).
Proof.
  intros Hs Ht Hf. repeat split.
  - unfold __ticker_channel_handler. rewrite (sub_get_eq _ _ _ Hs).
    cbn [bindO]. now rewrite Ht, Hf.
  - unfold __raw_book_channel_handler. rewrite (sub_get_eq _ _ _ Hs).
    cbn [bindO]. now rewrite Ht, Hf.
  - intro timestamp. unfold __book_channel_handler.
    rewrite (sub_get_eq _ _ _ Hs). cbn [bindO]. now rewrite Ht, Hf.
  - intro Hne. destruct stream as [|event rest]; [congruence|].
    unfold __trades_channel_handler. cbn [getitem nth_error bindO].
    rewrite (sub_get_eq _ _ _ Hs). cbn [bindO]. rewrite Ht, Hf.
    destruct (truthy event
              && existsb (eq_str event) [lit "te"; lit "tu"; lit "fte"; lit "ftu"]);
      cbn [bindO]; rewrite ?(sub_get_eq _ _ _ Hs); cbn [bindO];
      rewrite ?Ht, ?Hf; reflexivity.
Qed.

(** A subscription whose channel is none of [ticker], [trades], [book],
    [candles], [status] is ignored: no event and no exception, whatever
    the frame, even an empty one. *)
Theorem unknown_channel_ignored (subscription : Subscription) (channel : str)
    (stream : list value) :
  dict_get str_eq_dec (lit "channel") subscription = Some channel ->
  ~ In channel known_channels ->
  PublicChannelsHandler.handle record parse subscription stream = Done None.
Proof.
  intros Hc Hn. unfold PublicChannelsHandler.handle.
  rewrite (sub_get_eq _ _ _ Hc). cbn [bindO].
  unfold known_channels in Hn. cbn [In] in Hn.
  unfold str_eqb.
  repeat match goal with
         | |- context [str_eq_dec channel ?s] =>
             destruct (str_eq_dec channel s) as [E|_];
               [exfalso; apply Hn; rewrite E; tauto|]
         end.
  reflexivity.
Qed.

(** The mask of the dispatcher and the comparison of [verify] fit
    together.  When the book's CRC is [crc] (that is, [verify] accepts
    [crc]) and a checksum frame carries it either as it is or as its
    signed 32-bit reading [crc - 2^32], the dispatcher emits a [checksum]
    event whose value [verify] accepts; the signed reading itself, if
    negative, is one [verify] does not accept. *)
Theorem signed_checksum_frame_verifies (b : OrderBook)
    (subscription : Subscription) (crc v : Z) (timestamp : value)
    (rest : list value) :
  dict_get str_eq_dec (lit "channel") subscription = Some (lit "book") ->
  verify b crc = Ok true ->
  v = crc \/ v = crc - 2 ^ 32 ->
  exists m,
    PublicChannelsHandler.handle record parse subscription
      (VStr (lit "cs") :: VInt v :: timestamp :: rest)
    = Done (Some (mkEmission (lit "checksum") subscription (Masked m)
                    (Some timestamp)))
    /\ verify b m = Ok true
    /\ (v < 0 -> verify b v <> Ok true).
Proof.
  intros Hc Hcrc Hv.
  assert (Hrange : forall c, verify b c = Ok true -> 0 <= c < 2 ^ 32).
  { intros c H. destruct (is_verifiable b) eqn:Hvf.
    - rewrite (verify_eq b c Hvf) in H. unfold canonical_crc in H.
      destruct (mapM _format_float _) as [parts|e]; cbn [bind] in H;
        [|discriminate].
      injection H as H. apply Z.eqb_eq in H. subst c.
      apply zlib_crc32_range, encode_utf8_bytes.
    - unfold verify in H. cbv zeta in H.
      rewrite verify_depth_check, Hvf in H. discriminate. }
  pose proof (Hrange crc Hcrc) as Hr.
  exists crc. split; [|split].
  - rewrite (handle_book _ _ Hc). cbn [getitem nth_error bindO].
    change (eq_str (VStr (lit "cs")) _CHECKSUM) with true. cbv iota.
    unfold __checksum_handler. cbn [int_and bindO]. rewrite land_mask32.
    replace (v mod 2 ^ 32) with crc; [reflexivity|].
    destruct Hv as [-> | ->].
    + now rewrite Z.mod_small.
    + apply (Z.mod_unique_pos _ _ (-1) crc); lia.
  - exact Hcrc.
  - intros Hneg H. apply Hrange in H. lia.
Qed.

End DispatchShapes.

End Script.

(** * The samples, with the sample logarithm *)

(** ** The model against Python on sample values *)

Example format_float_1e_6 :
  _format_float sample_log10 (NFloat (FNum false 0 N1 (-6))) = Ok (lit "0.000001").
Proof. reflexivity. Qed.

Example format_float_1e_7 :
  _format_float sample_log10 (NFloat (FNum false 0 N1 (-7))) = Ok (lit "1e-7").
Proof. reflexivity. Qed.

Example format_float_15e_8 :
  _format_float sample_log10 (NFloat (FNum true 1 N5 (-8))) = Ok (lit "-1.5e-7").
Proof. reflexivity. Qed.

Example format_float_1e_10 :
  _format_float sample_log10 (NFloat (FNum false 0 N1 (-10))) = Ok (lit "1e-10").
Proof. reflexivity. Qed.

Example format_float_43000 :
  _format_float sample_log10 (NFloat (FNum false 4 N3 3)) = Ok (lit "43000.0").
Proof. reflexivity. Qed.

Example format_int_43000 :
  _format_float sample_log10 (NInt 43000) = Ok (lit "43000").
Proof. reflexivity. Qed.

Example format_int_negative :
  _format_float sample_log10 (NInt (-5)) = Ok (lit "-5").
Proof. reflexivity. Qed.

Example format_float_1234_5678 :
  _format_float sample_log10 (NFloat (FNum false 1234567 N8 (-4)))
  = Ok (lit "1234.5678").
Proof. reflexivity. Qed.

Example format_float_1e16 :
  _format_float sample_log10 (NFloat (FNum false 0 N1 16))
  = Ok (lit "10000000000000000").
Proof. reflexivity. Qed.

Example format_float_big :
  _format_float sample_log10 (NFloat (FNum false 1234567890123456 N8 0))
  = Ok (lit "12345678901234568").
Proof. reflexivity. Qed.

Example format_float_small :
  _format_float sample_log10 (NFloat (FNum true 123 N4 (-7)))
  = Ok (lit "-0.0001234").
Proof. reflexivity. Qed.

Example format_zero_raises :
  _format_float sample_log10 (NFloat FZero) = Raise ValueError
  /\ _format_float sample_log10 (NInt 0) = Raise ValueError.
Proof. split; reflexivity. Qed.

(** The floats just below [1e-6]: the sample logarithm, which is exact,
    gives the exponent -7 and the exponent form; a logarithm rounded up to
    -6, as a C library returns it there, gives the fixed-point form. *)
Example format_float_below_1e_6 :
  _format_float sample_log10 (NFloat (FNum false 999999999999999 N7 (-22)))
  = Ok (lit "9.999999999999997e-7")
  /\ _format_float (fun _ => float_of_Z (-6))
       (NFloat (FNum false 999999999999999 N7 (-22)))
     = Ok (lit "0.0000009999999999999997").
Proof. split; reflexivity. Qed.

(** An integer and a float written alike. *)
Example format_1e23 :
  _format_float sample_log10 (NInt (10 ^ 23))
  = Ok (lit "100000000000000000000000")
  /\ _format_float sample_log10 (NFloat (FNum false 0 N1 23))
     = Ok (lit "100000000000000000000000")
  /\ num_eqb (NInt (10 ^ 23)) (NFloat (FNum false 0 N1 23)) = false.
Proof. repeat split; vm_compute; reflexivity. Qed.

Example float_repr_1e_5 : float_repr (FNum false 0 N1 (-5)) = lit "1e-05".
Proof. reflexivity. Qed.

Example float_repr_long :
  float_repr (FNum false 1234567890123456 N8 0) = lit "1.2345678901234568e+16".
Proof. reflexivity. Qed.

Example crc32_check_value :
  zlib_crc32 (encode_utf8 (lit "123456789")) = 0xCBF43926
  /\ crc32_reference (ascii_codes (lit "123456789")) = 0xCBF43926.
Proof. split; vm_compute; reflexivity. Qed.

(** The exact value of [0.1] is [3602879701896397 / 2^55]. *)
Example float_units_tenth :
  float_units (FNum false 0 N1 (-1)) = 3602879701896397 * 2 ^ (1074 - 55).
Proof. vm_compute. reflexivity. Qed.

(** [43000 == 43000.0], [1e23 < 10**23] and [0.1 + 0.2 != 0.3] in the
    sense that [0.30000000000000004] is another float than [0.3]. *)
Example num_compare_samples :
  num_eqb (NInt 43000) (NFloat (FNum false 4 N3 3)) = true
  /\ num_ltb (NFloat (FNum false 0 N1 23)) (NInt (10 ^ 23)) = true
  /\ num_ltb (NFloat (FNum false 0 N3 (-1)))
       (NFloat (FNum false 3000000000000000 N4 (-17))) = true.
Proof. repeat split; vm_compute; reflexivity. Qed.

(** A level stored under the integer [43000] is replaced, under the same
    key, by a message for the float [43000.0]. *)
Example update_equal_keys :
  apply_all empty_book
    [{| price := NInt 43000; count := 1; amount := NInt 2 |};
     {| price := NFloat (FNum false 4 N3 3); count := 3;
        amount := NFloat (FNum false 0 N5 (-1)) |}]
  = Ok {| book_bids :=
            [(NInt 43000,
              {| level_p := NFloat (FNum false 4 N3 3); level_c := 3;
                 level_a := NFloat (FNum false 0 N5 (-1)) |})];
          book_asks := [] |}.
Proof. vm_compute. reflexivity. Qed.

(** ** The sample data *)

Example sample_book_zero_reached :
  update sample_book
    {| price := sample_price 100 0; count := 1; amount := NInt 0 |}
  = Ok sample_book_zero.
Proof. vm_compute. reflexivity. Qed.

Example sample_verify_mismatch : verify sample_log10 sample_book 0 = Ok false.
Proof. vm_compute. reflexivity. Qed.

Example sample_canonical_string :
  bind (mapM (_format_float sample_log10)
          (canonical_values (sorted_bids sample_book) (sorted_asks sample_book)))
       (fun parts => Ok (firstn 40 (join (lit ":") parts)))
  = Ok (lit "241:0.75:1001:-0.75:231:0.75:1011:-0.75:").
Proof. vm_compute. reflexivity. Qed.

Example sample_verify_match :
  verify sample_log10 sample_book 3308996829 = Ok true.
Proof. vm_compute. reflexivity. Qed.

(** The sample state is reached from the initial one by a snapshot at
    1000, a good checksum at 1200 and an update at 1500 that repeats a
    level. *)
Example sample_state_reached :
  run sample_log10
      [ev_t_book_snapshot sample_subscription sample_snapshot 1000;
       ev_checksum sample_subscription 3308996829 1200;
       ev_t_book_update sample_subscription
         {| price := sample_price 0 0; count := 1;
            amount := NFloat (FNum false 7 N5 (-2)) |}
         1500]
      initial_state
  = Ok (sample_state, []).
Proof. vm_compute. reflexivity. Qed.

(** ** The claims on the samples *)

Lemma verify_checksum_witness :
  is_verifiable sample_book = true
  /\ length (canonical_values (sorted_bids sample_book) (sorted_asks sample_book))
     = 100%nat
  /\ verify sample_log10 sample_book 3308996829 = Ok true
  /\ exists parts,
       mapM (_format_float sample_log10)
         (canonical_values (sorted_bids sample_book) (sorted_asks sample_book))
       = Ok parts
       /\ crc32_reference (ascii_codes (colon_joined parts)) = 3308996829.
Proof.
  assert (Hv : verify sample_log10 sample_book 3308996829 = Ok true)
    by (vm_compute; reflexivity).
  split; [reflexivity|].
  destruct (verify_checksum sample_log10 sample_book 3308996829 eq_refl)
    as (_ & _ & _ & _ & Hlen & _ & Hiff).
  split; [exact Hlen|]. split; [exact Hv|].
  apply Hiff. exact Hv.
Defined.

Lemma verify_raises_at_zero_witness :
  is_verifiable sample_book_zero = true
  /\ In (NInt 0)
       (canonical_values (sorted_bids sample_book_zero)
          (sorted_asks sample_book_zero))
  /\ verify sample_log10 sample_book_zero 0 = Raise ValueError.
Proof.
  assert (Hin : In (NInt 0)
                  (canonical_values (sorted_bids sample_book_zero)
                     (sorted_asks sample_book_zero))).
  { vm_compute. do 3 right. left. reflexivity. }
  split; [reflexivity|]. split; [exact Hin|].
  apply (verify_raises_at_zero sample_log10 sample_book_zero 0 (NInt 0));
    [reflexivity | exact Hin | left; reflexivity].
Defined.



Lemma resync_on_mismatch_witness :
  exists s' l s_req,
    on_checksum sample_log10 sample_subscription 0 2000 sample_state
    = Ok (tt, s', l)
    /\ requests l
       = [(Unsubscribe (lit "7f3a"), s_req);
          (Subscribe (dict_remove str_eq_dec (lit "sub_id") sample_subscription),
           s_req)]
    /\ timestamp_orderbook_update_map s_req = []
    /\ order_book s_req = order_book sample_state
    /\ are_new_messages_to_drop s_req = true
    /\ order_book s' = empty_book
    /\ timestamp_orderbook_update_map s' = []
    /\ (forall events s'' l',
          forallb (fun ev => negb (is_snapshot ev)) events = true ->
          run sample_log10 events s' = Ok (s'', l') ->
          order_book s'' = empty_book).
Proof.
  apply (resync_on_mismatch sample_log10 sample_subscription (lit "7f3a") 0 2000
           sample_state).
  - reflexivity.
  - vm_compute. reflexivity.
  - reflexivity.
Defined.

(** C2, the order as first stated fails: in the sample state the subscribe
    request is made while the book still holds its 50 levels. *)
Lemma subscribe_precedes_book_clear :
  ~ cleared_before_subscribe
      (log_of (on_checksum sample_log10 sample_subscription 0 2000 sample_state)).
Proof.
  intro H.
  rewrite (on_checksum_mismatch sample_log10 sample_subscription 0 2000
             sample_state eq_refl sample_verify_mismatch) in H.
  cbv zeta in H.
  change (dict_get str_eq_dec (lit "sub_id") sample_subscription)
    with (Some (lit "7f3a")) in H.
  cbn [log_of] in H.
  specialize (H _ _ (or_intror (or_intror (or_intror (or_intror (or_introl eq_refl)))))).
  destruct H as [H _]. discriminate H.
Qed.

(** The window of the initial state is closed by the first update, at
    1700, on a book of one level; the mismatch is that of the sample
    state. *)
Lemma flush_final_copy_witness :
  (exists b s' l content,
      update (order_book initial_state) sample_update = Ok b
      /\ on_t_book_update sample_subscription sample_update 1700 initial_state
         = Ok (tt, s', l)
      /\ written l = [(journal_path 1700 false, content)]
      /\ content
         = dict_set Z.eq_dec (-1) (BookCopy b)
             [(1700, Updates [price sample_update] [amount sample_update]
                       [count sample_update])]
      /\ dict_get Z.eq_dec (-1) content = Some (BookCopy b)
      /\ timestamp_orderbook_update_map s' = [])
  /\ (exists s' l content,
        on_checksum sample_log10 sample_subscription 0 2000 sample_state
        = Ok (tt, s', l)
        /\ written l
           = [(journal_path (last_checksum_timestamp sample_state) true, content)]
        /\ content
           = _get_orderbook_updates_until
               (timestamp_orderbook_update_map sample_state)
               (last_checksum_timestamp sample_state)
        /\ (forall e, dict_get Z.eq_dec (-1) content = Some e ->
                      dict_get Z.eq_dec (-1)
                        (timestamp_orderbook_update_map sample_state)
                      = Some e)
        /\ timestamp_orderbook_update_map s' = []).
Proof.
  destruct (flush_final_copy sample_log10 sample_subscription (lit "7f3a")
              sample_update 1700 0 2000 initial_state sample_state
              [(1700, Updates [price sample_update] [amount sample_update]
                        [count sample_update])]
              eq_refl)
    as [Hclose Hmismatch].
  split.
  - apply Hclose; [reflexivity | reflexivity | vm_compute; discriminate].
  - apply Hmismatch; [reflexivity | vm_compute; reflexivity].
Defined.

(** C5, the flush as first stated fails on a mismatch: the file written
    from the sample state holds no entry under -1. *)
Lemma mismatch_flush_without_final_copy :
  ~ flush_has_final_copy
      (log_of (on_checksum sample_log10 sample_subscription 0 2000 sample_state)).
Proof.
  intro H.
  rewrite (on_checksum_mismatch sample_log10 sample_subscription 0 2000
             sample_state eq_refl sample_verify_mismatch) in H.
  cbv zeta in H.
  change (dict_get str_eq_dec (lit "sub_id") sample_subscription)
    with (Some (lit "7f3a")) in H.
  cbn [log_of written reset_log] in H.
  destruct (H _ _ (or_introl eq_refl)) as [b Hb].
  vm_compute in Hb. discriminate Hb.
Qed.

Lemma flush_file_name_witness :
  (exists s' l content,
      on_t_book_update sample_subscription sample_update 1700 initial_state
      = Ok (tt, s', l)
      /\ written l = [(lit "data/data_1700.json", content)])
  /\ (exists s' l content,
        on_checksum sample_log10 sample_subscription 0 2000 sample_state
        = Ok (tt, s', l)
        /\ written l = [(lit "data/data_1200_interrupted.json", content)]
        /\ Forall (fun kv => fst kv <= 1200) content
        /\ (forall k, k <= 1200 ->
                      dict_get Z.eq_dec k content
                      = dict_get Z.eq_dec k
                          (timestamp_orderbook_update_map sample_state))).
Proof.
  destruct (flush_file_name sample_log10 sample_subscription (lit "7f3a")
              sample_update 1700 0 2000 initial_state sample_state
              [(1700, Updates [price sample_update] [amount sample_update]
                        [count sample_update])]
              eq_refl)
    as [Hclose Hmismatch].
  split.
  - apply Hclose; [reflexivity | reflexivity | vm_compute; discriminate].
  - apply Hmismatch; [reflexivity | vm_compute; reflexivity].
Defined.

(** C6, the naming as first stated fails: the window of the sample state
    starts at 1000 and the file written when it expires is
    [data/data_3400000.json]. *)
Lemma flush_not_named_after_window_start :
  ~ named_after_window_start sample_state
      (log_of (on_t_book_update sample_subscription sample_update 3400000
                 sample_state)).
Proof.
  intro H.
  assert (Hb := update_eq (order_book sample_state) sample_update).
  rewrite (on_t_book_update_close sample_subscription sample_update 3400000
             sample_state _ sample_journal_closing eq_refl Hb eq_refl) in H
    by (vm_compute; discriminate).
  cbv zeta in H.
  change (dict_get str_eq_dec (lit "sub_id") sample_subscription)
    with (Some (lit "7f3a")) in H.
  cbn [log_of written reset_log] in H.
  destruct (H _ _ (or_introl eq_refl)) as [Hp|Hp];
    vm_compute in Hp; discriminate Hp.
Qed.

(** ** The further properties on the samples *)

Lemma update_insert_then_remove_witness :
  exists b1,
    update sample_book
      {| price := sample_price 0 30; count := 3;
         amount := NFloat (FNum false 0 N1 0) |} = Ok b1
    /\ update b1 {| price := sample_price 0 30; count := 0;
                    amount := NFloat (FNum false 0 N2 0) |} = Ok sample_book.
Proof.
  destruct (update_insert_then_remove sample_snapshot (sample_price 0 30) 3
              (NFloat (FNum false 0 N1 0)) (NFloat (FNum false 0 N2 0)))
    as (b & Hb & H).
  - lia.
  - reflexivity.
  - assert (E : b = sample_book).
    { assert (Hs : apply_all empty_book sample_snapshot = Ok sample_book)
        by (vm_compute; reflexivity).
      congruence. }
    subst b. apply H. vm_compute. intuition discriminate.
Defined.

Lemma verify_true_checksum_range_witness :
  verify sample_log10 sample_book 3308996829 = Ok true
  /\ 0 <= 3308996829 < 2 ^ 32.
Proof.
  assert (H : verify sample_log10 sample_book 3308996829 = Ok true)
    by (vm_compute; reflexivity).
  split; [exact H|].
  apply (verify_true_checksum_range sample_log10 sample_book 3308996829 H).
Defined.

(** The globals after the sample snapshot at 1000, before any checksum. *)
Lemma mismatch_without_good_checksum_saves_nothing_witness :
  exists s0 s' l,
    run sample_log10
        [ev_t_book_snapshot sample_subscription sample_snapshot 1000]
        initial_state = Ok (s0, [])
    /\ timestamp_orderbook_update_map s0 = [(1000, BookCopy sample_book)]
    /\ on_checksum sample_log10 sample_subscription 0 1100 s0 = Ok (tt, s', l)
    /\ written l = [(lit "data/data_0_interrupted.json", [])]
    /\ timestamp_orderbook_update_map s' = [].
Proof.
  eexists.
  destruct (mismatch_without_good_checksum_saves_nothing sample_log10
              sample_subscription
              (lit "7f3a") 0 1100
              {| order_book := sample_book;
                 timestamp_orderbook_update_map := [(1000, BookCopy sample_book)];
                 last_checksum_timestamp := 0;
                 starting_timestamp := 1000;
                 ending_timestamp := 3301000;
                 are_new_messages_to_drop := false |})
    as (s' & l & H1 & H2 & H3).
  - reflexivity.
  - vm_compute. reflexivity.
  - reflexivity.
  - repeat constructor.
  - exists s', l. split; [vm_compute; reflexivity|].
    split; [reflexivity|]. split; [exact H1|]. split; [exact H2 | exact H3].
Defined.

Lemma resync_without_sub_id_raises_witness :
  _reset_connection [(lit "channel", lit "book")] sample_state = Raise KeyError
  /\ on_checksum sample_log10 [(lit "channel", lit "book")] 0 2000 sample_state
     = Raise KeyError.
Proof.
  destruct (resync_without_sub_id_raises sample_log10
              [(lit "channel", lit "book")] 0 2000 sample_state eq_refl)
    as [H1 H2].
  split; [exact H1|].
  apply H2; [reflexivity | vm_compute; reflexivity].
Defined.

Lemma run_keeps_state_well_formed_witness :
  exists s l,
    run sample_log10 sample_events initial_state = Ok (s, l)
    /\ state_ok s
    /\ Forall (fun pc => journal_ok (snd pc)) (written l).
Proof.
  destruct (run sample_log10 sample_events initial_state) as [[s l]|e] eqn:E.
  - exists s, l. split; [reflexivity|].
    apply (run_keeps_state_well_formed sample_log10 sample_events s l E).
  - vm_compute in E. discriminate E.
Defined.

Lemma verify_order_independent_witness :
  verify sample_log10 sample_book 3308996829
  = verify sample_log10 sample_book_reversed 3308996829.
Proof.
  apply (verify_order_independent sample_log10 sample_book sample_book_reversed
           3308996829).
  - apply (apply_all_book_ok sample_snapshot empty_book sample_book
             empty_book_ok).
    vm_compute. reflexivity.
  - apply Permutation_rev.
  - apply Permutation_rev.
Defined.

Lemma format_float_keeps_value_witness :
  exists s d,
    _format_float sample_log10 (NInt 43000) = Ok s
    /\ Decimal_of_str s = Ok d
    /\ same_value d (NInt 43000).
Proof.
  apply (format_float_keeps_value sample_log10 (NInt 43000)). reflexivity.
Defined.

(** An integer and a float written alike have the same expansion. *)
Lemma format_float_injective_witness :
  same_decimal (NInt (10 ^ 23)) (NFloat (FNum false 0 N1 23))
  /\ (same_type (NInt (10 ^ 23)) (NFloat (FNum false 0 N1 23)) = true ->
      NInt (10 ^ 23) = NFloat (FNum false 0 N1 23)).
Proof.
  apply (format_float_injective sample_log10 (NInt (10 ^ 23))
           (NFloat (FNum false 0 N1 23)) (lit "100000000000000000000000"));
    vm_compute; reflexivity.
Defined.

Lemma canonical_string_injective_witness :
  Forall2 (fun x y => same_decimal x y /\ (same_type x y = true -> x = y))
    [NInt (10 ^ 23); NFloat (FNum true 0 N1 (-7))]
    [NFloat (FNum false 0 N1 23); NFloat (FNum true 0 N1 (-7))].
Proof.
  apply (canonical_string_injective sample_log10
           [NInt (10 ^ 23); NFloat (FNum true 0 N1 (-7))]
           [NFloat (FNum false 0 N1 23); NFloat (FNum true 0 N1 (-7))]
           [lit "100000000000000000000000"; lit "-1e-7"]
           [lit "100000000000000000000000"; lit "-1e-7"]);
    vm_compute; reflexivity.
Defined.

(** ** The dispatcher on the samples *)

Lemma checksum_frame_masked_witness :
  PublicChannelsHandler.handle (list PublicChannelsHandler.value) sample_parse
    sample_subscription
    [PublicChannelsHandler.VStr (lit "cs");
     PublicChannelsHandler.VInt (-985970467);
     PublicChannelsHandler.VInt 1200]
  = PublicChannelsHandler.Done
      (Some (PublicChannelsHandler.mkEmission (lit "checksum")
               sample_subscription
               (PublicChannelsHandler.Masked 3308996829)
               (Some (PublicChannelsHandler.VInt 1200)))).
Proof.
  apply (checksum_frame_masked (list PublicChannelsHandler.value) sample_parse
           sample_subscription (-985970467)
           (PublicChannelsHandler.VInt 1200) []).
  reflexivity.
Defined.

Lemma handle_event_of_channel_witness :
  exists channel,
    dict_get str_eq_dec (lit "channel") sample_subscription = Some channel
    /\ PublicChannelsHandler.em_subscription
         (PublicChannelsHandler.mkEmission (lit "checksum") sample_subscription
            (PublicChannelsHandler.Masked (record := list PublicChannelsHandler.value)
               3308996829)
            (Some (PublicChannelsHandler.VInt 1200)))
       = sample_subscription
    /\ In (lit "checksum") (channel_events channel)
    /\ (Some (PublicChannelsHandler.VInt 1200) <> None
        <-> In (lit "checksum") timestamped_events).
Proof.
  apply (handle_event_of_channel (list PublicChannelsHandler.value) sample_parse
           sample_subscription
           [PublicChannelsHandler.VStr (lit "cs");
            PublicChannelsHandler.VInt (-985970467);
            PublicChannelsHandler.VInt 1200]
           (PublicChannelsHandler.mkEmission (lit "checksum") sample_subscription
              (PublicChannelsHandler.Masked 3308996829)
              (Some (PublicChannelsHandler.VInt 1200)))).
  reflexivity.
Defined.

Lemma book_frame_shape_witness :
  PublicChannelsHandler.handle (list PublicChannelsHandler.value) sample_parse
    sample_subscription
    [PublicChannelsHandler.VList []; PublicChannelsHandler.VInt 1200]
  = PublicChannelsHandler.Done
      (Some (PublicChannelsHandler.mkEmission (lit "t_book_snapshot")
               sample_subscription (PublicChannelsHandler.Many [])
               (Some (PublicChannelsHandler.VInt 1200)))).
Proof.
  apply (book_frame_shape (list PublicChannelsHandler.value) sample_parse
           sample_subscription (lit "tBTCUSD") (lit "P0") []
           (PublicChannelsHandler.VInt 1200) []);
    reflexivity.
Defined.

Lemma trade_execution_decoder_witness :
  PublicChannelsHandler.handle (list PublicChannelsHandler.value) sample_parse
    sample_trades_subscription
    [PublicChannelsHandler.VStr (lit "fte");
     PublicChannelsHandler.VList
       [PublicChannelsHandler.VInt 401597395;
        PublicChannelsHandler.VInt 1574694478808;
        PublicChannelsHandler.VInt 1; PublicChannelsHandler.VInt 7245]]
  = PublicChannelsHandler.Done
      (Some (PublicChannelsHandler.mkEmission (lit "f_trade_execution")
               sample_trades_subscription
               (PublicChannelsHandler.One
                  [PublicChannelsHandler.VInt 401597395;
                   PublicChannelsHandler.VInt 1574694478808;
                   PublicChannelsHandler.VInt 1;
                   PublicChannelsHandler.VInt 7245])
               None)).
Proof.
  apply (trade_execution_decoder (list PublicChannelsHandler.value)
           sample_parse sample_trades_subscription (lit "tBTCUSD")
           (lit "fte") (lit "f_trade_execution")
           (PublicChannelsHandler.VList
              [PublicChannelsHandler.VInt 401597395;
               PublicChannelsHandler.VInt 1574694478808;
               PublicChannelsHandler.VInt 1; PublicChannelsHandler.VInt 7245])
           []);
    reflexivity.
Defined.

Lemma malformed_book_frames_witness :
  PublicChannelsHandler.handle (list PublicChannelsHandler.value) sample_parse
    sample_subscription
    [PublicChannelsHandler.VStr (lit "cs"); PublicChannelsHandler.VNone;
     PublicChannelsHandler.VInt 1200]
  = PublicChannelsHandler.Fails PublicChannelsHandler.TypeError
  /\ PublicChannelsHandler.handle (list PublicChannelsHandler.value)
       sample_parse sample_subscription [PublicChannelsHandler.VList []]
     = PublicChannelsHandler.Fails
         (PublicChannelsHandler.Builtin IndexError).
Proof.
  destruct (malformed_book_frames (list PublicChannelsHandler.value)
              sample_parse sample_subscription (lit "P0")
              (PublicChannelsHandler.VList []) PublicChannelsHandler.VNone
              (PublicChannelsHandler.VInt 1200) [] eq_refl)
    as (_ & _ & _ & Htype & Hshort).
  split; [apply Htype | apply Hshort]; reflexivity.
Defined.

Lemma unknown_symbol_prefix_dropped_witness :
  PublicChannelsHandler.__ticker_channel_handler
    (list PublicChannelsHandler.value) sample_parse
    [(lit "channel", lit "ticker"); (lit "symbol", lit "BTCUSD")] []
  = PublicChannelsHandler.Done None.
Proof.
  apply (unknown_symbol_prefix_dropped (list PublicChannelsHandler.value)
           sample_parse
           [(lit "channel", lit "ticker"); (lit "symbol", lit "BTCUSD")]
           (lit "BTCUSD") []);
    reflexivity.
Defined.

Lemma unknown_channel_ignored_witness :
  PublicChannelsHandler.handle (list PublicChannelsHandler.value) sample_parse
    [(lit "channel", lit "heartbeat")] []
  = PublicChannelsHandler.Done None.
Proof.
  apply (unknown_channel_ignored (list PublicChannelsHandler.value)
           sample_parse [(lit "channel", lit "heartbeat")] (lit "heartbeat")
           []).
  - reflexivity.
  - vm_compute. intuition discriminate.
Defined.

Lemma signed_checksum_frame_verifies_witness :
  exists m,
    PublicChannelsHandler.handle (list PublicChannelsHandler.value)
      sample_parse sample_subscription
      [PublicChannelsHandler.VStr (lit "cs");
       PublicChannelsHandler.VInt (-985970467);
       PublicChannelsHandler.VInt 1200]
    = PublicChannelsHandler.Done
        (Some (PublicChannelsHandler.mkEmission (lit "checksum")
                 sample_subscription (PublicChannelsHandler.Masked m)
                 (Some (PublicChannelsHandler.VInt 1200))))
    /\ verify sample_log10 sample_book m = Ok true
    /\ (-985970467 < 0 ->
        verify sample_log10 sample_book (-985970467) <> Ok true).
Proof.
  apply (signed_checksum_frame_verifies sample_log10
           (list PublicChannelsHandler.value)
           sample_parse sample_book sample_subscription 3308996829
           (-985970467) (PublicChannelsHandler.VInt 1200) []).
  - reflexivity.
  - vm_compute. reflexivity.
  - right. reflexivity.
Defined.

